(** * Patient record manager: persistence, normalisation, backup scheduler

    A shallow embedding of the data-consistency layer of the clinic's
    [PatientManagement] React component, in its IndexedDB variant (with the
    backup scheduler and the snapshot export/import) and in its
    localStorage variant.

    Conventions of the embedding.
    - JavaScript values are [json] trees; [undefined] and [null] handles are
      [None] of an [option].  Numbers are restricted to integers ([Z]).
    - A JavaScript object is an ordered property list ([obj]); a property
      read is [prop], an object literal [{...o, k: v}] is [obj_set k v o].
    - Component state ([useState] cells) is a record threaded through the
      handlers; every handler runs to completion, together with the
      completion callback of the storage request it issues, before the next
      handler starts, and sees the state committed by the previous one.
    - [Date.now()] is an input of the handler that reads it; a
      [new Date()] in the same handler is the same instant.
    - The object store follows the IndexedDB rules for in-line keys:
      [add] throws at once on a value without a valid key, fails later on a
      key already present, and a failed request aborts its transaction.
    - [JSON.stringify], [JSON.parse] and the ISO date printer belong to the
      platform and are parameters of the development; [RefPlatform] holds
      executable instances, used to run the component on sample data. *)

From Stdlib Require Import ZArith String Ascii.
From stdpp Require Import sorting pretty countable strings gmap fin_maps list.

Set Warnings "-register-all".

Local Open Scope string_scope.
Local Open Scope Z_scope.

(** ** JavaScript values *)

Inductive json : Type :=
  | JNull : json
  | JBool : bool → json
  | JNum : Z → json
  | JStr : string → json
  | JArr : list json → json
  | JObj : list (string * json) → json.

(** An object as the list of its own enumerable properties. *)
Abbreviation obj := (list (string * json)).

(** [o.k]; [None] is [undefined]. *)
Fixpoint prop (k : string) (o : obj) : option json :=
  match o with
  | [] => None
  | (k', v) :: o' => if String.eqb k k' then Some v else prop k o'
  end.

(** [{...o, k: v}]: an existing property keeps its place, a new one goes
    last. *)
Fixpoint obj_set (k : string) (v : json) (o : obj) : obj :=
  match o with
  | [] => [(k, v)]
  | (k', v') :: o' =>
      if String.eqb k k' then (k, v) :: o' else (k', v') :: obj_set k v o'
  end.

(** ToBoolean. *)
Definition truthy (v : json) : bool :=
  match v with
  | JNull => false
  | JBool b => b
  | JNum n => negb (Z.eqb n 0)
  | JStr s => negb (String.eqb s "")
  | JArr _ | JObj _ => true
  end.

Definition truthyV (v : option json) : bool := from_option truthy false v.

(** [v || d]. *)
Definition orElse (v : option json) (d : json) : json :=
  match v with
  | Some x => if truthy x then x else d
  | None => d
  end.

(** [a === b] on values that carry no reference identity.  Arrays and
    objects compare by reference in JavaScript; the model keeps no
    references and answers [false] for them. *)
Definition prim_eq (a b : json) : bool :=
  match a, b with
  | JNull, JNull => true
  | JBool x, JBool y => Bool.eqb x y
  | JNum x, JNum y => Z.eqb x y
  | JStr x, JStr y => String.eqb x y
  | _, _ => false
  end.

Definition strict_eq (a b : option json) : bool :=
  match a, b with
  | None, None => true
  | Some x, Some y => prim_eq x y
  | _, _ => false
  end.

(** [n.toString()] for an integer. *)
Definition toString (n : Z) : string := pretty n.

(** ** The object store ['patients'] of the IndexedDB database

    Created with [{ keyPath: 'id' }] and no key generator.  Valid keys that
    a JSON document can carry are numbers, strings and arrays of keys. *)

Inductive idb_key : Type :=
  | KNum : Z → idb_key
  | KStr : string → idb_key
  | KArr : list idb_key → idb_key.

Fixpoint to_key (v : json) : option idb_key :=
  match v with
  | JNum n => Some (KNum n)
  | JStr s => Some (KStr s)
  | JArr l =>
      KArr <$>
        (fix go (l : list json) : option (list idb_key) :=
           match l with
           | [] => Some []
           | x :: l' =>
               match to_key x, go l' with
               | Some k, Some ks => Some (k :: ks)
               | _, _ => None
               end
           end) l
  | _ => None
  end.

(** Evaluating the key path ['id'] on a record. *)
Definition extract_key (o : obj) : option idb_key :=
  prop "id" o ≫= to_key.

(** Key order: numbers before strings before arrays; arrays
    lexicographically. *)
Fixpoint key_cmp (a b : idb_key) : comparison :=
  match a, b with
  | KNum x, KNum y => Z.compare x y
  | KNum _, _ => Lt
  | KStr _, KNum _ => Gt
  | KStr x, KStr y => String.compare x y
  | KStr _, KArr _ => Lt
  | KArr xs, KArr ys =>
      (fix go (xs ys : list idb_key) : comparison :=
         match xs, ys with
         | [], [] => Eq
         | [], _ :: _ => Lt
         | _ :: _, [] => Gt
         | x :: xs', y :: ys' =>
             match key_cmp x y with
             | Eq => go xs' ys'
             | c => c
             end
         end) xs ys
  | KArr _, _ => Gt
  end.

Definition key_leb (a b : idb_key) : bool :=
  match key_cmp a b with Gt => false | _ => true end.

Fixpoint key_tree (k : idb_key) : gen_tree (Z + string) :=
  match k with
  | KNum n => GenLeaf (inl n)
  | KStr s => GenLeaf (inr s)
  | KArr l => GenNode 0 (map key_tree l)
  end.

Fixpoint tree_key (t : gen_tree (Z + string)) : idb_key :=
  match t with
  | GenLeaf (inl n) => KNum n
  | GenLeaf (inr s) => KStr s
  | GenNode _ l => KArr (map tree_key l)
  end.

(** [tree_key] undoes [key_tree]. *)
Ltac tree_key_inverse :=
  let IH := fresh "IH" in
  fix IH 1; intros [n|s|l]; simpl; try reflexivity;
  f_equal; induction l as [|x l IHl]; simpl; [reflexivity|];
  rewrite (IH x), IHl; reflexivity.

#[global] Instance idb_key_eq_dec : EqDecision idb_key.
Proof.
  assert (Hinv : ∀ k, tree_key (key_tree k) = k) by tree_key_inverse.
  intros a b. destruct (decide (key_tree a = key_tree b)) as [E|N].
  - left. rewrite <- (Hinv a), <- (Hinv b), E. reflexivity.
  - right. intros ->. apply N. reflexivity.
Defined.

#[global] Instance idb_key_countable : Countable idb_key.
Proof.
  apply (inj_countable' key_tree tree_key). tree_key_inverse.
Defined.

(** The contents of the store: the record held under each key. *)
Abbreviation Store := (gmap idb_key obj).

(** Every record sits under the key its own [id] evaluates to. *)
Definition store_wf (s : Store) : Prop :=
  ∀ k o, s !! k = Some o → extract_key o = Some k.

(** [store.getAll()]: the records in ascending key order. *)
Definition getAll (s : Store) : list obj :=
  (merge_sort (λ a b : idb_key * obj, Is_true (key_leb a.1 b.1))
     (map_to_list s)).*2.

(** A request queued on a read-write transaction. *)
Inductive request : Type :=
  | ReqClear : request
  | ReqAdd : idb_key → obj → request.

(** [store.add(v)]: the key is extracted when the call is made; a value
    without a valid key makes the call throw [DataError] ([None]). *)
Definition store_add (v : json) : option request :=
  match v with
  | JObj o => (λ k, ReqAdd k o) <$> extract_key o
  | _ => None
  end.

(** [vs.forEach(v => store.add(v))]: the requests queued, and whether a call
    threw (which ends the loop). *)
Fixpoint forEach_add (vs : list json) : list request * bool :=
  match vs with
  | [] => ([], false)
  | v :: vs' =>
      match store_add v with
      | None => ([], true)
      | Some r => let '(q, threw) := forEach_add vs' in (r :: q, threw)
      end
  end.

(** Running one request; [None] is a [ConstraintError] (key taken). *)
Definition exec_request (s : Store) (r : request) : option Store :=
  match r with
  | ReqClear => Some ∅
  | ReqAdd k o =>
      match s !! k with
      | Some _ => None
      | None => Some (<[k:=o]> s)
      end
  end.

Fixpoint exec_requests (q : list request) (s : Store) : option Store :=
  match q with
  | [] => Some s
  | r :: q' => exec_request s r ≫= exec_requests q'
  end.

(** The transaction commits what was queued, unless a request failed: no
    request of the component has an error handler, so a failed request
    aborts the transaction and the store keeps its old contents. *)
Definition run_transaction (q : list request) (s : Store) : Store :=
  default s (exec_requests q s).

(** The add requests for a list of keyed records. *)
Definition addRequests (l : list (idb_key * obj)) : list request :=
  (λ kv, ReqAdd kv.1 kv.2) <$> l.

(** ** Backup configuration and history *)

Record BackupConfig : Type := mkBackupConfig {
  enabled : bool;
  interval : Z;      (* minutes *)
  lastBackup : Z;    (* epoch milliseconds, 0 = never *)
  maxBackups : Z
}.

Record BackupEntry : Type := mkBackupEntry {
  timestamp : Z;
  filename : string
}.

(** The initial [useState] value of [backupConfig]. *)
Definition defaultBackupConfig : BackupConfig :=
  {| enabled := false; interval := 60; lastBackup := 0; maxBackups := 5 |}.

(** [l.slice(0, e)] for an integer [e]: a negative [e] counts from the
    end. *)
Definition slice0 {A} (l : list A) (e : Z) : list A :=
  if e <? 0 then take (Z.to_nat (Z.of_nat (length l) + e)) l
  else take (Z.to_nat e) l.

(** [[{ timestamp, filename }, ...backupHistory.slice(0, maxBackups - 1)]] *)
Definition newHistory (e : BackupEntry) (h : list BackupEntry) (cfg : BackupConfig)
  : list BackupEntry :=
  e :: slice0 h (maxBackups cfg - 1).

(** [prev => ({ ...prev, lastBackup: timestamp })] *)
Definition withLastBackup (t : Z) (prev : BackupConfig) : BackupConfig :=
  {| enabled := enabled prev; interval := interval prev;
     lastBackup := t; maxBackups := maxBackups prev |}.

(** The updater of [toggleAutomaticBackup], with [Date.now()] = [now]. *)
Definition toggleConfig (now : Z) (prev : BackupConfig) : BackupConfig :=
  {| enabled := negb (enabled prev);
     interval := interval prev;
     lastBackup := if negb (enabled prev) then now else lastBackup prev;
     maxBackups := maxBackups prev |}.

(** The updater of [updateBackupInterval(minutes)]. *)
Definition withInterval (minutes : Z) (prev : BackupConfig) : BackupConfig :=
  {| enabled := enabled prev; interval := minutes;
     lastBackup := lastBackup prev; maxBackups := maxBackups prev |}.

(** The updater of the "Maximum Backups to Keep" input's [onChange]. *)
Definition withMaxBackups (n : Z) (prev : BackupConfig) : BackupConfig :=
  {| enabled := enabled prev; interval := interval prev;
     lastBackup := lastBackup prev; maxBackups := n |}.

(** The test of [checkAndBackup]:
    [now - lastBackup >= interval * 60 * 1000]. *)
Definition backupDue (cfg : BackupConfig) (now : Z) : bool :=
  let timeSinceLastBackup := now - lastBackup cfg in
  let intervalInMs := interval cfg * 60 * 1000 in
  intervalInMs <=? timeSinceLastBackup.

(** ** Component state *)

Record AppState : Type := mkAppState {
  idb : Store;                       (* the persisted object store *)
  db : bool;                         (* the [db] handle is non-null *)
  patients : list obj;
  newPatient : obj;
  editingId : option json;
  selectedPatient : option obj;
  newMedication : obj;
  showAddForm : bool;
  backupConfig : BackupConfig;
  backupHistory : list BackupEntry;
  alerts : list string;              (* messages shown, newest first *)
  downloads : list (string * string) (* files delivered, newest first *)
}.

Definition setIdb (x : Store) (s : AppState) : AppState :=
  mkAppState x (db s) (patients s) (newPatient s) (editingId s)
    (selectedPatient s) (newMedication s) (showAddForm s) (backupConfig s)
    (backupHistory s) (alerts s) (downloads s).

Definition setPatients (x : list obj) (s : AppState) : AppState :=
  mkAppState (idb s) (db s) x (newPatient s) (editingId s)
    (selectedPatient s) (newMedication s) (showAddForm s) (backupConfig s)
    (backupHistory s) (alerts s) (downloads s).

Definition setNewPatient (x : obj) (s : AppState) : AppState :=
  mkAppState (idb s) (db s) (patients s) x (editingId s)
    (selectedPatient s) (newMedication s) (showAddForm s) (backupConfig s)
    (backupHistory s) (alerts s) (downloads s).

Definition setEditingId (x : option json) (s : AppState) : AppState :=
  mkAppState (idb s) (db s) (patients s) (newPatient s) x
    (selectedPatient s) (newMedication s) (showAddForm s) (backupConfig s)
    (backupHistory s) (alerts s) (downloads s).

Definition setSelectedPatient (x : option obj) (s : AppState) : AppState :=
  mkAppState (idb s) (db s) (patients s) (newPatient s) (editingId s)
    x (newMedication s) (showAddForm s) (backupConfig s)
    (backupHistory s) (alerts s) (downloads s).

Definition setNewMedication (x : obj) (s : AppState) : AppState :=
  mkAppState (idb s) (db s) (patients s) (newPatient s) (editingId s)
    (selectedPatient s) x (showAddForm s) (backupConfig s)
    (backupHistory s) (alerts s) (downloads s).

Definition setShowAddForm (x : bool) (s : AppState) : AppState :=
  mkAppState (idb s) (db s) (patients s) (newPatient s) (editingId s)
    (selectedPatient s) (newMedication s) x (backupConfig s)
    (backupHistory s) (alerts s) (downloads s).

Definition setBackupConfig (f : BackupConfig → BackupConfig) (s : AppState)
  : AppState :=
  mkAppState (idb s) (db s) (patients s) (newPatient s) (editingId s)
    (selectedPatient s) (newMedication s) (showAddForm s)
    (f (backupConfig s)) (backupHistory s) (alerts s) (downloads s).

Definition setBackupHistory (x : list BackupEntry) (s : AppState) : AppState :=
  mkAppState (idb s) (db s) (patients s) (newPatient s) (editingId s)
    (selectedPatient s) (newMedication s) (showAddForm s) (backupConfig s)
    x (alerts s) (downloads s).

(** [alert(msg)] *)
Definition alert (msg : string) (s : AppState) : AppState :=
  mkAppState (idb s) (db s) (patients s) (newPatient s) (editingId s)
    (selectedPatient s) (newMedication s) (showAddForm s) (backupConfig s)
    (backupHistory s) (msg :: alerts s) (downloads s).

(** The anchor click that hands the file [name] with contents [text] to the
    browser. *)
Definition download (name text : string) (s : AppState) : AppState :=
  mkAppState (idb s) (db s) (patients s) (newPatient s) (editingId s)
    (selectedPatient s) (newMedication s) (showAddForm s) (backupConfig s)
    (backupHistory s) (alerts s) ((name, text) :: downloads s).

(** The blank patient form, [today] being the current ISO date. *)
Definition blankPatient (today : string) : obj :=
  [("id", JStr ""); ("name", JStr ""); ("mobile", JStr "");
   ("place", JStr ""); ("visitedDate", JStr today);
   ("nextVisitDate", JStr ""); ("medications", JArr []);
   ("notes", JStr "")].

(** The blank medication form. *)
Definition blankMedication (today : string) : obj :=
  [("id", JStr ""); ("description", JStr ""); ("date", JStr today)].

(** The state of a freshly mounted component over the store [s], before the
    database connection opens. *)
Definition mountState (today : string) (s : Store) : AppState :=
  {| idb := s; db := false; patients := []; newPatient := blankPatient today;
     editingId := None; selectedPatient := None;
     newMedication := blankMedication today; showAddForm := false;
     backupConfig := defaultBackupConfig; backupHistory := [];
     alerts := []; downloads := [] |}.

(** ** Loading and saving *)

(** [{ ...patient, medications: patient.medications || [] }] *)
Definition normalize (patient : obj) : obj :=
  obj_set "medications" (orElse (prop "medications" patient) (JArr [])) patient.

(** [loadPatients(database)]: read all records, normalise, install. *)
Definition loadPatients (s : AppState) : AppState :=
  setPatients (normalize <$> getAll (idb s)) s.

(** [request.onsuccess] of [indexedDB.open]: keep the handle and load. *)
Definition openDatabase (s : AppState) : AppState :=
  loadPatients
    (mkAppState (idb s) true (patients s) (newPatient s) (editingId s)
       (selectedPatient s) (newMedication s) (showAddForm s) (backupConfig s)
       (backupHistory s) (alerts s) (downloads s)).

(** [savePatients(updatedPatients)]: clear the store and add every patient,
    in one read-write transaction.  The boolean tells whether a
    [store.add] threw, which the caller does not catch. *)
Definition savePatients (updatedPatients : list obj) (s : AppState)
  : AppState * bool :=
  if negb (db s) then (s, false)
  else
    let '(q, threw) := forEach_add (JObj <$> updatedPatients) in
    (setIdb (run_transaction (ReqClear :: q) (idb s)) s, threw).

(** The body of the [try] block of [restoreData] once [JSON.parse] has
    returned [data]. *)
Definition restoreParsed (data : json) (s : AppState) : AppState :=
  match data with
  | JArr vs =>
      let '(q, threw) := forEach_add vs in
      let s' := setIdb (run_transaction (ReqClear :: q) (idb s)) s in
      if threw
      then alert "Error restoring data. Please check the backup file format." s'
      else alert "Data restored successfully!" (loadPatients s')
  | _ =>
      (* [store.clear()] is queued, then [data.forEach] is not a function *)
      alert "Error restoring data. Please check the backup file format."
        (setIdb (run_transaction [ReqClear] (idb s)) s)
  end.

(** ** Patient and medication handlers that read no platform service *)

(** [editPatient(patient)] *)
Definition editPatient (patient : obj) (s : AppState) : AppState :=
  setShowAddForm true
    (setEditingId (prop "id" patient)
       (setNewPatient (normalize patient) s)).

(** [handlePatientClick(patient)] *)
Definition handlePatientClick (patient : obj) (s : AppState) : AppState :=
  setSelectedPatient (Some (normalize patient)) s.

(** The [updatedPatients] of the edit branch of [addPatient]. *)
Definition editedPatients (eid : json) (draft : obj) (ps : list obj) : list obj :=
  (λ p, if strict_eq (prop "id" p) (Some eid)
        then obj_set "medications" (orElse (prop "medications" p) (JArr []))
               (obj_set "id" eid draft)
        else p) <$> ps.

(** The [updatedPatients] of the add branch of [addPatient]. *)
Definition appendedPatients (now : Z) (draft : obj) (ps : list obj) : list obj :=
  ps ++ [obj_set "medications" (JArr []) (obj_set "id" (JStr (toString now)) draft)].

(** The guard of [addPatient]:
    [!newPatient.name || !newPatient.mobile || !newPatient.place]. *)
Definition draftIncomplete (draft : obj) : bool :=
  negb (truthyV (prop "name" draft))
  || negb (truthyV (prop "mobile" draft))
  || negb (truthyV (prop "place" draft)).

(** ** Backup settings handlers *)

(** [toggleAutomaticBackup()] *)
Definition toggleAutomaticBackup (now : Z) (s : AppState) : AppState :=
  setBackupConfig (toggleConfig now) s.

(** [updateBackupInterval(minutes)], called with
    [Number(e.target.value)]. *)
Definition updateBackupInterval (minutes : Z) (s : AppState) : AppState :=
  setBackupConfig (withInterval minutes) s.

(** [onChange] of the "Maximum Backups to Keep" input, with
    [Number(e.target.value)] = [n]. *)
Definition changeMaxBackups (n : Z) (s : AppState) : AppState :=
  setBackupConfig (withMaxBackups n) s.

(** [[...v]] in an array literal: the elements of an array, the characters
    of a string; anything else is not iterable ([None]: [TypeError]). *)
Definition spread (v : json) : option (list json) :=
  match v with
  | JArr l => Some l
  | JStr s => Some ((λ c, JStr (String c EmptyString)) <$> list_ascii_of_string s)
  | _ => None
  end.

(** ** Handlers that use the platform *)

Section Component.

(** [JSON.stringify(v, null, 2)] *)
Variable JSON_stringify : json → string.
(** [JSON.parse(text)]; [None] when it throws [SyntaxError]. *)
Variable JSON_parse : string → option json.
(** [new Date(t).toISOString().split('T')[0]] *)
Variable isoDate : Z → string.

(** [addPatient()], with [Date.now()] = [now]. *)
Definition addPatient (now : Z) (s : AppState) : AppState :=
  if draftIncomplete (newPatient s) then alert "Please fill all fields." s
  else
    let updatedPatients :=
      match editingId s with
      | Some eid =>
          if truthy eid then editedPatients eid (newPatient s) (patients s)
          else appendedPatients now (newPatient s) (patients s)
      | None => appendedPatients now (newPatient s) (patients s)
      end in
    let '(s1, threw) := savePatients updatedPatients (setPatients updatedPatients s) in
    if threw then s1
    else setShowAddForm false
           (setNewPatient (blankPatient (isoDate now))
              (setEditingId None s1)).

(** [addMedication()], with [Date.now()] = [now]. *)
Definition addMedication (now : Z) (s : AppState) : AppState :=
  match selectedPatient s with
  | None => s
  | Some sel =>
      if negb (truthyV (prop "description" (newMedication s)))
      then alert "Please enter medication description." s
      else
        let medicationWithId := obj_set "id" (JStr (toString now)) (newMedication s) in
        match spread (orElse (prop "medications" sel) (JArr [])) with
        | None => s
        | Some meds =>
            let updatedPatient :=
              obj_set "medications" (JArr (meds ++ [JObj medicationWithId])) sel in
            let updatedPatients :=
              (λ p, if strict_eq (prop "id" p) (prop "id" sel)
                    then updatedPatient else p) <$> patients s in
            let '(s1, threw) :=
              savePatients updatedPatients
                (setSelectedPatient (Some updatedPatient)
                   (setPatients updatedPatients s)) in
            if threw then s1
            else setNewMedication (blankMedication (isoDate now)) s1
        end
  end.

(** The snapshot text of a store: what an export serialises. *)
Definition exportSnapshot (s : Store) : string :=
  JSON_stringify (JArr (JObj <$> getAll s)).

(** [backupData()]; [timestamp] is the [Date.now()] read when the store
    has answered. *)
Definition backupData (timestamp : Z) (s : AppState) : AppState :=
  if negb (db s) then s
  else
    let data := getAll (idb s) in
    let filename := "patient-care-backup-" +:+ isoDate timestamp +:+ ".json" in
    let s1 := download filename (JSON_stringify (JArr (JObj <$> data))) s in
    let s2 :=
      setBackupHistory
        (newHistory (mkBackupEntry timestamp filename)
           (backupHistory s) (backupConfig s)) s1 in
    setBackupConfig (withLastBackup timestamp) s2.

(** [performAutomaticBackup()]: the same body, kept separate as in the
    component. *)
Definition performAutomaticBackup (timestamp : Z) (s : AppState) : AppState :=
  if negb (db s) then s
  else
    let data := getAll (idb s) in
    let filename := "patient-care-backup-" +:+ isoDate timestamp +:+ ".json" in
    let s1 := download filename (JSON_stringify (JArr (JObj <$> data))) s in
    let s2 :=
      setBackupHistory
        (newHistory (mkBackupEntry timestamp filename)
           (backupHistory s) (backupConfig s)) s1 in
    setBackupConfig (withLastBackup timestamp) s2.

(** [checkAndBackup()]: [now] is the clock at the tick, [timestamp] the
    clock when the export completes. *)
Definition checkAndBackup (now timestamp : Z) (s : AppState) : AppState :=
  if backupDue (backupConfig s) now
  then performAutomaticBackup timestamp s
  else s.

(** One firing of the one-minute timer; the timer exists only while
    [backupConfig.enabled]. *)
Definition pollTick (now timestamp : Z) (s : AppState) : AppState :=
  if enabled (backupConfig s) then checkAndBackup now timestamp s else s.

(** [restoreData(event)] for a chosen file whose contents are [text]. *)
Definition restoreData (text : string) (s : AppState) : AppState :=
  if negb (db s) then s
  else
    match JSON_parse text with
    | None =>
        alert "Error restoring data. Please check the backup file format." s
    | Some data => restoreParsed data s
    end.

End Component.

(** ** The localStorage variant of the component

    The same patient handlers over a single serialised item
    [localStorage['patients']]; no backup machinery and no [notes] field. *)

Module LS.

Record State : Type := mkState {
  storage : option string;   (* [localStorage.getItem('patients')] *)
  patients : list obj;
  newPatient : obj;
  editingId : option json;
  selectedPatient : option obj;
  showAddForm : bool;
  alerts : list string
}.

Definition blankPatient (today : string) : obj :=
  [("id", JStr ""); ("name", JStr ""); ("mobile", JStr "");
   ("place", JStr ""); ("visitedDate", JStr today);
   ("nextVisitDate", JStr ""); ("medications", JArr [])].

(** The own enumerable properties that [{ ...v }] copies. *)
Definition ownProps (v : json) : obj :=
  match v with
  | JObj o => o
  | JArr l => imap (λ i x, (pretty i, x)) l
  | JStr s =>
      imap (λ i c, (pretty i, JStr (String c EmptyString)))
        (list_ascii_of_string s)
  | _ => []
  end.

(** [{ ...patient, medications: patient.medications || [] }] for an
    arbitrary parsed element; reading a property of [null] throws. *)
Definition normalizeValue (v : json) : option obj :=
  match v with
  | JNull => None
  | JObj o => Some (normalize o)
  | _ => Some (obj_set "medications" (JArr []) (ownProps v))
  end.

Section Handlers.

Variable JSON_stringify : json → string.
Variable JSON_parse : string → option json.
Variable isoDate : Z → string.

(** The mount effect; [None] when it throws. *)
Definition loadSaved (s : State) : option State :=
  match storage s with
  | None => Some s
  | Some savedPatients =>
      if String.eqb savedPatients "" then Some s
      else
        match JSON_parse savedPatients with
        | Some (JArr parsedPatients) =>
            (λ ps, mkState (storage s) ps (newPatient s) (editingId s)
                     (selectedPatient s) (showAddForm s) (alerts s))
              <$> mapM normalizeValue parsedPatients
        | _ => None
        end
  end.

(** [setPatients(ps); localStorage.setItem('patients', JSON.stringify(ps))] *)
Definition install (ps : list obj) (s : State) : State :=
  mkState (Some (JSON_stringify (JArr (JObj <$> ps)))) ps
    (newPatient s) (editingId s) (selectedPatient s) (showAddForm s)
    (alerts s).

(** [setNewPatient(blank); setShowAddForm(false)] *)
Definition resetForm (today : string) (s : State) : State :=
  mkState (storage s) (patients s) (blankPatient today) (editingId s)
    (selectedPatient s) false (alerts s).

(** [addPatient()], with [Date.now()] = [now]. *)
Definition addPatient (now : Z) (s : State) : State :=
  if draftIncomplete (newPatient s)
  then mkState (storage s) (patients s) (newPatient s) (editingId s)
         (selectedPatient s) (showAddForm s)
         ("Please fill all fields." :: alerts s)
  else
    let edit :=
      match editingId s with
      | Some eid => if truthy eid then Some eid else None
      | None => None
      end in
    match edit with
    | Some eid =>
        let s1 := install (editedPatients eid (newPatient s) (patients s)) s in
        resetForm (isoDate now)
          (mkState (storage s1) (patients s1) (newPatient s1) None
             (selectedPatient s1) (showAddForm s1) (alerts s1))
    | None =>
        resetForm (isoDate now)
          (install (appendedPatients now (newPatient s) (patients s)) s)
    end.

End Handlers.

End LS.

(** ** A reference platform

    Executable instances of the three platform services on the fragment of
    JSON the model speaks (integers, byte strings), to run the handlers on
    concrete inputs.  The parser rejects numbers with a fraction or an
    exponent and [\u] escapes beyond one byte. *)

Module RefPlatform.

Local Open Scope char_scope.
Local Open Scope list_scope.

Definition dquote : ascii := "034".
Definition backslash : ascii := "092".
Definition newline : ascii := "010".

Definition hexDigit (n : N) : ascii :=
  ascii_of_N (if (n <? 10)%N then 48 + n else 87 + n).

(** JSON string quoting. *)
Definition quoteChar (c : ascii) : list ascii :=
  let n := N_of_ascii c in
  if (n =? 34)%N then [backslash; dquote]
  else if (n =? 92)%N then [backslash; backslash]
  else if (n =? 8)%N then [backslash; "b"]
  else if (n =? 12)%N then [backslash; "f"]
  else if (n =? 10)%N then [backslash; "n"]
  else if (n =? 13)%N then [backslash; "r"]
  else if (n =? 9)%N then [backslash; "t"]
  else if (n <? 32)%N
       then [backslash; "u"; "0"; "0"; hexDigit (n / 16); hexDigit (n mod 16)]
  else [c].

Definition quote (s : string) : list ascii :=
  dquote :: (list_ascii_of_string s ≫= quoteChar) ++ [dquote].

Definition indentation (depth : nat) : list ascii :=
  replicate (2 * depth) " ".

(** [items] joined by [",\n" + indent] between ["\n" + indent] and
    ["\n" + stepback]. *)
Fixpoint joinLines (depth : nat) (items : list (list ascii)) : list ascii :=
  match items with
  | [] => []
  | [x] => x
  | x :: rest => x ++ "," :: newline :: indentation depth ++ joinLines depth rest
  end.

Definition block (opening closing : ascii) (depth : nat)
    (items : list (list ascii)) : list ascii :=
  match items with
  | [] => [opening; closing]
  | _ =>
      opening :: newline :: indentation (S depth) ++ joinLines (S depth) items
        ++ newline :: indentation depth ++ [closing]
  end.

Fixpoint render (depth : nat) (v : json) : list ascii :=
  match v with
  | JNull => list_ascii_of_string "null"
  | JBool true => list_ascii_of_string "true"
  | JBool false => list_ascii_of_string "false"
  | JNum n => list_ascii_of_string (pretty n)
  | JStr s => quote s
  | JArr l => block "[" "]" depth (map (render (S depth)) l)
  | JObj o =>
      block "{" "}" depth
        (map (λ kv : string * json,
                quote kv.1 ++ ":" :: " " :: render (S depth) kv.2) o)
  end.

(** [JSON.stringify(v, null, 2)] *)
Definition stringify (v : json) : string :=
  string_of_list_ascii (render 0 v).

Definition isWs (c : ascii) : bool :=
  let n := N_of_ascii c in
  (n =? 32)%N || (n =? 9)%N || (n =? 10)%N || (n =? 13)%N.

Fixpoint skipWs (s : list ascii) : list ascii :=
  match s with
  | c :: r => if isWs c then skipWs r else s
  | [] => []
  end.

Definition digitOf (c : ascii) : option Z :=
  let n := N_of_ascii c in
  if (48 <=? n)%N && (n <=? 57)%N then Some (Z.of_N n - 48)%Z else None.

Definition hexOf (c : ascii) : option N :=
  let n := N_of_ascii c in
  if (48 <=? n)%N && (n <=? 57)%N then Some (n - 48)%N
  else if (97 <=? n)%N && (n <=? 102)%N then Some (n - 87)%N
  else if (65 <=? n)%N && (n <=? 70)%N then Some (n - 55)%N
  else None.

(** The digits of a number after its first one. *)
Fixpoint digits (acc : Z) (s : list ascii) : Z * list ascii :=
  match s with
  | c :: r =>
      match digitOf c with
      | Some d => digits (10 * acc + d)%Z r
      | None => (acc, s)
      end
  | [] => (acc, [])
  end.

Definition noFraction (s : list ascii) : bool :=
  match s with
  | c :: _ =>
      let n := N_of_ascii c in
      negb ((n =? 46)%N || (n =? 101)%N || (n =? 69)%N)
  | [] => true
  end.

(** The value of an unsigned integer and what follows it; a leading zero
    stands alone. *)
Definition leading (s : list ascii) : option (Z * list ascii) :=
  match s with
  | c :: r =>
      match digitOf c with
      | Some d =>
          if (d =? 0)%Z then
            match r with
            | c' :: _ =>
                match digitOf c' with
                | Some _ => None
                | None => Some (0%Z, r)
                end
            | [] => Some (0%Z, r)
            end
          else Some (digits d r)
      | None => None
      end
  | [] => None
  end.

(** An unsigned integer, not followed by a fraction or an exponent. *)
Definition natural (s : list ascii) : option (Z * list ascii) :=
  '(n, rest) ← leading s;
  if noFraction rest then Some (n, rest) else None.

(** The characters of a string literal after its opening quote. *)
Fixpoint stringBody (s : list ascii) : option (list ascii * list ascii) :=
  match s with
  | [] => None
  | c :: r =>
      let n := N_of_ascii c in
      if (n =? 34)%N then Some ([], r)
      else if (n =? 92)%N then
        match r with
        | "u" :: a :: b :: c1 :: c2 :: r' =>
            match hexOf a, hexOf b, hexOf c1, hexOf c2 with
            | Some 0%N, Some 0%N, Some h, Some l =>
                if (h <? 8)%N then
                  '(cs, rest) ← stringBody r';
                  Some (ascii_of_N (16 * h + l) :: cs, rest)
                else None
            | _, _, _, _ => None
            end
        | e :: r' =>
            let m := N_of_ascii e in
            let plain :=
              if (m =? 34)%N then Some dquote
              else if (m =? 92)%N then Some backslash
              else if (m =? 47)%N then Some "/"
              else if (m =? 98)%N then Some "008"
              else if (m =? 102)%N then Some "012"
              else if (m =? 110)%N then Some newline
              else if (m =? 114)%N then Some "013"
              else if (m =? 116)%N then Some "009"
              else None in
            match plain with
            | Some x => '(cs, rest) ← stringBody r'; Some (x :: cs, rest)
            | None => None
            end
        | [] => None
        end
      else if (n <? 32)%N then None
      else '(cs, rest) ← stringBody r; Some (c :: cs, rest)
  end.

Fixpoint value (fuel : nat) (s : list ascii) : option (json * list ascii) :=
  match fuel with
  | O => None
  | S f =>
      match skipWs s with
      | "n" :: "u" :: "l" :: "l" :: r => Some (JNull, r)
      | "t" :: "r" :: "u" :: "e" :: r => Some (JBool true, r)
      | "f" :: "a" :: "l" :: "s" :: "e" :: r => Some (JBool false, r)
      | "[" :: r =>
          match skipWs r with
          | "]" :: r' => Some (JArr [], r')
          | _ => '(vs, rest) ← elements f r; Some (JArr vs, rest)
          end
      | "{" :: r =>
          match skipWs r with
          | "}" :: r' => Some (JObj [], r')
          | _ => '(kvs, rest) ← members f r; Some (JObj kvs, rest)
          end
      | "-" :: r => '(n, rest) ← natural r; Some (JNum (- n), rest)
      | c :: r =>
          if (N_of_ascii c =? 34)%N
          then '(cs, rest) ← stringBody r;
               Some (JStr (string_of_list_ascii cs), rest)
          else '(n, rest) ← natural (c :: r); Some (JNum n, rest)
      | [] => None
      end
  end
with elements (fuel : nat) (s : list ascii)
    : option (list json * list ascii) :=
  match fuel with
  | O => None
  | S f =>
      '(v, rest) ← value f s;
      match skipWs rest with
      | "," :: r => '(vs, rest') ← elements f r; Some (v :: vs, rest')
      | "]" :: r => Some ([v], r)
      | _ => None
      end
  end
with members (fuel : nat) (s : list ascii)
    : option (list (string * json) * list ascii) :=
  match fuel with
  | O => None
  | S f =>
      match skipWs s with
      | c :: r =>
          if (N_of_ascii c =? 34)%N then
            '(cs, rest) ← stringBody r;
            match skipWs rest with
            | ":" :: r1 =>
                '(v, rest1) ← value f r1;
                let k := string_of_list_ascii cs in
                match skipWs rest1 with
                | "," :: r2 =>
                    '(kvs, rest2) ← members f r2;
                    Some ((k, v) :: kvs, rest2)
                | "}" :: r2 => Some ([(k, v)], r2)
                | _ => None
                end
            | _ => None
            end
          else None
      | [] => None
      end
  end.

(** [acc] with the properties of [o] written into it, in order. *)
Fixpoint insertAll (o acc : obj) : obj :=
  match o with
  | [] => acc
  | (k, x) :: o' => insertAll o' (obj_set k x acc)
  end.

(** A later duplicate of a property name wins, at the place of the
    first. *)
Fixpoint dedup (v : json) : json :=
  match v with
  | JArr l => JArr (map dedup l)
  | JObj o =>
      JObj (insertAll (map (λ kv : string * json, (kv.1, dedup kv.2)) o) [])
  | _ => v
  end.

(** [JSON.parse(text)] *)
Definition parse (text : string) : option json :=
  let s := list_ascii_of_string text in
  match value (S (length s)) s with
  | Some (v, rest) =>
      match skipWs rest with
      | [] => Some (dedup v)
      | _ => None
      end
  | None => None
  end.

Definition pad (width : nat) (n : Z) : string :=
  let s := pretty n in
  string_of_list_ascii (replicate (width - String.length s) "0") +:+ s.

(** The calendar date of the day that contains the instant [t]
    (milliseconds since the epoch, UTC), as [toISOString] prints it. *)
Definition isoDate (t : Z) : string :=
  let z := (t / 86400000 + 719468)%Z in
  let era := (z / 146097)%Z in
  let doe := (z - era * 146097)%Z in
  let yoe := ((doe - doe / 1460 + doe / 36524 - doe / 146096) / 365)%Z in
  let doy := (doe - (365 * yoe + yoe / 4 - yoe / 100))%Z in
  let mp := ((5 * doy + 2) / 153)%Z in
  let d := (doy - (153 * mp + 2) / 5 + 1)%Z in
  let m := (if (mp <? 10)%Z then mp + 3 else mp - 9)%Z in
  let y := (yoe + era * 400 + (if (m <=? 2)%Z then 1 else 0))%Z in
  let year :=
    if (0 <=? y)%Z && (y <=? 9999)%Z then pad 4 y
    else if (y <? 0)%Z then "-" +:+ pad 6 (- y)
    else "+" +:+ pad 6 y in
  year +:+ "-" +:+ pad 2 m +:+ "-" +:+ pad 2 d.

(** *** Measures for reasoning about the codec *)

(** What may follow a number. *)
Definition closed (rest : list ascii) : Prop :=
  match rest with
  | [] => True
  | c :: _ => digitOf c = None ∧ noFraction rest = true
  end.

(** The characters a rendered value can start with. *)
Definition headChars : list ascii :=
  ["n"; "t"; "f"; "-"; dquote; "["; "{";
   "0"; "1"; "2"; "3"; "4"; "5"; "6"; "7"; "8"; "9"].

(** Fuel that suffices to read a value back. *)
Fixpoint weight (v : json) : nat :=
  match v with
  | JArr l =>
      S ((fix go (l : list json) : nat :=
            match l with
            | [] => O
            | x :: l' => S (weight x + go l')
            end) l)
  | JObj o =>
      S ((fix go (o : obj) : nat :=
            match o with
            | [] => O
            | (_, x) :: o' => S (weight x + go o')
            end) o)
  | _ => 1
  end.

Fixpoint itemsWeight (l : list json) : nat :=
  match l with
  | [] => O
  | x :: l' => S (weight x + itemsWeight l')
  end.

Fixpoint membersWeight (o : obj) : nat :=
  match o with
  | [] => O
  | (_, x) :: o' => S (weight x + membersWeight o')
  end.

(** Objects without repeated property names, all the way down. *)
Fixpoint json_wf (v : json) : Prop :=
  match v with
  | JArr l =>
      (fix go (l : list json) : Prop :=
         match l with
         | [] => True
         | x :: l' => json_wf x ∧ go l'
         end) l
  | JObj o =>
      NoDup o.*1
      ∧ (fix go (o : obj) : Prop :=
           match o with
           | [] => True
           | (_, x) :: o' => json_wf x ∧ go o'
           end) o
  | _ => True
  end.

End RefPlatform.

(** ** Traces of user actions *)

(** A backup, from the "Backup" button or from the timer; the payload is the
    clock read when it completes. *)
Inductive backupEvent : Type :=
  | Manual : Z → backupEvent
  | Automatic : Z → backupEvent.

Definition eventTime (e : backupEvent) : Z :=
  match e with Manual t | Automatic t => t end.

(** The actions that add to the collection. *)
Inductive addOp : Type :=
  | OpAddPatient : obj → Z → addOp      (* fill the patient form, submit *)
  | OpSelect : nat → addOp              (* click the i-th patient *)
  | OpAddMedication : obj → Z → addOp.  (* fill the medication form, add *)

(** The clock values read along a trace, oldest first. *)
Definition opTimes (ops : list addOp) : list Z :=
  ops ≫= λ op,
    match op with
    | OpAddPatient _ t | OpAddMedication _ t => [t]
    | OpSelect _ => []
    end.

Section Traces.

Variable JSON_stringify : json → string.
Variable isoDate : Z → string.

Definition backupStep (s : AppState) (e : backupEvent) : AppState :=
  match e with
  | Manual t => backupData JSON_stringify isoDate t s
  | Automatic t => performAutomaticBackup JSON_stringify isoDate t s
  end.

Definition runBackups (evs : list backupEvent) (s : AppState) : AppState :=
  foldl backupStep s evs.

(** The history entry a backup event writes. *)
Definition entryOf (e : backupEvent) : BackupEntry :=
  mkBackupEntry (eventTime e)
    ("patient-care-backup-" +:+ isoDate (eventTime e) +:+ ".json").

Definition addStep (s : AppState) (op : addOp) : AppState :=
  match op with
  | OpAddPatient draft now => addPatient isoDate now (setNewPatient draft s)
  | OpSelect i =>
      match patients s !! i with
      | Some p => handlePatientClick p s
      | None => s
      end
  | OpAddMedication draft now =>
      addMedication isoDate now (setNewMedication draft s)
  end.

Definition runAdds (ops : list addOp) (s : AppState) : AppState :=
  foldl addStep s ops.

End Traces.

(** The ids of a collection, and of the medications of one patient. *)
Definition patientIds (ps : list obj) : list (option json) :=
  prop "id" <$> ps.

Definition medicationId (m : json) : option json :=
  match m with
  | JObj o => prop "id" o
  | _ => None
  end.

Definition medicationIds (p : obj) : list (option json) :=
  match prop "medications" p with
  | Some (JArr ms) => medicationId <$> ms
  | _ => []
  end.

(** A present, non-empty string. *)
Definition nonEmptyId (i : option json) : Prop :=
  ∃ s, i = Some (JStr s) ∧ s ≠ "".

(** An id minted from a clock value below [b]. *)
Definition stampedBelow (b : Z) (i : option json) : Prop :=
  ∃ t, t < b ∧ i = Some (JStr (toString t)).

(** A patient whose medications are an array of entries with distinct ids
    minted below [b]. *)
Definition medsBelow (b : Z) (p : obj) : Prop :=
  ∃ ms, prop "medications" p = Some (JArr ms)
        ∧ Forall (λ m, stampedBelow b (medicationId m)) ms
        ∧ NoDup (medicationId <$> ms).

(** What the add actions maintain, [b] bounding the clock values used so
    far. *)
Definition addInv (b : Z) (s : AppState) : Prop :=
  editingId s = None
  ∧ Forall (stampedBelow b) (patientIds (patients s))
  ∧ NoDup (patientIds (patients s))
  ∧ Forall (medsBelow b) (patients s)
  ∧ (∀ sel, selectedPatient s = Some sel → medsBelow b sel).

(** Every clock value is at least [b] and later than the one before. *)
Fixpoint clockFrom (b : Z) (ts : list Z) : Prop :=
  match ts with
  | [] => True
  | t :: ts' => b ≤ t ∧ clockFrom (t + 1) ts'
  end.

(** ** Sample data *)

Module Sample.

(** A current-schema record with one medication. *)
Definition asha : obj :=
  [("id", JStr "1700000000000"); ("name", JStr "Asha");
   ("mobile", JStr "9999999999"); ("place", JStr "Kochi");
   ("visitedDate", JStr "2023-11-14"); ("nextVisitDate", JStr "");
   ("medications",
    JArr [JObj [("id", JStr "1700000000500");
                ("description", JStr "Ashwagandha 500mg");
                ("date", JStr "2023-11-14")]]);
   ("notes", JStr "")].

(** A record written by an earlier schema: no medications, no notes. *)
Definition ravi : obj :=
  [("id", JStr "1600000000000"); ("name", JStr "Ravi");
   ("mobile", JStr "8888888888"); ("place", JStr "Kollam");
   ("visitedDate", JStr "2020-09-13"); ("nextVisitDate", JStr "")].

Definition store : Store :=
  <[KStr "1700000000000" := asha]> (<[KStr "1600000000000" := ravi]> ∅).

(** A session over [store] with its database open. *)
Definition session : AppState := openDatabase (mountState "2023-11-14" store).

(** A session over an empty store. *)
Definition fresh : AppState := openDatabase (mountState "2023-11-14" ∅).

(** The edit form for [asha] with a new name and the medications
    emptied. *)
Definition ashaDraft : obj :=
  obj_set "name" (JStr "Asha K") (obj_set "medications" (JArr []) asha).

Definition editing : AppState :=
  setEditingId (Some (JStr "1700000000000")) (setNewPatient ashaDraft session).

Definition lsEditing : LS.State :=
  LS.mkState None (patients session) ashaDraft
    (Some (JStr "1700000000000")) None true [].

Definition lsBlank : LS.State :=
  LS.mkState None [] (LS.blankPatient "2023-11-14") None None false [].

(** A localStorage item written by the earlier schema, before and after
    the mount effect. *)
Definition lsLegacy : LS.State :=
  LS.mkState (Some (RefPlatform.stringify (JArr [JObj ravi]))) []
    (LS.blankPatient "2023-11-14") None None false [].

Definition lsLegacyLoaded : LS.State :=
  LS.mkState (Some (RefPlatform.stringify (JArr [JObj ravi])))
    [normalize ravi] (LS.blankPatient "2023-11-14") None None false [].

(** An armed scheduler: interval one minute, enabled at 1700000000000. *)
Definition armed : AppState :=
  toggleAutomaticBackup 1700000000000 (updateBackupInterval 1 session).

Definition patientDraft (name : string) : obj :=
  obj_set "place" (JStr "Kochi")
    (obj_set "mobile" (JStr "9999999999")
       (obj_set "name" (JStr name) (blankPatient "2023-11-14"))).

Definition medicationDraft : obj :=
  obj_set "description" (JStr "Ashwagandha 500mg")
    (blankMedication "2023-11-14").

(** A snapshot whose second element is not a record. *)
Definition brokenSnapshot : string :=
  RefPlatform.stringify (JArr [JObj [("id", JStr "1"); ("name", JStr "Meera")]; JNum 5]).

End Sample.

(** ** The remaining handlers of the IndexedDB variant *)

(** [selectedPatient?.id] *)
Definition selectedId (s : AppState) : option json :=
  selectedPatient s ≫= prop "id".

(** [deletePatient(patientId)]; [confirmed] is the answer of
    [window.confirm]. *)
Definition deletePatient (patientId : option json) (confirmed : bool)
    (s : AppState) : AppState :=
  if confirmed then
    let updatedPatients :=
      filter (λ p, strict_eq (prop "id" p) patientId = false) (patients s) in
    let '(s1, threw) :=
      savePatients updatedPatients (setPatients updatedPatients s) in
    if threw then s1
    else if strict_eq (selectedId s) patientId
         then setSelectedPatient None s1
         else s1
  else s.

(** [m.id] for an element [m] of a medications array; reading a property of
    [null] throws ([None]). *)
Definition memberId (m : json) : option (option json) :=
  match m with
  | JNull => None
  | JObj o => Some (prop "id" o)
  | _ => Some None
  end.

(** [ms.filter(m => m.id !== medicationId)]; [None] when the callback
    throws. *)
Fixpoint withoutMedication (medicationId : option json) (ms : list json)
  : option (list json) :=
  match ms with
  | [] => Some []
  | m :: ms' =>
      match memberId m with
      | None => None
      | Some i =>
          rest ← withoutMedication medicationId ms';
          Some (if strict_eq i medicationId then rest else m :: rest)
      end
  end.

(** [{ ...p, medications: p.medications.filter(m => m.id !== medicationId) }];
    [None] when [p.medications] is not an array or the callback throws. *)
Definition dropMedication (medicationId : option json) (p : obj) : option obj :=
  match prop "medications" p with
  | Some (JArr ms) =>
      (λ ms', obj_set "medications" (JArr ms') p)
        <$> withoutMedication medicationId ms
  | _ => None
  end.

(** [deleteMedication(patientId, medicationId)]; [confirmed] is the answer
    of [window.confirm]. *)
Definition deleteMedication (patientId medicationId : option json)
    (confirmed : bool) (s : AppState) : AppState :=
  if confirmed then
    match mapM (λ p, if strict_eq (prop "id" p) patientId
                     then dropMedication medicationId p
                     else Some p) (patients s) with
    | None => s
    | Some updatedPatients =>
        let '(s1, threw) :=
          savePatients updatedPatients (setPatients updatedPatients s) in
        if threw then s1
        else if strict_eq (selectedId s) patientId then
          match selectedPatient s ≫= dropMedication medicationId with
          | Some sel' => setSelectedPatient (Some sel') s1
          | None => s1
          end
        else s1
    end
  else s.

(** [updateNextVisitDate(date)] *)
Definition updateNextVisitDate (date : string) (s : AppState) : AppState :=
  match selectedPatient s with
  | None => s
  | Some sel =>
      let updatedPatient := obj_set "nextVisitDate" (JStr date) sel in
      let updatedPatients :=
        (λ p, if strict_eq (prop "id" p) (prop "id" sel)
              then updatedPatient else p) <$> patients s in
      (savePatients updatedPatients
         (setSelectedPatient (Some updatedPatient)
            (setPatients updatedPatients s))).1
  end.

(** The inputs of the patient form and of the medication form. *)
Inductive patientField : Type :=
  | FName | FMobile | FPlace | FVisitedDate | FNotes.

Inductive medicationField : Type :=
  | FDescription | FDate.

Definition patientFieldName (f : patientField) : string :=
  match f with
  | FName => "name"
  | FMobile => "mobile"
  | FPlace => "place"
  | FVisitedDate => "visitedDate"
  | FNotes => "notes"
  end.

Definition medicationFieldName (f : medicationField) : string :=
  match f with
  | FDescription => "description"
  | FDate => "date"
  end.

(** [onChange] of a patient form input:
    [setNewPatient({...newPatient, field: e.target.value})]. *)
Definition changePatientField (f : patientField) (v : string) (s : AppState)
  : AppState :=
  setNewPatient (obj_set (patientFieldName f) (JStr v) (newPatient s)) s.

(** [onChange] of a medication form input. *)
Definition changeMedicationField (f : medicationField) (v : string)
    (s : AppState) : AppState :=
  setNewMedication (obj_set (medicationFieldName f) (JStr v) (newMedication s)) s.

(** What the user can do to the collection.  The list shown is the
    collection filtered by the search box, so every list button acts on
    the patient at some position of the collection; medication buttons
    act on a position of the selected patient's medications. *)
Inductive action : Type :=
  | ATypePatient : patientField → string → action
  | ASubmit : Z → action                  (* addPatient *)
  | AEdit : nat → action                  (* editPatient(patient) *)
  | ACancelEdit : Z → action
  | ADelete : nat → bool → action         (* deletePatient(patient.id) *)
  | ASelect : nat → action                (* handlePatientClick(patient) *)
  | AClose : action                       (* setSelectedPatient(null) *)
  | ATypeMedication : medicationField → string → action
  | AAddMedication : Z → action
  | ADeleteMedication : nat → bool → action
  | ASetNextVisit : string → action.

(** The clock values from which ids can be minted along a trace. *)
Definition actionStamps (acts : list action) : list Z :=
  acts ≫= λ a,
    match a with
    | ASubmit t | AAddMedication t => [t]
    | _ => []
    end.

Section Actions.

Variable isoDate : Z → string.

(** [cancelEdit()] *)
Definition cancelEdit (now : Z) (s : AppState) : AppState :=
  setNewPatient (blankPatient (isoDate now))
    (setShowAddForm false (setEditingId None s)).

(** The [deleteMedication(selectedPatient.id, med.id)] of the [j]-th row of
    [(selectedPatient.medications || []).map(...)]. *)
Definition deleteMedicationRow (j : nat) (confirmed : bool) (s : AppState)
  : AppState :=
  match selectedPatient s with
  | None => s
  | Some sel =>
      match orElse (prop "medications" sel) (JArr []) with
      | JArr ms =>
          match ms !! j ≫= memberId with
          | Some mid => deleteMedication (prop "id" sel) mid confirmed s
          | None => s
          end
      | _ => s
      end
  end.

Definition act (s : AppState) (a : action) : AppState :=
  match a with
  | ATypePatient f v => changePatientField f v s
  | ASubmit now => addPatient isoDate now s
  | AEdit i =>
      match patients s !! i with
      | Some p => editPatient p s
      | None => s
      end
  | ACancelEdit now => cancelEdit now s
  | ADelete i confirmed =>
      match patients s !! i with
      | Some p => deletePatient (prop "id" p) confirmed s
      | None => s
      end
  | ASelect i =>
      match patients s !! i with
      | Some p => handlePatientClick p s
      | None => s
      end
  | AClose => setSelectedPatient None s
  | ATypeMedication f v => changeMedicationField f v s
  | AAddMedication now => addMedication isoDate now s
  | ADeleteMedication j confirmed => deleteMedicationRow j confirmed s
  | ASetNextVisit date => updateNextVisitDate date s
  end.

Definition runActions (acts : list action) (s : AppState) : AppState :=
  foldl act s acts.

End Actions.

(** ** Polling over time *)

Section Polling.

Variable JSON_stringify : json → string.
Variable isoDate : Z → string.

(** Successive firings of the timer: the clock at each tick and at the
    completion of the export it may start. *)
Definition runTicks (ticks : list (Z * Z)) (s : AppState) : AppState :=
  foldl (λ s t, pollTick JSON_stringify isoDate t.1 t.2 s) s ticks.

(** The interval timer of the scheduling effect.  The effect depends on
    [backupConfig] and [performAutomaticBackup]: it creates the timer when
    it runs, and runs again, clearing the timer and creating a new one,
    whenever an export has updated the configuration and the history.
    [timerRun n armedAt delay s] lets the timer fire [n] times: each firing
    comes one minute after the last firing or creation, [armedAt]; an
    export completes [delay] milliseconds after the firing that started
    it, and the timer is created anew then. *)
Fixpoint timerRun (n : nat) (armedAt delay : Z) (s : AppState) : AppState * Z :=
  match n with
  | O => (s, armedAt)
  | S n' =>
      let now := armedAt + 60000 in
      let exports :=
        enabled (backupConfig s) && backupDue (backupConfig s) now && db s in
      timerRun n' (if exports then now + delay else now) delay
        (pollTick JSON_stringify isoDate now (now + delay) s)
  end.

End Polling.

(** ** Memory and store side by side *)

(** The patients under their keys; [None] when one has no valid key. *)
Definition keyed (ps : list obj) : option (list (idb_key * obj)) :=
  mapM (λ p, (λ k, (k, p)) <$> extract_key p) ps.

(** The store holds exactly the patients in memory, each under the key of
    its own id, and no two share a key. *)
Definition mirrored (s : AppState) : Prop :=
  ∃ l, keyed (patients s) = Some l ∧ NoDup l.*1 ∧ idb s = list_to_map l.

(** What every action maintains, [b] bounding the clock values used so
    far. *)
Definition actInv (b : Z) (s : AppState) : Prop :=
  db s = true
  ∧ Forall (stampedBelow b) (patientIds (patients s))
  ∧ NoDup (patientIds (patients s))
  ∧ Forall (medsBelow b) (patients s)
  ∧ (∀ sel, selectedPatient s = Some sel → medsBelow b sel)
  ∧ mirrored s.

(** The id a key stands for. *)
Definition idOfKey (k : idb_key) : option json :=
  match k with
  | KStr x => Some (JStr x)
  | _ => None
  end.

(** ** The remaining handlers of the localStorage variant *)

Module LSPage.

(** The component state together with the medication form, which the
    localStorage variant keeps in a [useState] of its own. *)
Record Session : Type := mkSession {
  page : LS.State;
  newMedication : obj
}.

(** The blank medication form. *)
Definition blankMedication : obj :=
  [("id", JStr ""); ("name", JStr ""); ("dosage", JStr "");
   ("frequency", JStr ""); ("duration", JStr ""); ("notes", JStr "");
   ("type", JStr "Ayurvedic")].

Definition setSelectedPatient (sel : option obj) (s : LS.State) : LS.State :=
  LS.mkState (LS.storage s) (LS.patients s) (LS.newPatient s) (LS.editingId s)
    sel (LS.showAddForm s) (LS.alerts s).

Definition setNewPatient (p : obj) (s : LS.State) : LS.State :=
  LS.mkState (LS.storage s) (LS.patients s) p (LS.editingId s)
    (LS.selectedPatient s) (LS.showAddForm s) (LS.alerts s).

(** [editPatient(patient)] *)
Definition editPatient (patient : obj) (s : LS.State) : LS.State :=
  LS.mkState (LS.storage s) (LS.patients s) (normalize patient)
    (prop "id" patient) (LS.selectedPatient s) true (LS.alerts s).

(** [handlePatientClick(patient)] *)
Definition handlePatientClick (patient : obj) (s : LS.State) : LS.State :=
  setSelectedPatient (Some (normalize patient)) s.

(** The guard of [addMedication]:
    [!newMedication.name || !newMedication.dosage || !newMedication.frequency]. *)
Definition medicationIncomplete (m : obj) : bool :=
  negb (truthyV (prop "name" m))
  || negb (truthyV (prop "dosage" m))
  || negb (truthyV (prop "frequency" m)).

(** The inputs of the two forms. *)
Inductive patientField : Type :=
  | FName | FMobile | FPlace | FVisitedDate.

Inductive medicationField : Type :=
  | MName | MType | MDosage | MFrequency | MDuration | MNotes.

Definition patientFieldName (f : patientField) : string :=
  match f with
  | FName => "name"
  | FMobile => "mobile"
  | FPlace => "place"
  | FVisitedDate => "visitedDate"
  end.

Definition medicationFieldName (f : medicationField) : string :=
  match f with
  | MName => "name"
  | MType => "type"
  | MDosage => "dosage"
  | MFrequency => "frequency"
  | MDuration => "duration"
  | MNotes => "notes"
  end.

(** What the user can do to the collection; rows as in the IndexedDB
    variant. *)
Inductive action : Type :=
  | ATypePatient : patientField → string → action
  | ASubmit : Z → action
  | AEdit : nat → action
  | ACancelEdit : Z → action
  | ADelete : nat → bool → action
  | ASelect : nat → action
  | AClose : action
  | ATypeMedication : medicationField → string → action
  | AAddMedication : Z → action
  | ADeleteMedication : nat → bool → action
  | ASetNextVisit : string → action.

Section Handlers.

Variable JSON_stringify : json → string.
Variable isoDate : Z → string.

(** [deletePatient(patientId)]; [confirmed] is the answer of
    [window.confirm]. *)
Definition deletePatient (patientId : option json) (confirmed : bool)
    (s : LS.State) : LS.State :=
  if confirmed then
    let updatedPatients :=
      filter (λ p, strict_eq (prop "id" p) patientId = false) (LS.patients s) in
    let s1 := LS.install JSON_stringify updatedPatients s in
    if strict_eq (LS.selectedPatient s ≫= prop "id") patientId
    then setSelectedPatient None s1
    else s1
  else s.

(** [deleteMedication(patientId, medicationId)] *)
Definition deleteMedication (patientId medicationId : option json)
    (confirmed : bool) (s : LS.State) : LS.State :=
  if confirmed then
    match mapM (λ p, if strict_eq (prop "id" p) patientId
                     then dropMedication medicationId p
                     else Some p) (LS.patients s) with
    | None => s
    | Some updatedPatients =>
        let s1 := LS.install JSON_stringify updatedPatients s in
        if strict_eq (LS.selectedPatient s ≫= prop "id") patientId then
          match LS.selectedPatient s ≫= dropMedication medicationId with
          | Some sel' => setSelectedPatient (Some sel') s1
          | None => s1
          end
        else s1
    end
  else s.

(** [cancelEdit()] *)
Definition cancelEdit (now : Z) (s : LS.State) : LS.State :=
  LS.mkState (LS.storage s) (LS.patients s) (LS.blankPatient (isoDate now))
    None (LS.selectedPatient s) false (LS.alerts s).

(** [addMedication()], with [Date.now()] = [now]. *)
Definition addMedication (now : Z) (s : Session) : Session :=
  match LS.selectedPatient (page s) with
  | None => s
  | Some sel =>
      if medicationIncomplete (newMedication s)
      then mkSession
             (LS.mkState (LS.storage (page s)) (LS.patients (page s))
                (LS.newPatient (page s)) (LS.editingId (page s))
                (LS.selectedPatient (page s)) (LS.showAddForm (page s))
                ("Please fill all required medication fields."
                   :: LS.alerts (page s)))
             (newMedication s)
      else
        let medicationWithId := obj_set "id" (JStr (toString now)) (newMedication s) in
        match spread (orElse (prop "medications" sel) (JArr [])) with
        | None => s
        | Some meds =>
            let updatedPatient :=
              obj_set "medications" (JArr (meds ++ [JObj medicationWithId])) sel in
            let updatedPatients :=
              (λ p, if strict_eq (prop "id" p) (prop "id" sel)
                    then updatedPatient else p) <$> LS.patients (page s) in
            mkSession
              (LS.install JSON_stringify updatedPatients
                 (setSelectedPatient (Some updatedPatient) (page s)))
              blankMedication
        end
  end.

(** [updateNextVisitDate(date)] *)
Definition updateNextVisitDate (date : string) (s : LS.State) : LS.State :=
  match LS.selectedPatient s with
  | None => s
  | Some sel =>
      let updatedPatient := obj_set "nextVisitDate" (JStr date) sel in
      let updatedPatients :=
        (λ p, if strict_eq (prop "id" p) (prop "id" sel)
              then updatedPatient else p) <$> LS.patients s in
      LS.install JSON_stringify updatedPatients
        (setSelectedPatient (Some updatedPatient) s)
  end.

(** The [deleteMedication(selectedPatient.id, med.id)] of the [j]-th row of
    [(selectedPatient.medications || []).map(...)]. *)
Definition deleteMedicationRow (j : nat) (confirmed : bool) (s : LS.State)
  : LS.State :=
  match LS.selectedPatient s with
  | None => s
  | Some sel =>
      match orElse (prop "medications" sel) (JArr []) with
      | JArr ms =>
          match ms !! j ≫= memberId with
          | Some mid => deleteMedication (prop "id" sel) mid confirmed s
          | None => s
          end
      | _ => s
      end
  end.

(** A handler that leaves the medication form alone. *)
Definition onPage (f : LS.State → LS.State) (s : Session) : Session :=
  mkSession (f (page s)) (newMedication s).

Definition act (s : Session) (a : action) : Session :=
  match a with
  | ATypePatient f v =>
      onPage (λ p, setNewPatient
                     (obj_set (patientFieldName f) (JStr v) (LS.newPatient p)) p) s
  | ASubmit now => onPage (LS.addPatient JSON_stringify isoDate now) s
  | AEdit i =>
      match LS.patients (page s) !! i with
      | Some p => onPage (editPatient p) s
      | None => s
      end
  | ACancelEdit now => onPage (cancelEdit now) s
  | ADelete i confirmed =>
      match LS.patients (page s) !! i with
      | Some p => onPage (deletePatient (prop "id" p) confirmed) s
      | None => s
      end
  | ASelect i =>
      match LS.patients (page s) !! i with
      | Some p => onPage (handlePatientClick p) s
      | None => s
      end
  | AClose => onPage (setSelectedPatient None) s
  | ATypeMedication f v =>
      mkSession (page s)
        (obj_set (medicationFieldName f) (JStr v) (newMedication s))
  | AAddMedication now => addMedication now s
  | ADeleteMedication j confirmed => onPage (deleteMedicationRow j confirmed) s
  | ASetNextVisit date => onPage (updateNextVisitDate date) s
  end.

Definition runActions (acts : list action) (s : Session) : Session :=
  foldl act s acts.

End Handlers.

(** What a reload needs: the item is the serialised collection (or absent
    while the collection is empty) and every record carries a
    [medications] value that [||] keeps. *)
Definition saved (JSON_stringify : json → string) (s : LS.State) : Prop :=
  (LS.storage s = None ∧ LS.patients s = []
   ∨ LS.storage s = Some (JSON_stringify (JArr (JObj <$> LS.patients s))))
  ∧ Forall (λ p, truthyV (prop "medications" p) = true) (LS.patients s)
  ∧ (∀ sel, LS.selectedPatient s = Some sel →
            truthyV (prop "medications" sel) = true).

End LSPage.

(** ** Sample sessions *)

Module Scenario.

(** Two patients are entered, the first is opened and given a
    medication. *)
Definition visits : list action :=
  [ATypePatient FName "Asha"; ATypePatient FMobile "9999999999";
   ATypePatient FPlace "Kochi"; ASubmit 1700000000000;
   ATypePatient FName "Ravi"; ATypePatient FMobile "8888888888";
   ATypePatient FPlace "Kollam"; ASubmit 1700000000001;
   ASelect 0; ATypeMedication FDescription "Ashwagandha 500mg";
   AAddMedication 1700000000500].

(** The same, with the form filled for a third patient. *)
Definition thirdTyped : list action :=
  visits ++ [ATypePatient FName "Meera"; ATypePatient FMobile "7777777777";
             ATypePatient FPlace "Aluva"].

(** The same, with a second medication typed. *)
Definition medicationTyped : list action :=
  visits ++ [ATypeMedication FDescription "Triphala"].

(** A session that deletes and edits along the way. *)
Definition busy : list action :=
  thirdTyped ++ [ASubmit 1700000000600; AEdit 1; ATypePatient FPlace "Kottayam";
                 ASubmit 1700000000700; ADelete 2 true;
                 ATypeMedication FDescription "Triphala";
                 AAddMedication 1700000000800; ADeleteMedication 0 true;
                 ASetNextVisit "2023-12-01"; ADelete 0 false].

End Scenario.

Module ScenarioLS.

(** One patient is entered and opened, a medication is entered, the next
    visit is set, a second patient is entered and removed. *)
Definition visits : list LSPage.action :=
  [LSPage.ATypePatient LSPage.FName "Asha";
   LSPage.ATypePatient LSPage.FMobile "9999999999";
   LSPage.ATypePatient LSPage.FPlace "Kochi";
   LSPage.ASubmit 1700000000000;
   LSPage.ASelect 0;
   LSPage.ATypeMedication LSPage.MName "Ashwagandha";
   LSPage.ATypeMedication LSPage.MDosage "500mg";
   LSPage.ATypeMedication LSPage.MFrequency "twice a day";
   LSPage.AAddMedication 1700000000500;
   LSPage.ASetNextVisit "2023-12-01";
   LSPage.ATypePatient LSPage.FName "Ravi";
   LSPage.ATypePatient LSPage.FMobile "8888888888";
   LSPage.ATypePatient LSPage.FPlace "Kollam";
   LSPage.ASubmit 1700000000600;
   LSPage.ADelete 1 true].

Definition blank : LSPage.Session :=
  LSPage.mkSession Sample.lsBlank LSPage.blankMedication.

(** [blank] with a patient opened and nothing typed in the medication
    form. *)
Definition opened : LSPage.Session :=
  LSPage.mkSession
    (LSPage.setSelectedPatient (Some (normalize Sample.ravi)) Sample.lsBlank)
    LSPage.blankMedication.

End ScenarioLS.

(** ** The list shown *)

(** [s.includes(t)] on strings. *)
Fixpoint includes (s t : string) : bool :=
  String.prefix t s
  || match s with
     | EmptyString => false
     | String _ s' => includes s' t
     end.

(** [items.filter(keep)]; [None] when the callback throws. *)
Fixpoint filterShown (keep : obj → option bool) (ps : list obj)
  : option (list obj) :=
  match ps with
  | [] => Some []
  | p :: ps' =>
      b ← keep p;
      rest ← filterShown keep ps';
      Some (if b : bool then p :: rest else rest)
  end.

Section Search.

(** [s.toLowerCase()] *)
Variable toLowerCase : string → string.
(** Whether [new Date(v)] and [new Date(d)] agree on the local year, month
    and day. *)
Variable sameLocalDay : option json → string → bool.

(** [p.name.toLowerCase().includes(search.toLowerCase())
     || p.mobile.includes(search)]; [None] when it throws: a [name] that
    is not a string has no [toLowerCase], a [mobile] that is neither a
    string nor an array has no [includes]. *)
Definition matchesSearch (search : string) (p : obj) : option bool :=
  match prop "name" p with
  | Some (JStr name) =>
      if includes (toLowerCase name) (toLowerCase search) then Some true
      else
        match prop "mobile" p with
        | Some (JStr mobile) => Some (includes mobile search)
        | Some (JArr l) => Some (existsb (λ x, prim_eq x (JStr search)) l)
        | _ => None
        end
  | _ => None
  end.

(** The callback of [filteredPatients]. *)
Definition shown (search dateFilter : string) (p : obj) : option bool :=
  m ← matchesSearch search p;
  Some (if negb (truthy (JStr dateFilter)) then m
        else m && sameLocalDay (prop "nextVisitDate" p) dateFilter).

(** [filteredPatients], computed at every render. *)
Definition filteredPatients (search dateFilter : string) (ps : list obj)
  : option (list obj) :=
  filterShown (shown search dateFilter) ps.

End Search.

(** Executable stand-ins for the two services: an ASCII [toLowerCase], and
    a comparison of dates that are written the same way. *)
Definition sameWritten (v : option json) (d : string) : bool :=
  strict_eq v (Some (JStr d)).


Definition asciiLower (s : string) : string :=
  string_of_list_ascii
    ((λ c, let n := nat_of_ascii c in
           if (65 <=? n)%nat && (n <=? 90)%nat then ascii_of_nat (n + 32) else c)
       <$> list_ascii_of_string s).

(** * Properties *)

(** ** Values and objects *)

Lemma prop_obj_set_eq (k : string) (v : json) (o : obj) :
  prop k (obj_set k v o) = Some v.
Proof.
  induction o as [|[k' v'] o IH]; simpl.
  - rewrite String.eqb_refl. reflexivity.
  - destruct (String.eqb k k') eqn:E; simpl.
    + rewrite String.eqb_refl. reflexivity.
    + rewrite E. exact IH.
Qed.

Lemma prop_obj_set_ne (k k' : string) (v : json) (o : obj) :
  k ≠ k' → prop k' (obj_set k v o) = prop k' o.
Proof.
  intros Hne. induction o as [|[k0 v0] o IH]; simpl.
  - destruct (String.eqb k' k) eqn:E; [|reflexivity].
    apply String.eqb_eq in E. congruence.
  - destruct (String.eqb k k0) eqn:E; simpl.
    + apply String.eqb_eq in E. subst k0.
      destruct (String.eqb k' k) eqn:E'; [|reflexivity].
      apply String.eqb_eq in E'. congruence.
    + destruct (String.eqb k' k0); [reflexivity|exact IH].
Qed.

Lemma obj_set_same (k : string) (v : json) (o : obj) :
  prop k o = Some v → obj_set k v o = o.
Proof.
  induction o as [|[k' v'] o IH]; simpl; [discriminate|].
  destruct (String.eqb k k') eqn:E.
  - apply String.eqb_eq in E. intros [= ->]. subst. reflexivity.
  - intros H. rewrite (IH H). reflexivity.
Qed.

Lemma prim_eq_eq (a b : json) : prim_eq a b = true → a = b.
Proof.
  destruct a, b; simpl; try discriminate; intros H.
  - reflexivity.
  - apply Bool.eqb_prop in H. congruence.
  - apply Z.eqb_eq in H. congruence.
  - apply String.eqb_eq in H. congruence.
Qed.

Lemma strict_eq_eq (a b : option json) : strict_eq a b = true → a = b.
Proof.
  destruct a, b; simpl; try discriminate; [|reflexivity].
  intros H. f_equal. apply prim_eq_eq. exact H.
Qed.

Lemma orElse_truthy (v : option json) (d : json) :
  truthyV v = true → Some (orElse v d) = v.
Proof.
  destruct v as [x|]; simpl; [|discriminate].
  intros ->. reflexivity.
Qed.

Lemma orElse_is_truthy (v : option json) (d : json) :
  truthy d = true → truthy (orElse v d) = true.
Proof.
  intros Hd. destruct v as [x|]; simpl; [|exact Hd].
  destruct (truthy x) eqn:E; [exact E|exact Hd].
Qed.

Lemma toString_inj (a b : Z) : toString a = toString b → a = b.
Proof. apply (inj pretty). Qed.

Lemma pretty_N_go_nonempty (x : N) (s : string) :
  s ≠ "" → pretty_N_go x s ≠ "".
Proof.
  revert s. induction (N.lt_wf_0 x) as [x _ IH]; intros s Hs.
  destruct (decide (0 < x)%N) as [Hx|Hx].
  - rewrite pretty_N_go_step by exact Hx.
    apply IH; [|discriminate].
    apply N.div_lt; lia.
  - assert (x = 0%N) as -> by lia. rewrite pretty_N_go_0. exact Hs.
Qed.

Lemma toString_nonempty (n : Z) : toString n ≠ "".
Proof.
  unfold toString, pretty, pretty_Z. destruct n as [|p|p]; [discriminate| |discriminate].
  unfold pretty, pretty_positive, pretty, pretty_N.
  destruct (decide (N.pos p = 0%N)) as [E|_]; [discriminate|].
  rewrite pretty_N_go_step by lia.
  apply pretty_N_go_nonempty. discriminate.
Qed.

(** ** Backup history *)

Lemma slice0_take {A} (l : list A) (e : Z) :
  0 ≤ e → slice0 l e = take (Z.to_nat e) l.
Proof. intros H. unfold slice0. destruct (Z.ltb_spec e 0); [lia|reflexivity]. Qed.

Lemma newHistory_length (e : BackupEntry) (h : list BackupEntry) (cfg : BackupConfig) :
  1 ≤ maxBackups cfg →
  Z.of_nat (length (newHistory e h cfg)) ≤ maxBackups cfg.
Proof.
  intros H. unfold newHistory. rewrite slice0_take by lia.
  simpl length. rewrite length_take. lia.
Qed.

Lemma newHistory_take (e : BackupEntry) (h : list BackupEntry) (cfg : BackupConfig) :
  1 ≤ maxBackups cfg →
  newHistory e (take (Z.to_nat (maxBackups cfg)) h) cfg
  = take (Z.to_nat (maxBackups cfg)) (e :: h).
Proof.
  intros H. unfold newHistory. rewrite slice0_take by lia.
  replace (Z.to_nat (maxBackups cfg)) with (S (Z.to_nat (maxBackups cfg - 1))) by lia.
  simpl. f_equal. rewrite take_take. f_equal. lia.
Qed.

Section SchedulerProperties.

Variable JSON_stringify : json → string.
Variable isoDate : Z → string.

Local Abbreviation step := (backupStep JSON_stringify isoDate).
Local Abbreviation run := (runBackups JSON_stringify isoDate).
Local Abbreviation autoBackup := (performAutomaticBackup JSON_stringify isoDate).
Local Abbreviation tick := (pollTick JSON_stringify isoDate).

Lemma performAutomaticBackup_backupData (t : Z) (s : AppState) :
  autoBackup t s = backupData JSON_stringify isoDate t s.
Proof. reflexivity. Qed.

Lemma backupStep_closed (s : AppState) (e : backupEvent) :
  db s = false → step s e = s.
Proof.
  intros H. destruct e; simpl;
    unfold backupData, performAutomaticBackup; rewrite H; reflexivity.
Qed.

Lemma backupStep_open (s : AppState) (e : backupEvent) :
  db s = true →
  db (step s e) = true
  ∧ maxBackups (backupConfig (step s e)) = maxBackups (backupConfig s)
  ∧ lastBackup (backupConfig (step s e)) = eventTime e
  ∧ backupHistory (step s e)
    = newHistory (entryOf isoDate e) (backupHistory s) (backupConfig s).
Proof.
  intros H. destruct e; simpl;
    unfold backupData, performAutomaticBackup; rewrite H; simpl;
    repeat split; try reflexivity; exact H.
Qed.

Lemma backupStep_maxBackups (s : AppState) (e : backupEvent) :
  maxBackups (backupConfig (step s e)) = maxBackups (backupConfig s).
Proof.
  destruct (db s) eqn:H.
  - apply backupStep_open. exact H.
  - rewrite backupStep_closed by exact H. reflexivity.
Qed.

Lemma runBackups_snoc (evs : list backupEvent) (e : backupEvent) (s : AppState) :
  run (evs ++ [e]) s = step (run evs s) e.
Proof. unfold runBackups. rewrite foldl_app. reflexivity. Qed.

Lemma runBackups_frame (evs : list backupEvent) (s : AppState) :
  db (run evs s) = db s
  ∧ maxBackups (backupConfig (run evs s)) = maxBackups (backupConfig s).
Proof.
  induction evs as [|e evs IH] using rev_ind; [split; reflexivity|].
  rewrite runBackups_snoc. destruct IH as [IHd IHm].
  rewrite backupStep_maxBackups. split; [|exact IHm].
  destruct (db (run evs s)) eqn:H.
  - rewrite <- IHd. apply backupStep_open. exact H.
  - rewrite backupStep_closed by exact H. rewrite H. exact IHd.
Qed.

(** C2. With [maxBackups >= 1], along every sequence of backup events
    (manual or automatic) the history never holds more than [maxBackups]
    entries: a history within the bound stays within it, and once the
    database is open every backup brings the history within the bound
    whatever it held before.  It is newest-first: the events' entries in
    reverse order of occurrence, ahead of the entries it started with, cut
    to the first [maxBackups]. *)
Theorem backup_history_bounded_newest_first
    (s : AppState) (evs : list backupEvent) :
  1 ≤ maxBackups (backupConfig s) →
  (Z.of_nat (length (backupHistory s)) ≤ maxBackups (backupConfig s) →
   Z.of_nat (length (backupHistory (run evs s))) ≤ maxBackups (backupConfig s))
  ∧ (db s = true → evs ≠ [] →
     Z.of_nat (length (backupHistory (run evs s))) ≤ maxBackups (backupConfig s))
  ∧ (db s = true →
     Z.of_nat (length (backupHistory s)) ≤ maxBackups (backupConfig s) →
     backupHistory (run evs s)
     = take (Z.to_nat (maxBackups (backupConfig s)))
         (reverse (entryOf isoDate <$> evs) ++ backupHistory s)).
Proof.
  intros Hm.
  assert (Hlast : ∀ evs e, db s = true →
            Z.of_nat (length (backupHistory (run (evs ++ [e]) s)))
            ≤ maxBackups (backupConfig s)).
  { intros evs' e Hopen. rewrite runBackups_snoc.
    destruct (runBackups_frame evs' s) as [Hdb Hmax].
    assert (Hopen' : db (run evs' s) = true) by congruence.
    destruct (backupStep_open (run evs' s) e Hopen') as (_ & _ & _ & Hh).
    rewrite Hh, <- Hmax. apply newHistory_length. lia. }
  split; [|split].
  - intros Hlen. induction evs as [|e evs IH] using rev_ind; [exact Hlen|].
    destruct (db s) eqn:Hdb; [apply Hlast; reflexivity|].
    rewrite runBackups_snoc, backupStep_closed; [exact IH|].
    rewrite (proj1 (runBackups_frame evs s)). exact Hdb.
  - intros Hopen Hne. destruct evs as [|e evs] using rev_ind; [congruence|].
    apply Hlast. exact Hopen.
  - intros Hopen Hlen. induction evs as [|e evs IH] using rev_ind.
    + simpl. rewrite take_ge; [reflexivity|]. lia.
    + destruct (runBackups_frame evs s) as [Hdb Hmax].
      rewrite runBackups_snoc.
      assert (Hopen' : db (run evs s) = true) by congruence.
      destruct (backupStep_open (run evs s) e Hopen') as (_ & _ & _ & Hh).
      rewrite Hh, IH, <- Hmax.
      rewrite newHistory_take by lia.
      rewrite fmap_app, reverse_app. reflexivity.
Qed.

(** C3 (as the component behaves).  While the scheduler is armed and the
    database is open, a poll tick at [now] runs the export exactly when
    [now - lastBackup >= interval * 60000]: a tick that is due changes the
    state, a tick that is not leaves it alone.  The export delivers one
    file and records as [lastBackup] the clock value [timestamp] it reads
    when it completes, not the [now] of the tick.  It puts one entry ahead
    of the history, which with [maxBackups >= 1] is then cut to its first
    [maxBackups] entries; a history shorter than the bound is kept whole
    behind the new entry.  For [interval = 1] and
    [lastBackup = now - 61000] the tick therefore delivers exactly one
    backup, with its entry at the head of the history, and [lastBackup]
    becomes the completion time. *)
Theorem poll_tick_fires_when_due (s : AppState) (now timestamp : Z) :
  enabled (backupConfig s) = true →
  db s = true →
  let fired :=
    autoBackup timestamp s in
  let name := "patient-care-backup-" +:+ isoDate timestamp +:+ ".json" in
  let entry := mkBackupEntry timestamp name in
  (interval (backupConfig s) * 60000 ≤ now - lastBackup (backupConfig s)
   ↔ tick now timestamp s = fired)
  ∧ (now - lastBackup (backupConfig s) < interval (backupConfig s) * 60000
     ↔ tick now timestamp s = s)
  ∧ downloads fired
    = (name, JSON_stringify (JArr (JObj <$> getAll (idb s)))) :: downloads s
  ∧ lastBackup (backupConfig fired) = timestamp
  ∧ (1 ≤ maxBackups (backupConfig s) →
     backupHistory fired
     = take (Z.to_nat (maxBackups (backupConfig s))) (entry :: backupHistory s))
  ∧ (Z.of_nat (length (backupHistory s)) < maxBackups (backupConfig s) →
     backupHistory fired = entry :: backupHistory s)
  ∧ (interval (backupConfig s) = 1 →
     lastBackup (backupConfig s) = now - 61000 →
     tick now timestamp s = fired
     ∧ length (downloads (tick now timestamp s)) = S (length (downloads s))
     ∧ lastBackup (backupConfig (tick now timestamp s)) = timestamp
     ∧ head (backupHistory (tick now timestamp s)) = Some entry).
Proof.
  intros Hen Hdb fired name entry.
  assert (Hdue : interval (backupConfig s) * 60000 ≤ now - lastBackup (backupConfig s)
                 → tick now timestamp s = fired).
  { intros H. unfold pollTick, checkAndBackup, backupDue. rewrite Hen.
    destruct (Z.leb_spec (interval (backupConfig s) * 60 * 1000)
                (now - lastBackup (backupConfig s))); [reflexivity|lia]. }
  assert (Hearly : now - lastBackup (backupConfig s) < interval (backupConfig s) * 60000
                   → tick now timestamp s = s).
  { intros H. unfold pollTick, checkAndBackup, backupDue. rewrite Hen.
    destruct (Z.leb_spec (interval (backupConfig s) * 60 * 1000)
                (now - lastBackup (backupConfig s))); [lia|reflexivity]. }
  assert (Hdl : downloads fired
    = (name, JSON_stringify (JArr (JObj <$> getAll (idb s)))) :: downloads s).
  { unfold fired, performAutomaticBackup. rewrite Hdb. reflexivity. }
  assert (Hlast : lastBackup (backupConfig fired) = timestamp).
  { unfold fired, performAutomaticBackup. rewrite Hdb. reflexivity. }
  assert (Hh : backupHistory fired
               = newHistory entry (backupHistory s) (backupConfig s)).
  { unfold fired, performAutomaticBackup. rewrite Hdb. reflexivity. }
  assert (Hne : fired ≠ s).
  { intros E. apply (f_equal (λ x, length (downloads x))) in E.
    rewrite Hdl in E. simpl in E. lia. }
  assert (Hcut : 1 ≤ maxBackups (backupConfig s) →
            backupHistory fired
            = take (Z.to_nat (maxBackups (backupConfig s)))
                (entry :: backupHistory s)).
  { intros Hm. rewrite Hh. unfold newHistory. rewrite slice0_take by lia.
    replace (Z.to_nat (maxBackups (backupConfig s)))
      with (S (Z.to_nat (maxBackups (backupConfig s) - 1))) by lia.
    reflexivity. }
  split.
  { split; [exact Hdue|]. intros E.
    destruct (Z.le_gt_cases (interval (backupConfig s) * 60000)
                (now - lastBackup (backupConfig s))) as [H|H]; [exact H|].
    exfalso. apply Hne. rewrite <- E. apply Hearly. exact H. }
  split.
  { split; [exact Hearly|]. intros E.
    destruct (Z.le_gt_cases (interval (backupConfig s) * 60000)
                (now - lastBackup (backupConfig s))) as [H|H]; [|exact H].
    exfalso. apply Hne. rewrite <- E. symmetry. apply Hdue. exact H. }
  split; [exact Hdl|]. split; [exact Hlast|]. split; [exact Hcut|]. split.
  { intros Hlen. rewrite Hcut by lia. apply take_ge. simpl. lia. }
  intros Hi Hl. rewrite Hdue by lia. split; [reflexivity|]. split.
  - rewrite Hdl. reflexivity.
  - split; [exact Hlast|]. rewrite Hh. reflexivity.
Qed.

(** C8 (as the component behaves).  Enabling the scheduler (Idle to
    Armed) stamps [lastBackup] with the current time and leaves the
    interval and the bound alone, so that a poll tick fires exactly when a
    full interval has passed since the arming, however old the previous
    [lastBackup] was.  The next poll tick comes one minute after the
    arming: it does nothing when the interval is 2 minutes or more, and it
    exports when the interval is 1 minute.  Disabling leaves [lastBackup]
    unchanged. *)
Theorem toggle_arms_from_now (s : AppState) (now : Z) :
  let s' := toggleAutomaticBackup now s in
  interval (backupConfig s') = interval (backupConfig s)
  ∧ maxBackups (backupConfig s') = maxBackups (backupConfig s)
  ∧ (enabled (backupConfig s) = false →
     enabled (backupConfig s') = true
     ∧ lastBackup (backupConfig s') = now
     ∧ (∀ t timestamp : Z,
          t - now < interval (backupConfig s) * 60000 →
          tick t timestamp s' = s')
     ∧ (∀ t timestamp : Z,
          interval (backupConfig s) * 60000 ≤ t - now →
          tick t timestamp s' = autoBackup timestamp s')
     ∧ (∀ t timestamp : Z,
          now + 60000 ≤ t < now + 120000 →
          (2 ≤ interval (backupConfig s) → tick t timestamp s' = s')
          ∧ (interval (backupConfig s) ≤ 1 →
             tick t timestamp s' = autoBackup timestamp s'
             ∧ (db s = true →
                length (downloads (tick t timestamp s'))
                = S (length (downloads s)))))
     ∧ (∀ delay : Z,
          (2 ≤ interval (backupConfig s) →
           (timerRun JSON_stringify isoDate 1 now delay s').1 = s')
          ∧ (interval (backupConfig s) ≤ 1 →
             (timerRun JSON_stringify isoDate 1 now delay s').1
             = autoBackup (now + 60000 + delay) s')))
  ∧ (enabled (backupConfig s) = true →
     enabled (backupConfig s') = false
     ∧ lastBackup (backupConfig s') = lastBackup (backupConfig s)).
Proof.
  intros s'. split; [reflexivity|]. split; [reflexivity|]. split.
  - intros Hoff.
    assert (Hon : enabled (backupConfig s') = true).
    { unfold s'. simpl. rewrite Hoff. reflexivity. }
    assert (Hlast : lastBackup (backupConfig s') = now).
    { unfold s'. simpl. rewrite Hoff. reflexivity. }
    assert (Hquiet : ∀ t timestamp : Z,
              t - now < interval (backupConfig s) * 60000 →
              tick t timestamp s' = s').
    { intros t timestamp Ht.
      unfold pollTick, checkAndBackup, backupDue; rewrite Hon, Hlast;
        change (interval (backupConfig s')) with (interval (backupConfig s));
        destruct (Z.leb_spec (interval (backupConfig s) * 60 * 1000) (t - now));
        solve [lia|reflexivity]. }
    assert (Hfires : ∀ t timestamp : Z,
              interval (backupConfig s) * 60000 ≤ t - now →
              tick t timestamp s' = autoBackup timestamp s').
    { intros t timestamp Ht.
      unfold pollTick, checkAndBackup, backupDue; rewrite Hon, Hlast;
        change (interval (backupConfig s')) with (interval (backupConfig s));
        destruct (Z.leb_spec (interval (backupConfig s) * 60 * 1000) (t - now));
        solve [lia|reflexivity]. }
    split; [exact Hon|]. split; [exact Hlast|].
    split; [exact Hquiet|]. split; [exact Hfires|]. split.
    + intros t timestamp Ht. split.
      * intros Hi. apply Hquiet. nia.
      * intros Hi. rewrite Hfires by nia. split; [reflexivity|].
        intros Hdb. unfold performAutomaticBackup.
        change (db s') with (db s). rewrite Hdb. reflexivity.
    + intros delay. cbn [timerRun fst]. split.
      * intros Hi. apply Hquiet. nia.
      * intros Hi. apply Hfires. nia.
  - intros Hon. unfold s'. simpl. rewrite Hon. split; reflexivity.
Qed.

End SchedulerProperties.

(** C5 (a defect of the component).  The two settings inputs declare
    [min="1"], but the handlers install whatever number reaches them: a
    typed 0, or a bound of -3, is stored as it is, and so is an interval
    of 2000 beyond the declared [max="1440"].  With the interval 0
    stored, the armed scheduler exports at every firing of its timer, the
    busy loop the range is there to prevent. *)
Theorem settings_store_out_of_range_values :
  (∀ (s : AppState) (n : Z),
     interval (backupConfig (updateBackupInterval n s)) = n
     ∧ maxBackups (backupConfig (changeMaxBackups n s)) = n)
  ∧ interval (backupConfig (updateBackupInterval 0 Sample.session)) = 0
  ∧ maxBackups (backupConfig (changeMaxBackups 0 Sample.session)) = 0
  ∧ maxBackups (backupConfig (changeMaxBackups (-3) Sample.session)) = -3
  ∧ interval (backupConfig (updateBackupInterval 2000 Sample.session)) = 2000
  ∧ length (downloads
              (timerRun RefPlatform.stringify RefPlatform.isoDate 3
                 1700000000000 250
                 (toggleAutomaticBackup 1700000000000
                    (updateBackupInterval 0 Sample.session))).1)
    = 3%nat.
Proof.
  split; [intros s n; split; reflexivity|].
  repeat apply conj; vm_compute; reflexivity.
Qed.

(** ** Normalisation on load *)

Lemma normalize_medications (r : obj) :
  prop "medications" (normalize r)
  = Some (orElse (prop "medications" r) (JArr [])).
Proof. apply prop_obj_set_eq. Qed.

Lemma normalize_other (r : obj) (k : string) :
  k ≠ "medications" → prop k (normalize r) = prop k r.
Proof. intros H. apply prop_obj_set_ne. congruence. Qed.

Lemma normalize_has_medications (r : obj) :
  truthyV (prop "medications" (normalize r)) = true.
Proof. rewrite normalize_medications. simpl. apply orElse_is_truthy. reflexivity. Qed.

Lemma normalize_normalized (r : obj) :
  truthyV (prop "medications" r) = true → normalize r = r.
Proof.
  intros H. unfold normalize. apply obj_set_same.
  symmetry. apply orElse_truthy. exact H.
Qed.

(** Normalising a normalised record changes nothing. *)
Lemma normalize_idempotent (r : obj) : normalize (normalize r) = normalize r.
Proof. apply normalize_normalized, normalize_has_medications. Qed.

Lemma normalizeValue_has_medications (v : json) (p : obj) :
  LS.normalizeValue v = Some p → truthyV (prop "medications" p) = true.
Proof.
  destruct v; simpl; intros H; try discriminate; injection H as <-;
    first [ apply normalize_has_medications
          | reflexivity
          | rewrite prop_obj_set_eq; reflexivity ].
Qed.

Lemma mapM_normalizeValue_has_medications (vs : list json) (ps : list obj) :
  mapM LS.normalizeValue vs = Some ps →
  Forall (λ p, truthyV (prop "medications" p) = true) ps.
Proof.
  intros H. apply mapM_Some_1 in H.
  induction H as [|v p vs ps Hv _ IH]; constructor; [|exact IH].
  eapply normalizeValue_has_medications. exact Hv.
Qed.


(** ** Validation and edit of a patient *)

Section PatientProperties.

Variable JSON_stringify : json → string.
Variable JSON_parse : string → option json.
Variable isoDate : Z → string.

Lemma savePatients_frame (ups : list obj) (s : AppState) :
  patients (savePatients ups s).1 = patients s
  ∧ selectedPatient (savePatients ups s).1 = selectedPatient s
  ∧ editingId (savePatients ups s).1 = editingId s
  ∧ alerts (savePatients ups s).1 = alerts s.
Proof.
  unfold savePatients. destruct (negb (db s)); [repeat split|].
  destruct (forEach_add (JObj <$> ups)) as [q threw]. repeat split.
Qed.

(** C9. An add-patient request whose name, mobile or place is empty (or
    missing) only shows the message "Please fill all fields.": the
    in-memory collection and the persisted one are what they were, in the
    IndexedDB variant and in the localStorage variant. *)
Theorem addPatient_rejects_incomplete_draft
    (s : AppState) (ls : LS.State) (now : Z) :
  (truthyV (prop "name" (newPatient s)) = false
   ∨ truthyV (prop "mobile" (newPatient s)) = false
   ∨ truthyV (prop "place" (newPatient s)) = false) →
  (truthyV (prop "name" (LS.newPatient ls)) = false
   ∨ truthyV (prop "mobile" (LS.newPatient ls)) = false
   ∨ truthyV (prop "place" (LS.newPatient ls)) = false) →
  addPatient isoDate now s = alert "Please fill all fields." s
  ∧ patients (addPatient isoDate now s) = patients s
  ∧ idb (addPatient isoDate now s) = idb s
  ∧ alerts (addPatient isoDate now s) = "Please fill all fields." :: alerts s
  ∧ LS.patients (LS.addPatient JSON_stringify isoDate now ls) = LS.patients ls
  ∧ LS.storage (LS.addPatient JSON_stringify isoDate now ls) = LS.storage ls
  ∧ LS.alerts (LS.addPatient JSON_stringify isoDate now ls)
    = "Please fill all fields." :: LS.alerts ls.
Proof.
  intros H Hls.
  assert (E : draftIncomplete (newPatient s) = true).
  { unfold draftIncomplete. destruct H as [->| [->| ->]]; simpl;
      rewrite ?orb_true_r; reflexivity. }
  assert (Els : draftIncomplete (LS.newPatient ls) = true).
  { unfold draftIncomplete. destruct Hls as [->| [->| ->]]; simpl;
      rewrite ?orb_true_r; reflexivity. }
  unfold addPatient, LS.addPatient. rewrite E, Els. repeat split.
Qed.

Lemma addPatient_edit_patients (s : AppState) (now : Z) (eid : json) :
  draftIncomplete (newPatient s) = false →
  editingId s = Some eid → truthy eid = true →
  patients (addPatient isoDate now s)
  = editedPatients eid (newPatient s) (patients s).
Proof.
  intros Hd He Ht. unfold addPatient. rewrite Hd, He, Ht.
  set (ups := editedPatients eid (newPatient s) (patients s)).
  pose proof (savePatients_frame ups (setPatients ups s)) as (Hp & _).
  destruct (savePatients ups (setPatients ups s)) as [s1 threw].
  simpl in Hp. destruct threw; simpl; exact Hp.
Qed.

Lemma LS_addPatient_edit_patients (ls : LS.State) (now : Z) (eid : json) :
  draftIncomplete (LS.newPatient ls) = false →
  LS.editingId ls = Some eid → truthy eid = true →
  LS.patients (LS.addPatient JSON_stringify isoDate now ls)
  = editedPatients eid (LS.newPatient ls) (LS.patients ls).
Proof.
  intros Hd He Ht. unfold LS.addPatient. rewrite Hd, He, Ht. reflexivity.
Qed.

Lemma editedPatients_hit (eid : json) (draft p : obj) (ps : list obj) (i : nat) :
  ps !! i = Some p →
  strict_eq (prop "id" p) (Some eid) = true →
  ∃ p', editedPatients eid draft ps !! i = Some p'
        ∧ prop "id" p' = prop "id" p
        ∧ prop "medications" p' = Some (orElse (prop "medications" p) (JArr []))
        ∧ ∀ k, k ≠ "id" → k ≠ "medications" → prop k p' = prop k draft.
Proof.
  intros Hi Hid. unfold editedPatients. rewrite list_lookup_fmap, Hi. simpl.
  rewrite Hid. eexists. split; [reflexivity|]. split; [|split].
  - rewrite prop_obj_set_ne by discriminate. rewrite prop_obj_set_eq.
    symmetry. apply strict_eq_eq. exact Hid.
  - apply prop_obj_set_eq.
  - intros k Hk1 Hk2. rewrite !prop_obj_set_ne by congruence. reflexivity.
Qed.

Lemma editedPatients_miss (eid : json) (draft q : obj) (ps : list obj) (j : nat) :
  ps !! j = Some q →
  strict_eq (prop "id" q) (Some eid) = false →
  editedPatients eid draft ps !! j = Some q.
Proof.
  intros Hj Hid. unfold editedPatients. rewrite list_lookup_fmap, Hj. simpl.
  rewrite Hid. reflexivity.
Qed.

(** C10. On the edit path ([editingId] set, draft complete) the new
    collection is the old one with every patient whose id is [editingId]
    rebuilt from the draft: such a patient keeps its id and its
    medications collection whatever the draft's [medications] says, and
    takes every other property from the draft; all other patients and the
    length of the collection are untouched.  Both variants. *)
Theorem edit_preserves_medications
    (eid : json) (draft : obj) (ps : list obj) (i : nat) (p : obj)
    (s : AppState) (ls : LS.State) (now : Z) :
  truthy eid = true →
  draftIncomplete draft = false →
  ps !! i = Some p →
  strict_eq (prop "id" p) (Some eid) = true →
  truthyV (prop "medications" p) = true →
  patients s = ps → newPatient s = draft → editingId s = Some eid →
  LS.patients ls = ps → LS.newPatient ls = draft → LS.editingId ls = Some eid →
  let ps' := patients (addPatient isoDate now s) in
  LS.patients (LS.addPatient JSON_stringify isoDate now ls) = ps'
  ∧ length ps' = length ps
  ∧ (∃ p', ps' !! i = Some p'
           ∧ prop "medications" p' = prop "medications" p
           ∧ prop "id" p' = prop "id" p
           ∧ ∀ k, k ≠ "id" → k ≠ "medications" → prop k p' = prop k draft)
  ∧ (∀ j q, ps !! j = Some q →
            strict_eq (prop "id" q) (Some eid) = false →
            ps' !! j = Some q).
Proof.
  intros Ht Hd Hi Hid Hm Hps Hdr He Hlps Hldr Hle ps'.
  assert (Eps : ps' = editedPatients eid draft ps).
  { unfold ps'. rewrite <- Hps, <- Hdr.
    apply addPatient_edit_patients; congruence. }
  split.
  { rewrite Eps, <- Hlps, <- Hldr.
    apply LS_addPatient_edit_patients; congruence. }
  rewrite Eps. split.
  { unfold editedPatients. apply length_fmap. }
  split.
  - destruct (editedPatients_hit eid draft p ps i Hi Hid) as (p' & H1 & H2 & H3 & H4).
    exists p'. split; [exact H1|]. split; [|split; assumption].
    rewrite H3. apply orElse_truthy. exact Hm.
  - intros j q Hj Hq. apply editedPatients_miss; assumption.
Qed.

End PatientProperties.

(** ** The store under clear-and-add transactions *)

Lemma forEach_add_keyed (l : list (idb_key * obj)) :
  Forall (λ kv, extract_key kv.2 = Some kv.1) l →
  forEach_add (JObj <$> l.*2) = (addRequests l, false).
Proof.
  induction 1 as [|[k o] l Hk _ IH]; [reflexivity|].
  rewrite !fmap_cons. simpl forEach_add. simpl in Hk. rewrite Hk. simpl.
  rewrite IH. reflexivity.
Qed.

Lemma exec_addRequests (l : list (idb_key * obj)) (s : Store) :
  NoDup l.*1 →
  (∀ k, k ∈ l.*1 → s !! k = None) →
  exec_requests (addRequests l) s = Some (list_to_map (reverse l) ∪ s).
Proof.
  revert s. induction l as [|[k o] l IH]; intros s Hnd Hfresh.
  - simpl. rewrite (left_id_L ∅ (∪)). reflexivity.
  - simpl in *. apply list.NoDup_cons in Hnd as [Hk Hnd].
    rewrite (Hfresh k) by (left). simpl.
    rewrite IH; [|exact Hnd|].
    + f_equal. rewrite reverse_cons, list_to_map_app. simpl.
      rewrite <- (assoc_L (∪)). f_equal.
      rewrite <- insert_union_l, (left_id_L ∅ (∪)). reflexivity.
    + intros k' Hk'. rewrite lookup_insert_ne; [|intros ->; contradiction].
      apply Hfresh. right. exact Hk'.
Qed.

Lemma getAll_sorted_entries (s : Store) :
  ∃ l, l ≡ₚ map_to_list s ∧ getAll s = l.*2.
Proof.
  eexists. split; [|reflexivity]. apply merge_sort_Permutation.
Qed.

(** Clearing the store and adding back what [getAll] returned restores
    it. *)
Lemma clear_add_getAll (s0 s : Store) :
  store_wf s →
  ∃ q, forEach_add (JObj <$> getAll s) = (q, false)
       ∧ run_transaction (ReqClear :: q) s0 = s.
Proof.
  intros Hwf. destruct (getAll_sorted_entries s) as (l & Hperm & ->).
  exists (addRequests l). split.
  - apply forEach_add_keyed. rewrite Hperm.
    apply list.Forall_forall. intros [k o] Hin.
    apply elem_of_map_to_list in Hin. apply Hwf. exact Hin.
  - unfold run_transaction. simpl.
    rewrite exec_addRequests.
    + simpl. rewrite (right_id_L ∅ (∪)). symmetry.
      apply list_to_map_flip. rewrite reverse_Permutation. symmetry. exact Hperm.
    + rewrite Hperm. apply NoDup_fst_map_to_list.
    + intros k _. apply lookup_empty.
Qed.

Lemma exec_request_wf (s s' : Store) (v : json) (r : request) :
  store_wf s → store_add v = Some r → exec_request s r = Some s' → store_wf s'.
Proof.
  intros Hwf Hadd Hex. destruct v; try discriminate. simpl in Hadd.
  destruct (extract_key l) as [k|] eqn:Hk; [|discriminate].
  injection Hadd as <-. simpl in Hex.
  destruct (s !! k); [discriminate|]. injection Hex as <-.
  intros k' o' H. destruct (decide (k = k')) as [<-|Hne].
  - rewrite lookup_insert_eq in H. congruence.
  - rewrite lookup_insert_ne in H by exact Hne. apply Hwf. exact H.
Qed.

Lemma store_wf_empty : store_wf ∅.
Proof. intros k o H. rewrite lookup_empty in H. discriminate. Qed.

(** Every transaction the component runs keeps the store well formed. *)
Lemma clear_add_wf (vs : list json) (s : Store) :
  store_wf s → store_wf (run_transaction (ReqClear :: (forEach_add vs).1) s).
Proof.
  intros Hwf. unfold run_transaction. simpl.
  destruct (exec_requests (forEach_add vs).1 ∅) as [s'|] eqn:E; [|exact Hwf].
  simpl. clear Hwf. revert s' E. generalize store_wf_empty.
  generalize (∅ : Store) as s0.
  induction vs as [|v vs IH]; intros s0 H0 s' E; simpl in E.
  - injection E as <-. exact H0.
  - destruct (store_add v) as [r|] eqn:Hr; simpl in E;
      [|injection E as <-; exact H0].
    destruct (forEach_add vs) as [q threw]. simpl in *.
    destruct (exec_request s0 r) as [s1|] eqn:E1; [|discriminate].
    simpl in E. eapply IH; [|exact E].
    eapply exec_request_wf; eassumption.
Qed.

(** ** Export and import *)

Section SnapshotProperties.

Variable JSON_stringify : json → string.
Variable JSON_parse : string → option json.
Variable isoDate : Z → string.

Local Abbreviation exportSnapshot := (exportSnapshot JSON_stringify).

Lemma backupData_delivers_snapshot (t : Z) (s : AppState) :
  db s = true →
  downloads (backupData JSON_stringify isoDate t s)
  = ("patient-care-backup-" +:+ isoDate t +:+ ".json", exportSnapshot (idb s))
      :: downloads s.
Proof. intros H. unfold backupData. rewrite H. reflexivity. Qed.

Lemma backupData_keeps_store (t : Z) (s : AppState) :
  idb (backupData JSON_stringify isoDate t s) = idb s.
Proof. unfold backupData. destruct (negb (db s)); reflexivity. Qed.

(** A snapshot that does not parse leaves everything but the message
    log as it was. *)
Lemma restoreData_malformed (text : string) (s : AppState) :
  JSON_parse text = None →
  idb (restoreData JSON_parse text s) = idb s
  ∧ patients (restoreData JSON_parse text s) = patients s.
Proof.
  intros H. unfold restoreData. rewrite H.
  destruct (negb (db s)); split; reflexivity.
Qed.

(** A snapshot that parses to something other than an array empties the
    store and reports an error. *)
Lemma restoreData_not_array (text : string) (data : json) (s : AppState) :
  db s = true →
  JSON_parse text = Some data →
  (∀ vs, data ≠ JArr vs) →
  idb (restoreData JSON_parse text s) = ∅
  ∧ patients (restoreData JSON_parse text s) = patients s
  ∧ alerts (restoreData JSON_parse text s)
    = "Error restoring data. Please check the backup file format." :: alerts s.
Proof.
  intros Hdb Hp Hna. unfold restoreData. rewrite Hdb, Hp. simpl.
  destruct data; try (repeat split; reflexivity).
  exfalso. eapply Hna. reflexivity.
Qed.

(** Importing the snapshot text of a well-formed store [P] installs [P]. *)
Lemma restoreData_exported (P : Store) (s' : AppState) :
  db s' = true →
  store_wf P →
  JSON_parse (exportSnapshot P) = Some (JArr (JObj <$> getAll P)) →
  restoreData JSON_parse (exportSnapshot P) s'
  = alert "Data restored successfully!" (loadPatients (setIdb P s')).
Proof.
  intros Hdb' Hwf Hparse.
  destruct (clear_add_getAll (idb s') P Hwf) as (q & Hq & Hrun).
  unfold restoreData. rewrite Hdb', Hparse. simpl.
  unfold restoreParsed. rewrite Hq, Hrun. reflexivity.
Qed.

(** C1. Export the store of a session, then import the delivered text
    into any session with an open database: provided the platform's
    [JSON.parse] reads back what its [JSON.stringify] wrote for this
    collection (as the reference platform does for every store of proper
    records, [reference_codec_reads_back_exports]), the persisted
    collection is again the exported one, record for record and property
    for property, the in-memory collection is its normalised reload, and
    success is reported. *)
Theorem export_import_round_trip (s s' : AppState) (t : Z) :
  db s = true → db s' = true →
  store_wf (idb s) →
  JSON_parse (exportSnapshot (idb s)) = Some (JArr (JObj <$> getAll (idb s))) →
  ∃ name text,
    downloads (backupData JSON_stringify isoDate t s) = (name, text) :: downloads s
    ∧ text = exportSnapshot (idb s)
    ∧ idb (restoreData JSON_parse text s') = idb s
    ∧ getAll (idb (restoreData JSON_parse text s')) = getAll (idb s)
    ∧ patients (restoreData JSON_parse text s')
      = normalize <$> getAll (idb s)
    ∧ alerts (restoreData JSON_parse text s')
      = "Data restored successfully!" :: alerts s'.
Proof.
  intros Hdb Hdb' Hwf Hparse.
  eexists _, _. split; [apply backupData_delivers_snapshot; exact Hdb|].
  split; [reflexivity|].
  rewrite (restoreData_exported (idb s) s' Hdb' Hwf Hparse). repeat split.
Qed.

End SnapshotProperties.

(** ** Uniqueness of ids under a strictly advancing clock *)

Lemma stampedBelow_mono (b b' : Z) (i : option json) :
  b ≤ b' → stampedBelow b i → stampedBelow b' i.
Proof. intros Hb (t & Ht & ->). exists t. split; [lia|reflexivity]. Qed.

Lemma medsBelow_mono (b b' : Z) (p : obj) :
  b ≤ b' → medsBelow b p → medsBelow b' p.
Proof.
  intros Hb (ms & Hm & Hall & Hnd). exists ms. split; [exact Hm|].
  split; [|exact Hnd].
  eapply Forall_impl; [exact Hall|]. intros m. apply stampedBelow_mono. exact Hb.
Qed.

Lemma addInv_mono (b b' : Z) (s : AppState) :
  b ≤ b' → addInv b s → addInv b' s.
Proof.
  intros Hb (He & Hids & Hnd & Hmeds & Hsel).
  split; [exact He|]. split.
  { eapply Forall_impl; [exact Hids|]. intros i. apply stampedBelow_mono. exact Hb. }
  split; [exact Hnd|]. split.
  { eapply Forall_impl; [exact Hmeds|]. intros p. apply medsBelow_mono. exact Hb. }
  intros sel H. eapply medsBelow_mono; [exact Hb|]. apply Hsel. exact H.
Qed.

(** The invariant reads three cells of the state only. *)
Lemma addInv_ext (b : Z) (s s' : AppState) :
  editingId s' = editingId s → patients s' = patients s →
  selectedPatient s' = selectedPatient s →
  addInv b s → addInv b s'.
Proof. unfold addInv. intros -> -> ->. trivial. Qed.

Lemma stamped_fresh (b now : Z) (ids : list (option json)) :
  b ≤ now → Forall (stampedBelow b) ids →
  Some (JStr (toString now)) ∉ ids.
Proof.
  intros Hb Hall Hin. rewrite list.Forall_forall in Hall.
  destruct (Hall _ Hin) as (t & Ht & E).
  injection E as E. apply toString_inj in E. lia.
Qed.

Lemma NoDup_snoc_fresh {A} (l : list A) (x : A) :
  NoDup l → x ∉ l → NoDup (l ++ [x]).
Proof.
  intros Hnd Hx. apply list.NoDup_app. split; [exact Hnd|]. split.
  - intros y Hy Hin. apply list_elem_of_singleton in Hin. subst. contradiction.
  - apply NoDup_singleton.
Qed.

Lemma medsBelow_normalize (b : Z) (p : obj) :
  medsBelow b p → medsBelow b (normalize p).
Proof.
  intros (ms & Hm & H). exists ms. split; [|exact H].
  rewrite normalize_medications, Hm. reflexivity.
Qed.

Section UniquenessProperties.

Variable isoDate : Z → string.

Local Abbreviation step := (addStep isoDate).
Local Abbreviation run := (runAdds isoDate).

Lemma addPatient_cells (now : Z) (s : AppState) :
  editingId s = None →
  draftIncomplete (newPatient s) = false →
  editingId (addPatient isoDate now s) = None
  ∧ patients (addPatient isoDate now s)
    = appendedPatients now (newPatient s) (patients s)
  ∧ selectedPatient (addPatient isoDate now s) = selectedPatient s.
Proof.
  intros He Hd. unfold addPatient. rewrite Hd, He.
  set (ups := appendedPatients now (newPatient s) (patients s)).
  pose proof (savePatients_frame ups (setPatients ups s)) as (Hp & Hs & Hi & _).
  destruct (savePatients ups (setPatients ups s)) as [s1 threw].
  simpl in Hp, Hs, Hi. destruct threw; simpl; repeat split; congruence.
Qed.

Lemma addPatient_inv (b now : Z) (draft : obj) (s : AppState) :
  b ≤ now → addInv b s →
  addInv (now + 1) (addPatient isoDate now (setNewPatient draft s)).
Proof.
  intros Hb Hinv.
  destruct (draftIncomplete draft) eqn:Hd.
  { unfold addPatient. simpl. rewrite Hd.
    apply (addInv_mono b); [lia|]. revert Hinv. apply addInv_ext; reflexivity. }
  destruct Hinv as (He & Hids & Hnd & Hmeds & Hsel).
  destruct (addPatient_cells now (setNewPatient draft s) He Hd) as (E1 & E2 & E3).
  unfold addInv. rewrite E1, E2, E3. simpl.
  set (new := obj_set "medications" (JArr []) (obj_set "id" (JStr (toString now)) draft)).
  assert (Hid : prop "id" new = Some (JStr (toString now))).
  { unfold new. rewrite prop_obj_set_ne by discriminate. apply prop_obj_set_eq. }
  unfold appendedPatients, patientIds. fold new.
  rewrite fmap_app. simpl. rewrite Hid.
  split; [reflexivity|]. split.
  { apply Forall_app. split.
    - eapply Forall_impl; [exact Hids|]. intros i. apply stampedBelow_mono. lia.
    - constructor; [|constructor]. exists now. split; [lia|reflexivity]. }
  split.
  { apply NoDup_snoc_fresh; [exact Hnd|]. eapply stamped_fresh; eassumption. }
  split.
  { apply Forall_app. split.
    - eapply Forall_impl; [exact Hmeds|]. intros p. apply medsBelow_mono. lia.
    - constructor; [|constructor]. exists []. split; [apply prop_obj_set_eq|].
      split; constructor. }
  intros sel H. apply (medsBelow_mono b); [lia|]. apply Hsel. exact H.
Qed.

Lemma select_inv (b : Z) (i : nat) (s : AppState) :
  addInv b s → addInv b (step s (OpSelect i)).
Proof.
  intros Hinv. simpl. destruct (patients s !! i) as [p|] eqn:Hp; [|exact Hinv].
  destruct Hinv as (He & Hids & Hnd & Hmeds & Hsel).
  repeat split; try assumption.
  intros sel [= <-]. apply medsBelow_normalize.
  rewrite list.Forall_forall in Hmeds. apply Hmeds.
  eapply list_elem_of_lookup_2. exact Hp.
Qed.

Lemma addMedication_cells (now : Z) (s : AppState) (sel : obj) (ms : list json) :
  selectedPatient s = Some sel →
  truthyV (prop "description" (newMedication s)) = true →
  prop "medications" sel = Some (JArr ms) →
  let updatedPatient :=
    obj_set "medications"
      (JArr (ms ++ [JObj (obj_set "id" (JStr (toString now)) (newMedication s))]))
      sel in
  editingId (addMedication isoDate now s) = editingId s
  ∧ patients (addMedication isoDate now s)
    = (λ p, if strict_eq (prop "id" p) (prop "id" sel)
            then updatedPatient else p) <$> patients s
  ∧ selectedPatient (addMedication isoDate now s) = Some updatedPatient.
Proof.
  intros Hs Hd Hm updatedPatient. unfold addMedication.
  rewrite Hs, Hd, Hm. simpl. fold updatedPatient.
  set (ups := (λ p, if strict_eq (prop "id" p) (prop "id" sel)
                    then updatedPatient else p) <$> patients s).
  pose proof (savePatients_frame ups
                (setSelectedPatient (Some updatedPatient) (setPatients ups s)))
    as (Hp & Hsl & Hi & _).
  destruct (savePatients ups
              (setSelectedPatient (Some updatedPatient) (setPatients ups s)))
    as [s1 threw].
  simpl in Hp, Hsl, Hi. destruct threw; simpl; repeat split; congruence.
Qed.

Lemma addMedication_inv (b now : Z) (draft : obj) (s : AppState) :
  b ≤ now → addInv b s →
  addInv (now + 1) (addMedication isoDate now (setNewMedication draft s)).
Proof.
  intros Hb Hinv.
  assert (Hkeep : addInv (now + 1) (setNewMedication draft s)).
  { apply (addInv_mono b); [lia|]. revert Hinv. apply addInv_ext; reflexivity. }
  destruct (selectedPatient s) as [sel|] eqn:Hsel.
  2:{ unfold addMedication. simpl. rewrite Hsel. exact Hkeep. }
  destruct (truthyV (prop "description" draft)) eqn:Hd.
  2:{ unfold addMedication. simpl. rewrite Hsel, Hd. simpl.
      revert Hkeep. apply addInv_ext; reflexivity. }
  destruct Hinv as (He & Hids & Hnd & Hmeds & Hselinv).
  destruct (Hselinv sel Hsel) as (ms & Hm & Hall & Hmnd).
  destruct (addMedication_cells now (setNewMedication draft s) sel ms Hsel Hd Hm)
    as (E1 & E2 & E3).
  simpl in E1, E2, E3.
  set (new := JObj (obj_set "id" (JStr (toString now)) draft)) in *.
  set (updatedPatient := obj_set "medications" (JArr (ms ++ [new])) sel) in *.
  assert (Hup : medsBelow (now + 1) updatedPatient).
  { exists (ms ++ [new])%list. split; [apply prop_obj_set_eq|].
    assert (Hnew : medicationId new = Some (JStr (toString now))).
    { unfold new. simpl. apply prop_obj_set_eq. }
    split.
    - apply Forall_app. split.
      + eapply Forall_impl; [exact Hall|]. intros m. apply stampedBelow_mono. lia.
      + constructor; [|constructor]. rewrite Hnew.
        exists now. split; [lia|reflexivity].
    - rewrite fmap_app, list_fmap_singleton, Hnew.
      apply NoDup_snoc_fresh; [exact Hmnd|].
      apply (stamped_fresh b); [exact Hb|].
      apply Forall_fmap. exact Hall. }
  assert (Hsame : patientIds
            ((λ p, if strict_eq (prop "id" p) (prop "id" sel)
                   then updatedPatient else p) <$> patients s)
          = patientIds (patients s)).
  { unfold patientIds. rewrite <- list_fmap_compose.
    apply list_fmap_ext. intros _ p _. simpl.
    destruct (strict_eq (prop "id" p) (prop "id" sel)) eqn:E; [|reflexivity].
    apply strict_eq_eq in E. rewrite E. unfold updatedPatient.
    apply prop_obj_set_ne. discriminate. }
  unfold addInv. rewrite E1, E2, E3, Hsame.
  split; [exact He|]. split.
  { eapply Forall_impl; [exact Hids|]. intros i. apply stampedBelow_mono. lia. }
  split; [exact Hnd|]. split.
  { apply Forall_fmap. eapply Forall_impl; [exact Hmeds|]. intros p Hp. simpl.
    destruct (strict_eq (prop "id" p) (prop "id" sel)); [exact Hup|].
    apply (medsBelow_mono b); [lia|exact Hp]. }
  intros sel' [= <-]. exact Hup.
Qed.

Lemma runAdds_inv (ops : list addOp) (b : Z) (s : AppState) :
  addInv b s → clockFrom b (opTimes ops) →
  ∃ b', addInv b' (run ops s).
Proof.
  revert b s. induction ops as [|op ops IH]; intros b s Hinv Hclock.
  - exists b. exact Hinv.
  - destruct op as [draft now|i|draft now]; simpl in Hclock.
    + destruct Hclock as [Hb Hrest].
      apply (IH (now + 1)); [|exact Hrest].
      apply (addPatient_inv b); assumption.
    + apply (IH b); [|exact Hclock]. apply select_inv. exact Hinv.
    + destruct Hclock as [Hb Hrest].
      apply (IH (now + 1)); [|exact Hrest].
      apply (addMedication_inv b); assumption.
Qed.

End UniquenessProperties.

Lemma Sorted_clockFrom (ts : list Z) :
  Sorted Z.lt ts → ∀ b, (∀ t, head ts = Some t → b ≤ t) → clockFrom b ts.
Proof.
  induction 1 as [|t ts Hs IH Hhd]; intros b Hb; simpl; [exact I|].
  split; [apply Hb; reflexivity|].
  apply IH. intros t' Ht'. destruct Hhd as [|t'' ts' Hlt]; simpl in Ht'.
  - discriminate.
  - injection Ht' as <-. lia.
Qed.

Lemma stampedBelow_nonEmpty (b : Z) (i : option json) :
  stampedBelow b i → nonEmptyId i.
Proof.
  intros (t & _ & ->). exists (toString t). split; [reflexivity|].
  apply toString_nonempty.
Qed.

(** C7 (as the component behaves).  Ids are the clock value of the add.
    Starting from an empty collection, after any sequence of add-patient,
    select and add-medication actions in which every add reads a clock
    value strictly later than the add before it, all patient ids are
    distinct and non-empty, and within each patient all medication ids are
    distinct and non-empty. *)
Theorem add_ids_distinct_under_advancing_clock
    (isoDate : Z → string) (s0 : AppState) (ops : list addOp) :
  patients s0 = [] → selectedPatient s0 = None → editingId s0 = None →
  Sorted Z.lt (opTimes ops) →
  let ps := patients (runAdds isoDate ops s0) in
  NoDup (patientIds ps)
  ∧ Forall nonEmptyId (patientIds ps)
  ∧ Forall (λ p, NoDup (medicationIds p)) ps
  ∧ Forall (λ p, Forall nonEmptyId (medicationIds p)) ps.
Proof.
  intros Hp Hs He Hsorted ps.
  set (b := default 0 (head (opTimes ops))).
  assert (Hinit : addInv b s0).
  { unfold addInv. rewrite Hp, Hs, He. simpl.
    repeat split; try constructor. intros sel [=]. }
  assert (Hclock : clockFrom b (opTimes ops)).
  { apply Sorted_clockFrom; [exact Hsorted|].
    intros t Ht. unfold b. rewrite Ht. simpl. lia. }
  destruct (runAdds_inv isoDate ops b s0 Hinit Hclock)
    as (b' & _ & Hids & Hnd & Hmeds & _).
  fold ps in Hids, Hnd, Hmeds.
  split; [exact Hnd|]. split.
  { eapply list.Forall_impl; [exact Hids|]. intros i. apply stampedBelow_nonEmpty. }
  split.
  - eapply list.Forall_impl; [exact Hmeds|]. intros p (ms & Hm & _ & Hmnd).
    unfold medicationIds. rewrite Hm. exact Hmnd.
  - eapply list.Forall_impl; [exact Hmeds|]. intros p (ms & Hm & Hall & _).
    unfold medicationIds. rewrite Hm. apply Forall_fmap.
    eapply list.Forall_impl; [exact Hall|]. intros m. apply stampedBelow_nonEmpty.
Qed.

(** ** The reference codec reads back what it wrote *)

Module RefPlatformFacts.
Import RefPlatform.
Local Open Scope char_scope.
Local Open Scope list_scope.

Lemma quoteChar_body (c : ascii) (rest : list ascii) :
  stringBody (quoteChar c ++ rest)
  = '(cs, r) ← stringBody rest; Some (c :: cs, r).
Proof.
  destruct c as [[] [] [] [] [] [] [] []]; reflexivity.
Qed.

Lemma stringBody_quoted (l rest : list ascii) :
  stringBody ((l ≫= quoteChar) ++ dquote :: rest) = Some (l, rest).
Proof.
  induction l as [|c l IH]; [reflexivity|].
  rewrite bind_cons, <- (assoc_L (++)), quoteChar_body, IH. reflexivity.
Qed.

Lemma digits_closed (acc : Z) (rest : list ascii) :
  closed rest → digits acc rest = (acc, rest).
Proof.
  destruct rest as [|c r]; [reflexivity|]. intros [H _]. simpl. rewrite H. reflexivity.
Qed.

Lemma digitOf_pretty_N_char (d : N) :
  (d < 10)%N → digitOf (pretty_N_char d) = Some (Z.of_N d).
Proof.
  intros H.
  assert (d = 0 ∨ d = 1 ∨ d = 2 ∨ d = 3 ∨ d = 4 ∨ d = 5 ∨ d = 6 ∨ d = 7
          ∨ d = 8 ∨ d = 9)%N as Hd by lia.
  repeat (destruct Hd as [->|Hd]; [reflexivity|]). subst. reflexivity.
Qed.

Lemma leading_pretty_N_go (x : N) :
  (0 < x)%N → ∀ (s : string) (rest : list ascii),
  leading (list_ascii_of_string (pretty_N_go x s) ++ rest)
  = Some (digits (Z.of_N x) (list_ascii_of_string s ++ rest)).
Proof.
  induction (N.lt_wf_0 x) as [x _ IH]. intros Hx s rest.
  rewrite pretty_N_go_step by exact Hx.
  destruct (decide (0 < x `div` 10)%N) as [Hq|Hq].
  - rewrite IH; [|apply N.div_lt; lia|exact Hq].
    simpl. rewrite digitOf_pretty_N_char by (apply N.mod_lt; lia).
    do 2 f_equal. pose proof (N.div_mod' x 10). lia.
  - assert (Hz : (x `div` 10 = 0)%N).
    { apply N.le_0_r, N.nlt_ge. exact Hq. }
    rewrite Hz, pretty_N_go_0.
    assert (Hm : (x `mod` 10 = x)%N).
    { pose proof (N.div_mod' x 10) as E. rewrite Hz in E.
      rewrite N.mul_0_r, N.add_0_l in E. congruence. }
    rewrite Hm. simpl.
    rewrite digitOf_pretty_N_char by (pose proof (N.mod_lt x 10); lia).
    destruct (Z.eqb_spec (Z.of_N x) 0); [lia|reflexivity].
Qed.

Lemma natural_pretty (n : Z) (rest : list ascii) :
  0 ≤ n → closed rest →
  natural (list_ascii_of_string (pretty n) ++ rest) = Some (n, rest).
Proof.
  intros Hn Hc. unfold natural. destruct n as [|p|p]; [| |lia].
  - simpl. destruct rest as [|c r]; [reflexivity|]. destruct Hc as [Hd Hf].
    simpl. rewrite Hd. simpl. simpl in Hf. rewrite Hf. reflexivity.
  - unfold pretty, pretty_Z, pretty, pretty_positive, pretty, pretty_N.
    destruct (decide (N.pos p = 0%N)); [discriminate|].
    rewrite leading_pretty_N_go by lia. simpl.
    rewrite digits_closed by exact Hc. simpl.
    destruct rest as [|c r]; [reflexivity|]. destruct Hc as [_ Hf].
    rewrite Hf. reflexivity.
Qed.


Lemma json_nested_ind (P : json → Prop) :
  P JNull → (∀ b, P (JBool b)) → (∀ n, P (JNum n)) → (∀ s, P (JStr s)) →
  (∀ l, Forall P l → P (JArr l)) →
  (∀ o, Forall (λ kv, P kv.2) o → P (JObj o)) →
  ∀ v, P v.
Proof.
  intros HN HB HZ HS HA HO. fix IH 1. intros [ | b | n | s | l | o].
  - exact HN.
  - apply HB.
  - apply HZ.
  - apply HS.
  - apply HA. induction l as [|x l IHl]; constructor; [apply IH|exact IHl].
  - apply HO. induction o as [|[k x] o IHo]; constructor; [apply IH|exact IHo].
Qed.

Ltac each_head H :=
  repeat (apply elem_of_cons in H as [->|H]); [..|apply elem_of_nil in H; destruct H].

Lemma pretty_N_char_head (k : N) : (k < 10)%N → pretty_N_char k ∈ headChars.
Proof.
  intros H.
  assert (k = 0 ∨ k = 1 ∨ k = 2 ∨ k = 3 ∨ k = 4 ∨ k = 5 ∨ k = 6 ∨ k = 7
          ∨ k = 8 ∨ k = 9)%N as Hk by lia.
  unfold headChars.
  repeat (destruct Hk as [->|Hk]; [simpl; set_solver|]). subst. simpl. set_solver.
Qed.

Lemma pretty_N_go_head (x : N) :
  (0 < x)%N → ∀ s : string,
  ∃ c r, list_ascii_of_string (pretty_N_go x s) = c :: r ∧ c ∈ headChars.
Proof.
  induction (N.lt_wf_0 x) as [x _ IH]. intros Hx s.
  rewrite pretty_N_go_step by exact Hx.
  destruct (decide (0 < x `div` 10)%N) as [Hq|Hq].
  - apply IH; [apply N.div_lt; lia|exact Hq].
  - assert (Hz : (x `div` 10 = 0)%N).
    { apply N.le_0_r, N.nlt_ge. exact Hq. }
    rewrite Hz, pretty_N_go_0. simpl. eexists _, _. split; [reflexivity|].
    apply pretty_N_char_head. apply N.mod_lt. lia.
Qed.

Lemma render_head (d : nat) (v : json) :
  ∃ c r, render d v = c :: r ∧ c ∈ headChars.
Proof.
  destruct v as [ | [] | n | s | l | o]; simpl.
  - eexists _, _. split; [reflexivity|]. unfold headChars. set_solver.
  - eexists _, _. split; [reflexivity|]. unfold headChars. set_solver.
  - eexists _, _. split; [reflexivity|]. unfold headChars. set_solver.
  - destruct n as [|p|p].
    + eexists _, _. split; [reflexivity|]. unfold headChars. set_solver.
    + unfold pretty, pretty_Z, pretty, pretty_positive, pretty, pretty_N.
      destruct (decide (N.pos p = 0%N)); [discriminate|].
      apply pretty_N_go_head. lia.
    + eexists _, _. split; [reflexivity|]. unfold headChars. set_solver.
  - eexists _, _. split; [reflexivity|]. unfold headChars. set_solver.
  - destruct l; eexists _, _; (split; [reflexivity|]); unfold headChars; set_solver.
  - destruct o; eexists _, _; (split; [reflexivity|]); unfold headChars; set_solver.
Qed.

Lemma skipWs_head (c : ascii) (r : list ascii) :
  c ∈ headChars → skipWs (c :: r) = c :: r.
Proof. intros H. unfold headChars in H. each_head H; reflexivity. Qed.

Lemma skipWs_indentation (d : nat) (s : list ascii) :
  skipWs (indentation d ++ s) = skipWs s.
Proof.
  unfold indentation. induction (2 * d)%nat as [|n IH]; [reflexivity|]. exact IH.
Qed.

Lemma skipWs_line (d : nat) (s : list ascii) :
  skipWs (newline :: indentation d ++ s) = skipWs s.
Proof. apply skipWs_indentation. Qed.

Lemma skipWs_render (d : nat) (v : json) (rest : list ascii) :
  skipWs (render d v ++ rest) = render d v ++ rest.
Proof.
  destruct (render_head d v) as (c & r & -> & H). apply skipWs_head. exact H.
Qed.

Lemma value_skip (f : nat) (s : list ascii) :
  value f (skipWs s) = value f s.
Proof.
  destruct f; [reflexivity|]. simpl.
  assert (E : skipWs (skipWs s) = skipWs s).
  { induction s as [|c s IH]; [reflexivity|]. simpl.
    destruct (isWs c) eqn:Hc; [exact IH|]. simpl. rewrite Hc. reflexivity. }
  rewrite E. reflexivity.
Qed.

Lemma value_line (f d : nat) (s : list ascii) :
  value f (newline :: indentation d ++ s) = value f s.
Proof. rewrite <- value_skip, skipWs_line, value_skip. reflexivity. Qed.


Lemma weight_JArr (l : list json) : weight (JArr l) = S (itemsWeight l).
Proof. reflexivity. Qed.

Lemma weight_JObj (o : obj) : weight (JObj o) = S (membersWeight o).
Proof. reflexivity. Qed.

Lemma value_digit (f : nat) (c : ascii) (r : list ascii) (d : Z) :
  c ∈ headChars → digitOf c = Some d →
  value (S f) (c :: r) = '(n, rest) ← natural (c :: r); Some (JNum n, rest).
Proof.
  intros H Hd. unfold headChars in H. each_head H; try discriminate Hd; reflexivity.
Qed.

Lemma value_array (f : nat) (r : list ascii) :
  (∃ c r1, skipWs r = c :: r1 ∧ c ∈ headChars) →
  value (S f) ("[" :: r) = '(vs, rest) ← elements f r; Some (JArr vs, rest).
Proof.
  intros (c & r1 & E & H). simpl. rewrite E. unfold headChars in H. each_head H; reflexivity.
Qed.

Lemma value_object (f : nat) (r : list ascii) :
  (∃ c r1, skipWs r = c :: r1 ∧ c ∈ headChars) →
  value (S f) ("{" :: r) = '(kvs, rest) ← members f r; Some (JObj kvs, rest).
Proof.
  intros (c & r1 & E & H). simpl. rewrite E. unfold headChars in H. each_head H; reflexivity.
Qed.

Lemma elements_S (f : nat) (s : list ascii) :
  elements (S f) s
  = '(v, rest) ← value f s;
    match skipWs rest with
    | "," :: r => '(vs, rest') ← elements f r; Some (v :: vs, rest')
    | "]" :: r => Some ([v], r)
    | _ => None
    end.
Proof. reflexivity. Qed.

Lemma members_S (f : nat) (s r : list ascii) :
  skipWs s = dquote :: r →
  members (S f) s
  = '(cs, rest) ← stringBody r;
    match skipWs rest with
    | ":" :: r1 =>
        '(v, rest1) ← value f r1;
        let k := string_of_list_ascii cs in
        match skipWs rest1 with
        | "," :: r2 => '(kvs, rest2) ← members f r2; Some ((k, v) :: kvs, rest2)
        | "}" :: r2 => Some ([(k, v)], r2)
        | _ => None
        end
    | _ => None
    end.
Proof. intros E. simpl. rewrite E. reflexivity. Qed.

Lemma skipWs_comma (s : list ascii) : skipWs ("," :: s) = "," :: s.
Proof. reflexivity. Qed.

Lemma closed_line (d : nat) (s : list ascii) : closed (newline :: indentation d ++ s).
Proof. split; reflexivity. Qed.

Lemma closed_comma (s : list ascii) : closed ("," :: s).
Proof. split; reflexivity. Qed.

(** The items of a non-empty array, from after the opening bracket. *)
Lemma elements_render (d d0 : nat) (l : list json) (rest : list ascii) :
  Forall (λ v, ∀ d rest fuel, weight v ≤ fuel → closed rest →
               value fuel (render d v ++ rest) = Some (v, rest))%nat l →
  l ≠ [] →
  ∀ fuel, (itemsWeight l ≤ fuel)%nat →
  elements fuel
    (newline :: indentation d ++ joinLines d (map (render d) l)
       ++ newline :: indentation d0 ++ "]" :: rest)
  = Some (l, rest).
Proof.
  induction 1 as [|x l Hx Hl IH]; intros Hne fuel Hfuel; [congruence|].
  destruct fuel as [|f]; [simpl in Hfuel; lia|]. simpl in Hfuel.
  rewrite elements_S, value_line.
  destruct l as [|y l].
  - simpl joinLines. rewrite Hx; [|lia|apply closed_line].
    unfold mbind, option_bind. rewrite skipWs_line. reflexivity.
  - change (joinLines d (map (render d) (x :: y :: l)))
      with (render d x ++ "," :: newline :: indentation d
              ++ joinLines d (map (render d) (y :: l))).
    rewrite <- !(assoc_L (++)). rewrite Hx; [|lia|apply closed_comma].
    unfold mbind, option_bind.
    rewrite <- !app_comm_cons, <- !(assoc_L (++)).
    rewrite skipWs_comma. cbv beta iota.
    rewrite (IH ltac:(discriminate) f); [reflexivity|]. simpl in *. lia.
Qed.


Lemma value_space (f : nat) (s : list ascii) : value f (" " :: s) = value f s.
Proof. rewrite <- value_skip. change (skipWs (" " :: s)) with (skipWs s). apply value_skip. Qed.

Lemma member_step (f d d' : nat) (k : string) (x : json) (tail : list ascii) :
  (∀ d rest fuel, weight x ≤ fuel → closed rest →
                  value fuel (render d x ++ rest) = Some (x, rest))%nat →
  (weight x ≤ f)%nat → closed tail →
  members (S f)
    (newline :: indentation d ++ (quote k ++ ":" :: " " :: render d' x) ++ tail)
  = match skipWs tail with
    | "," :: r2 => '(kvs, rest2) ← members f r2; Some ((k, x) :: kvs, rest2)
    | "}" :: r2 => Some ([(k, x)], r2)
    | _ => None
    end.
Proof.
  intros Hx Hf Hc.
  rewrite (members_S f _
             ((list_ascii_of_string k ≫= quoteChar)
                ++ dquote :: ":" :: " " :: render d' x ++ tail)).
  2:{ rewrite skipWs_line. unfold quote.
      rewrite <- !app_comm_cons, <- !(assoc_L (++)). reflexivity. }
  rewrite stringBody_quoted. unfold mbind, option_bind.
  change (skipWs (":" :: ?s)) with (":" :: s). cbv beta iota.
  rewrite value_space, Hx by assumption.
  rewrite string_of_list_ascii_of_string. reflexivity.
Qed.

Lemma members_render (d d0 : nat) (o : obj) (rest : list ascii) :
  Forall (λ kv : string * json,
            ∀ d rest fuel, weight kv.2 ≤ fuel → closed rest →
              value fuel (render d kv.2 ++ rest) = Some (kv.2, rest))%nat o →
  o ≠ [] →
  ∀ fuel, (membersWeight o ≤ fuel)%nat →
  members fuel
    (newline :: indentation d
       ++ joinLines d
            (map (λ kv : string * json,
                    quote kv.1 ++ ":" :: " " :: render d kv.2) o)
       ++ newline :: indentation d0 ++ "}" :: rest)
  = Some (o, rest).
Proof.
  induction 1 as [|[k x] o Hx Ho IH]; intros Hne fuel Hfuel; [congruence|].
  destruct fuel as [|f]; [simpl in Hfuel; lia|]. simpl in Hfuel, Hx.
  destruct o as [|[k' y] o].
  - change (joinLines d (map ?g [(k, x)]))
      with (quote k ++ ":" :: " " :: render d x).
    rewrite member_step; [|exact Hx|lia|apply closed_line].
    rewrite skipWs_line. reflexivity.
  - change (joinLines d (map ?g ((k, x) :: (k', y) :: o)))
      with ((quote k ++ ":" :: " " :: render d x) ++ "," :: newline :: indentation d
              ++ joinLines d (map g ((k', y) :: o))).
    rewrite <- !(assoc_L (++) (quote k ++ ":" :: " " :: render d x)).
    rewrite member_step; [|exact Hx|lia|apply closed_comma].
    rewrite <- !app_comm_cons, <- !(assoc_L (++)).
    rewrite skipWs_comma. cbv beta iota.
    rewrite (IH ltac:(discriminate) f); [reflexivity|]. simpl in *. lia.
Qed.

Ltac norm_app :=
  repeat (rewrite <- app_comm_cons || rewrite <- (assoc_L (++))).

(** Reading back what [render] wrote. *)
Lemma value_render (v : json) :
  ∀ (d : nat) (rest : list ascii) (fuel : nat),
  (weight v ≤ fuel)%nat → closed rest →
  value fuel (render d v ++ rest) = Some (v, rest).
Proof.
  induction v as [ | b | n | s | l IHl | o IHo] using json_nested_ind;
    intros d rest fuel Hfuel Hc;
    (destruct fuel as [|f]; [simpl in Hfuel; lia|]).
  - reflexivity.
  - destruct b; reflexivity.
  - destruct (Z_lt_le_dec n 0) as [Hn|Hn].
    + destruct n as [|p|p]; try lia.
      change (render d (JNum (Z.neg p)))
        with ("-" :: list_ascii_of_string (pretty (Z.pos p))).
      change (value (S f) (("-" :: ?r) ++ rest))
        with ('(n, rest') ← natural (r ++ rest); Some (JNum (- n), rest')).
      rewrite natural_pretty by (lia || exact Hc). reflexivity.
    + pose proof (natural_pretty n rest Hn Hc) as Hnat.
      destruct (render_head d (JNum n)) as (c & r & E & Hh).
      change (render d (JNum n)) with (list_ascii_of_string (pretty n)) in *.
      rewrite E in *. rewrite <- app_comm_cons in *.
      destruct (digitOf c) as [k|] eqn:Hk.
      * rewrite (value_digit f c (r ++ rest) k Hh Hk), Hnat. reflexivity.
      * unfold natural, leading in Hnat. rewrite Hk in Hnat. discriminate.
  - change (render d (JStr s)) with (quote s). unfold quote.
    norm_app.
    change (value (S f) (dquote :: ?x))
      with ('(cs, rest') ← stringBody x; Some (JStr (string_of_list_ascii cs), rest')).
    change ([dquote] ++ rest) with (dquote :: rest).
    rewrite stringBody_quoted. simpl.
    rewrite string_of_list_ascii_of_string. reflexivity.
  - destruct l as [|x l]; [reflexivity|].
    change (render d (JArr (x :: l)))
      with ("[" :: newline :: indentation (S d)
              ++ joinLines (S d) (map (render (S d)) (x :: l))
              ++ newline :: indentation d ++ ["]"]).
    norm_app.
    destruct (render_head (S d) x) as (c & r & E & Hh).
    rewrite value_array.
    + change (["]"] ++ rest) with ("]" :: rest).
      rewrite elements_render; [reflexivity|exact IHl|discriminate|].
      rewrite weight_JArr in Hfuel. lia.
    + rewrite skipWs_line.
      destruct l; simpl joinLines; simpl map; rewrite E; norm_app;
        eexists _, _; (split; [apply skipWs_head; exact Hh|exact Hh]).
  - destruct o as [|[k x] o]; [reflexivity|].
    change (render d (JObj ((k, x) :: o)))
      with ("{" :: newline :: indentation (S d)
              ++ joinLines (S d)
                   (map (λ kv : string * json,
                           quote kv.1 ++ ":" :: " " :: render (S d) kv.2)
                      ((k, x) :: o))
              ++ newline :: indentation d ++ ["}"]).
    norm_app.
    rewrite value_object.
    + change (["}"] ++ rest) with ("}" :: rest).
      rewrite members_render; [reflexivity|exact IHo|discriminate|].
      rewrite weight_JObj in Hfuel. lia.
    + rewrite skipWs_line.
      destruct o; eexists _, _; (split; [reflexivity|unfold headChars; set_solver]).
Qed.


Lemma render_nonempty (d : nat) (v : json) : (1 ≤ length (render d v))%nat.
Proof. destruct (render_head d v) as (c & r & -> & _). simpl. lia. Qed.

Lemma itemsWeight_joinLines (d : nat) (l : list json) :
  Forall (λ v, ∀ d, weight v ≤ length (render d v))%nat l →
  (itemsWeight l ≤ length (joinLines d (map (render d) l)) + 1)%nat.
Proof.
  induction 1 as [|x l Hx Hl IH]; [simpl; lia|].
  destruct l as [|y l].
  - simpl. specialize (Hx d). rewrite Nat.add_0_r. lia.
  - change (joinLines d (map (render d) (x :: y :: l)))
      with (render d x ++ "," :: newline :: indentation d
              ++ joinLines d (map (render d) (y :: l))).
    change (itemsWeight (x :: y :: l)) with (S (weight x + itemsWeight (y :: l))).
    set (J := joinLines d (map (render d) (y :: l))) in *.
    rewrite length_app. simpl length. rewrite length_app.
    specialize (Hx d). lia.
Qed.

Lemma membersWeight_joinLines (d : nat) (o : obj) :
  Forall (λ kv : string * json, ∀ d, weight kv.2 ≤ length (render d kv.2))%nat o →
  (membersWeight o
   ≤ length (joinLines d
               (map (λ kv : string * json,
                       quote kv.1 ++ ":" :: " " :: render d kv.2) o)) + 1)%nat.
Proof.
  induction 1 as [|[k x] o Hx Ho IH]; [simpl; lia|].
  simpl in Hx. specialize (Hx d).
  destruct o as [|[k' y] o].
  - change (joinLines d (map ?g [(k, x)]))
      with (quote k ++ ":" :: " " :: render d x).
    simpl membersWeight. rewrite length_app. simpl length. lia.
  - change (joinLines d (map ?g ((k, x) :: (k', y) :: o)))
      with ((quote k ++ ":" :: " " :: render d x) ++ "," :: newline :: indentation d
              ++ joinLines d (map g ((k', y) :: o))).
    change (membersWeight ((k, x) :: (k', y) :: o))
      with (S (weight x + membersWeight ((k', y) :: o))).
    set (J := joinLines d (map _ ((k', y) :: o))) in *.
    rewrite !length_app. simpl length. rewrite !length_app. lia.
Qed.

Lemma weight_le_length (v : json) :
  ∀ d, (weight v ≤ length (render d v))%nat.
Proof.
  induction v as [ | b | n | s | l IHl | o IHo] using json_nested_ind; intros d;
    try apply render_nonempty.
  - rewrite weight_JArr. destruct l as [|x l]; [simpl; lia|].
    pose proof (itemsWeight_joinLines (S d) (x :: l) IHl) as H.
    change (render d (JArr (x :: l)))
      with ("[" :: newline :: indentation (S d)
              ++ joinLines (S d) (map (render (S d)) (x :: l))
              ++ newline :: indentation d ++ ["]"]).
    set (J := joinLines (S d) (map (render (S d)) (x :: l))) in *.
    simpl length. rewrite !length_app. simpl length. lia.
  - rewrite weight_JObj. destruct o as [|[k x] o]; [simpl; lia|].
    pose proof (membersWeight_joinLines (S d) ((k, x) :: o) IHo) as H.
    change (render d (JObj ((k, x) :: o)))
      with ("{" :: newline :: indentation (S d)
              ++ joinLines (S d)
                   (map (λ kv : string * json,
                           quote kv.1 ++ ":" :: " " :: render (S d) kv.2)
                      ((k, x) :: o))
              ++ newline :: indentation d ++ ["}"]).
    set (J := joinLines (S d) (map _ ((k, x) :: o))) in *.
    simpl length. rewrite !length_app. simpl length. lia.
Qed.

Lemma json_wf_JArr (l : list json) : json_wf (JArr l) ↔ Forall json_wf l.
Proof.
  simpl. induction l as [|x l IH]; [split; [constructor|trivial]|].
  rewrite list.Forall_cons, <- IH. reflexivity.
Qed.

Lemma json_wf_JObj (o : obj) :
  json_wf (JObj o) ↔ NoDup o.*1 ∧ Forall (λ kv, json_wf kv.2) o.
Proof.
  simpl. apply and_iff_compat_l.
  induction o as [|[k x] o IH]; [split; [constructor|trivial]|].
  rewrite list.Forall_cons, <- IH. reflexivity.
Qed.

Lemma prop_None (k : string) (o : obj) : k ∉ o.*1 → prop k o = None.
Proof.
  induction o as [|[k' v] o IH]; [reflexivity|]. simpl. intros H.
  apply not_elem_of_cons in H as [Hne H].
  destruct (String.eqb_spec k k'); [contradiction|]. apply IH. exact H.
Qed.

Lemma obj_set_fresh (k : string) (v : json) (o : obj) :
  k ∉ o.*1 → obj_set k v o = o ++ [(k, v)].
Proof.
  induction o as [|[k' v'] o IH]; [reflexivity|]. simpl. intros H.
  apply not_elem_of_cons in H as [Hne H].
  destruct (String.eqb_spec k k'); [contradiction|]. rewrite IH by exact H. reflexivity.
Qed.

Lemma insertAll_fresh (o acc : obj) :
  NoDup (acc.*1 ++ o.*1) → insertAll o acc = acc ++ o.
Proof.
  revert acc. induction o as [|[k x] o IH]; intros acc H; simpl.
  - rewrite app_nil_r. reflexivity.
  - simpl in H. rewrite obj_set_fresh.
    + rewrite IH; [rewrite <- (assoc_L (++)); reflexivity|].
      rewrite fmap_app. simpl. rewrite <- (assoc_L (++)). exact H.
    + apply NoDup_app in H as (_ & H & _). intros Hin.
      apply (H k Hin). left.
Qed.

Lemma dedup_wf (v : json) : json_wf v → dedup v = v.
Proof.
  induction v as [ | b | n | s | l IHl | o IHo] using json_nested_ind;
    intros Hwf; try reflexivity.
  - apply json_wf_JArr in Hwf. simpl. f_equal.
    induction IHl as [|x l Hx _ IH]; [reflexivity|].
    apply list.Forall_cons in Hwf as [Hwx Hwl].
    simpl. rewrite Hx by exact Hwx. rewrite IH by exact Hwl. reflexivity.
  - apply json_wf_JObj in Hwf as [Hnd Hwf]. simpl. f_equal.
    assert (E : map (λ kv : string * json, (kv.1, dedup kv.2)) o = o).
    { clear Hnd. induction IHo as [|[k x] o Hx _ IH]; [reflexivity|].
      apply list.Forall_cons in Hwf as [Hwx Hwl]. simpl in *.
      rewrite Hx by exact Hwx. rewrite IH by exact Hwl. reflexivity. }
    rewrite E. rewrite insertAll_fresh; [reflexivity|exact Hnd].
Qed.

(** The reference parser reads back what the reference printer wrote. *)
Lemma parse_stringify (v : json) :
  json_wf v → parse (stringify v) = Some v.
Proof.
  intros Hwf. unfold parse, stringify.
  rewrite list_ascii_of_string_of_list_ascii.
  rewrite <- (app_nil_r (render 0 v)) at 2.
  rewrite value_render; [|pose proof (weight_le_length v 0); lia|exact I].
  simpl. rewrite dedup_wf by exact Hwf. reflexivity.
Qed.

End RefPlatformFacts.

(** On the reference platform the snapshot of any store of proper records
    parses back to the records exported. *)
Lemma reference_codec_reads_back_exports (s : Store) :
  map_Forall (λ _ o, RefPlatform.json_wf (JObj o)) s →
  RefPlatform.parse (exportSnapshot RefPlatform.stringify s)
  = Some (JArr (JObj <$> getAll s)).
Proof.
  intros Hwf. unfold exportSnapshot.
  apply RefPlatformFacts.parse_stringify.
  apply RefPlatformFacts.json_wf_JArr, Forall_fmap.
  destruct (getAll_sorted_entries s) as (l & Hperm & ->).
  apply Forall_fmap. rewrite Hperm.
  apply list.Forall_forall. intros [k o] Hin. simpl.
  apply elem_of_map_to_list in Hin. exact (Hwf k o Hin).
Qed.

(** On the reference platform, importing the snapshot of a store of proper
    records restores that store in any session with an open database. *)
Lemma reference_round_trip (P : Store) (s' : AppState) :
  db s' = true →
  store_wf P →
  map_Forall (λ _ o, RefPlatform.json_wf (JObj o)) P →
  idb (restoreData RefPlatform.parse (exportSnapshot RefPlatform.stringify P) s')
  = P.
Proof.
  intros Hdb Hwf Hrec.
  rewrite (restoreData_exported RefPlatform.stringify RefPlatform.parse P s' Hdb Hwf
             (reference_codec_reads_back_exports P Hrec)).
  reflexivity.
Qed.

(** ** The component on the sample data *)

Lemma store_wf_insert (k : idb_key) (o : obj) (s : Store) :
  extract_key o = Some k → store_wf s → store_wf (<[k:=o]> s).
Proof.
  intros Hk Hwf k' o' H. destruct (decide (k = k')) as [<-|Hne].
  - rewrite lookup_insert_eq in H. congruence.
  - rewrite lookup_insert_ne in H by exact Hne. apply Hwf. exact H.
Qed.

Lemma sample_store_wf : store_wf Sample.store.
Proof.
  unfold Sample.store.
  apply store_wf_insert; [reflexivity|].
  apply store_wf_insert; [reflexivity|].
  apply store_wf_empty.
Qed.

(** C4 on two snapshots of the wrong shape.  ["{}"] parses, but not to an
    array: the import empties the store of the session (two records lost)
    and reports the error, while the screen still lists the two patients.
    An array whose second element is the number 5 leaves the store holding
    the first element only: a partial write. *)
Theorem restore_wrong_shape_destroys_store :
  let s1 := restoreData RefPlatform.parse "{}" Sample.session in
  let s2 := restoreData RefPlatform.parse Sample.brokenSnapshot Sample.session in
  RefPlatform.parse "{}" = Some (JObj [])
  ∧ size (idb Sample.session) = 2%nat
  ∧ idb s1 = ∅
  ∧ patients s1 = patients Sample.session
  ∧ alerts s1 = ["Error restoring data. Please check the backup file format."]
  ∧ RefPlatform.parse Sample.brokenSnapshot
    = Some (JArr [JObj [("id", JStr "1"); ("name", JStr "Meera")]; JNum 5])
  ∧ idb s2 = {[ KStr "1" := [("id", JStr "1"); ("name", JStr "Meera")] ]}
  ∧ alerts s2 = ["Error restoring data. Please check the backup file format."].
Proof. cbv zeta. repeat apply conj; vm_compute; reflexivity. Qed.

(** C3 fails as stated: with [interval = 1] and
    [lastBackup = now - 61000] the tick at [now] delivers its backup, but
    the export completes a quarter of a second later and [lastBackup]
    becomes that later clock value, not [now].  And while the database has
    not opened, the same tick delivers nothing. *)
Lemma poll_tick_records_completion_time :
  let now := 1700000061000 in
  let s' := pollTick RefPlatform.stringify RefPlatform.isoDate
              now 1700000061250 Sample.armed in
  let closed := toggleAutomaticBackup 1700000000000
                  (updateBackupInterval 1
                     (mountState "2023-11-14" Sample.store)) in
  (enabled (backupConfig Sample.armed) = true
   ∧ interval (backupConfig Sample.armed) = 1
   ∧ lastBackup (backupConfig Sample.armed) = now - 61000
   ∧ length (downloads s') = S (length (downloads Sample.armed))
   ∧ lastBackup (backupConfig s') = 1700000061250
   ∧ lastBackup (backupConfig s') ≠ now)
  ∧ (enabled (backupConfig closed) = true
     ∧ interval (backupConfig closed) = 1
     ∧ lastBackup (backupConfig closed) = now - 61000
     ∧ pollTick RefPlatform.stringify RefPlatform.isoDate
         now 1700000061250 closed = closed
     ∧ downloads closed = []).
Proof.
  cbv zeta. split.
  - repeat apply conj; try (vm_compute; reflexivity).
    vm_compute. intros H. discriminate H.
  - repeat apply conj; vm_compute; reflexivity.
Qed.

(** C8 fails as stated: with the interval at 1 minute, the smallest the
    settings declare, the schedule enabled at 1700000000000 fires on the
    next poll tick, a minute later. *)
Lemma arming_at_one_minute_fires_on_next_tick :
  let s := updateBackupInterval 1 Sample.session in
  let s' := toggleAutomaticBackup 1700000000000 s in
  enabled (backupConfig s) = false
  ∧ interval (backupConfig s) = 1
  ∧ lastBackup (backupConfig s') = 1700000000000
  ∧ downloads s' = []
  ∧ length (downloads
              (timerRun RefPlatform.stringify RefPlatform.isoDate 1
                 1700000000000 250 s').1) = 1%nat
  ∧ length (downloads
              (pollTick RefPlatform.stringify RefPlatform.isoDate
                 1700000060000 1700000060250 s')) = 1%nat.
Proof. cbv zeta. repeat apply conj; vm_compute; reflexivity. Qed.


(** C7 fails as stated: two patients added at the same clock value get the
    same id, and so do two medications added to one patient at the same
    clock value. *)
Lemma same_clock_value_same_id :
  ¬ NoDup (patientIds (patients
       (runAdds RefPlatform.isoDate
          [OpAddPatient (Sample.patientDraft "Asha") 1700000000000;
           OpAddPatient (Sample.patientDraft "Ravi") 1700000000000]
          Sample.fresh)))
  ∧ ¬ Forall (λ p, NoDup (medicationIds p))
        (patients
           (runAdds RefPlatform.isoDate
              [OpAddPatient (Sample.patientDraft "Asha") 1700000000000;
               OpSelect 0;
               OpAddMedication Sample.medicationDraft 1700000000500;
               OpAddMedication Sample.medicationDraft 1700000000500]
              Sample.fresh)).
Proof.
  split.
  - assert (E : patientIds (patients
       (runAdds RefPlatform.isoDate
          [OpAddPatient (Sample.patientDraft "Asha") 1700000000000;
           OpAddPatient (Sample.patientDraft "Ravi") 1700000000000]
          Sample.fresh))
      = [Some (JStr "1700000000000"); Some (JStr "1700000000000")])
      by (vm_compute; reflexivity).
    rewrite E. intros H. apply list.NoDup_cons in H as [H _]. apply H. left.
  - intros H. apply Forall_fmap in H. revert H.
    assert (E : medicationIds <$> patients
           (runAdds RefPlatform.isoDate
              [OpAddPatient (Sample.patientDraft "Asha") 1700000000000;
               OpSelect 0;
               OpAddMedication Sample.medicationDraft 1700000000500;
               OpAddMedication Sample.medicationDraft 1700000000500]
              Sample.fresh)
      = [[Some (JStr "1700000000500"); Some (JStr "1700000000500")]])
      by (vm_compute; reflexivity).
    rewrite E. intros H. apply list.Forall_cons in H as [H _].
    apply list.NoDup_cons in H as [H _]. apply H. left.
Qed.

(** ** The theorems at work on the sample data *)

(** Export of the sample session, import into a session over an empty
    store. *)
Lemma export_import_round_trip_sample :
  db Sample.session = true
  ∧ db Sample.fresh = true
  ∧ store_wf (idb Sample.session)
  ∧ RefPlatform.parse (exportSnapshot RefPlatform.stringify (idb Sample.session))
    = Some (JArr (JObj <$> getAll (idb Sample.session)))
  ∧ idb (restoreData RefPlatform.parse
           (exportSnapshot RefPlatform.stringify (idb Sample.session))
           Sample.fresh)
    = idb Sample.session.
Proof.
  assert (h1 : db Sample.session = true) by (vm_compute; reflexivity).
  assert (h2 : db Sample.fresh = true) by (vm_compute; reflexivity).
  assert (h3 : store_wf (idb Sample.session)) by exact sample_store_wf.
  assert (h4 : RefPlatform.parse
                 (exportSnapshot RefPlatform.stringify (idb Sample.session))
               = Some (JArr (JObj <$> getAll (idb Sample.session))))
    by (vm_compute; reflexivity).
  repeat (split; [assumption|]).
  destruct (export_import_round_trip RefPlatform.stringify RefPlatform.parse
              RefPlatform.isoDate Sample.session Sample.fresh 1700000100000
              h1 h2 h3 h4) as (name & text & _ & -> & Hidb & _).
  exact Hidb.
Defined.

(** Three backups with room for two. *)
Lemma backup_history_bounded_sample :
  let s := changeMaxBackups 2 Sample.session in
  let evs := [Manual 1700000000000; Automatic 1700003600000;
              Manual 1700007200000] in
  1 ≤ maxBackups (backupConfig s)
  ∧ db s = true
  ∧ Z.of_nat (length (backupHistory s)) ≤ maxBackups (backupConfig s)
  ∧ Z.of_nat (length (backupHistory
         (runBackups RefPlatform.stringify RefPlatform.isoDate evs s)))
    ≤ maxBackups (backupConfig s)
  ∧ backupHistory (runBackups RefPlatform.stringify RefPlatform.isoDate evs s)
    = take (Z.to_nat (maxBackups (backupConfig s)))
        (reverse (entryOf RefPlatform.isoDate <$> evs) ++ backupHistory s).
Proof.
  intros s evs.
  assert (h1 : 1 ≤ maxBackups (backupConfig s))
    by (vm_compute; intros H; discriminate H).
  assert (h2 : db s = true) by (vm_compute; reflexivity).
  assert (h3 : Z.of_nat (length (backupHistory s)) ≤ maxBackups (backupConfig s))
    by (vm_compute; intros H; discriminate H).
  repeat (split; [assumption|]).
  destruct (backup_history_bounded_newest_first RefPlatform.stringify
              RefPlatform.isoDate s evs h1) as (Hlen & _ & Horder).
  split; [exact (Hlen h3)|exact (Horder h2 h3)].
Defined.

(** The armed sample scheduler, 61 seconds after its last backup; the
    export completes a quarter of a second after the tick. *)
Lemma poll_tick_fires_sample :
  enabled (backupConfig Sample.armed) = true
  ∧ db Sample.armed = true
  ∧ interval (backupConfig Sample.armed) = 1
  ∧ lastBackup (backupConfig Sample.armed) = 1700000061000 - 61000
  ∧ length (downloads (pollTick RefPlatform.stringify RefPlatform.isoDate
                         1700000061000 1700000061250 Sample.armed))
    = S (length (downloads Sample.armed))
  ∧ lastBackup (backupConfig
        (pollTick RefPlatform.stringify RefPlatform.isoDate
           1700000061000 1700000061250 Sample.armed))
    = 1700000061250.
Proof.
  assert (h1 : enabled (backupConfig Sample.armed) = true)
    by (vm_compute; reflexivity).
  assert (h2 : db Sample.armed = true) by (vm_compute; reflexivity).
  assert (h3 : interval (backupConfig Sample.armed) = 1)
    by (vm_compute; reflexivity).
  assert (h4 : lastBackup (backupConfig Sample.armed) = 1700000061000 - 61000)
    by (vm_compute; reflexivity).
  repeat (split; [assumption|]).
  pose proof (poll_tick_fires_when_due RefPlatform.stringify RefPlatform.isoDate
                Sample.armed 1700000061000 1700000061250 h1 h2) as H.
  cbv zeta in H. destruct H as (_ & _ & _ & _ & _ & _ & H).
  destruct (H h3 h4) as (_ & Hone & Hlast & _).
  split; [exact Hone|exact Hlast].
Defined.

(** Arming the sample session with an interval of two minutes; the next
    poll tick comes 60.004 seconds later. *)
Lemma toggle_arms_sample :
  let s := updateBackupInterval 2 Sample.session in
  let s' := toggleAutomaticBackup 1700000000000 s in
  enabled (backupConfig s) = false
  ∧ 1700000000000 + 60000 ≤ 1700000060004 < 1700000000000 + 120000
  ∧ 2 ≤ interval (backupConfig s)
  ∧ lastBackup (backupConfig s') = 1700000000000
  ∧ pollTick RefPlatform.stringify RefPlatform.isoDate
      1700000060004 1700000060250 s' = s'.
Proof.
  intros s s'.
  assert (h1 : enabled (backupConfig s) = false) by (vm_compute; reflexivity).
  assert (h2 : 1700000000000 + 60000 ≤ 1700000060004 < 1700000000000 + 120000)
    by lia.
  assert (h3 : 2 ≤ interval (backupConfig s))
    by (vm_compute; intros H; discriminate H).
  repeat (split; [assumption|]).
  pose proof (toggle_arms_from_now RefPlatform.stringify RefPlatform.isoDate
                s 1700000000000) as H.
  cbv zeta in H. destruct H as (_ & _ & H & _).
  destruct (H h1) as (_ & Hlast & _ & _ & Hnext & _).
  split; [exact Hlast|].
  exact (proj1 (Hnext 1700000060004 1700000060250 h2) h3).
Defined.


(** Two patients, then two medications for the first, at four successive
    clock values. *)
Lemma add_ids_distinct_sample :
  let ops := [OpAddPatient (Sample.patientDraft "Asha") 1700000000000;
              OpAddPatient (Sample.patientDraft "Ravi") 1700000000001;
              OpSelect 0;
              OpAddMedication Sample.medicationDraft 1700000000500;
              OpAddMedication Sample.medicationDraft 1700000000501] in
  patients Sample.fresh = []
  ∧ selectedPatient Sample.fresh = None
  ∧ editingId Sample.fresh = None
  ∧ Sorted Z.lt (opTimes ops)
  ∧ NoDup (patientIds (patients (runAdds RefPlatform.isoDate ops Sample.fresh)))
  ∧ Forall (λ p, NoDup (medicationIds p))
      (patients (runAdds RefPlatform.isoDate ops Sample.fresh)).
Proof.
  intros ops.
  assert (h1 : patients Sample.fresh = []) by (vm_compute; reflexivity).
  assert (h2 : selectedPatient Sample.fresh = None) by (vm_compute; reflexivity).
  assert (h3 : editingId Sample.fresh = None) by (vm_compute; reflexivity).
  assert (h4 : Sorted Z.lt (opTimes ops)).
  { change (opTimes ops)
      with [1700000000000; 1700000000001; 1700000000500; 1700000000501].
    repeat constructor. }
  repeat (split; [assumption|]).
  pose proof (add_ids_distinct_under_advancing_clock RefPlatform.isoDate
                Sample.fresh ops h1 h2 h3 h4) as H.
  cbv zeta in H. destruct H as (Hnd & _ & Hmeds & _).
  split; [exact Hnd|exact Hmeds].
Defined.

(** A blank form is submitted in either variant. *)
Lemma addPatient_rejects_sample :
  truthyV (prop "name" (newPatient Sample.session)) = false
  ∧ truthyV (prop "name" (LS.newPatient Sample.lsBlank)) = false
  ∧ patients (addPatient RefPlatform.isoDate 1700000000000 Sample.session)
    = patients Sample.session
  ∧ idb (addPatient RefPlatform.isoDate 1700000000000 Sample.session)
    = idb Sample.session
  ∧ LS.storage (LS.addPatient RefPlatform.stringify RefPlatform.isoDate
                  1700000000000 Sample.lsBlank)
    = LS.storage Sample.lsBlank.
Proof.
  assert (h1 : truthyV (prop "name" (newPatient Sample.session)) = false)
    by (vm_compute; reflexivity).
  assert (h2 : truthyV (prop "name" (LS.newPatient Sample.lsBlank)) = false)
    by (vm_compute; reflexivity).
  repeat (split; [assumption|]).
  destruct (addPatient_rejects_incomplete_draft RefPlatform.stringify
              RefPlatform.isoDate Sample.session Sample.lsBlank 1700000000000
              (or_introl h1) (or_introl h2))
    as (_ & Hp & Hi & _ & _ & Hs & _).
  repeat split; assumption.
Defined.

(** The edit of [asha] with a draft whose medications were emptied. *)
Lemma edit_preserves_medications_sample :
  let eid := JStr "1700000000000" in
  let ps := patients Sample.session in
  truthy eid = true
  ∧ draftIncomplete Sample.ashaDraft = false
  ∧ ps !! 1%nat = Some Sample.asha
  ∧ strict_eq (prop "id" Sample.asha) (Some eid) = true
  ∧ truthyV (prop "medications" Sample.asha) = true
  ∧ prop "medications" Sample.ashaDraft = Some (JArr [])
  ∧ ∃ p', patients (addPatient RefPlatform.isoDate 1700000200000 Sample.editing)
            !! 1%nat = Some p'
          ∧ prop "medications" p' = prop "medications" Sample.asha
          ∧ prop "id" p' = prop "id" Sample.asha.
Proof.
  intros eid ps.
  assert (h1 : truthy eid = true) by (vm_compute; reflexivity).
  assert (h2 : draftIncomplete Sample.ashaDraft = false) by (vm_compute; reflexivity).
  assert (h3 : ps !! 1%nat = Some Sample.asha) by (vm_compute; reflexivity).
  assert (h4 : strict_eq (prop "id" Sample.asha) (Some eid) = true)
    by (vm_compute; reflexivity).
  assert (h5 : truthyV (prop "medications" Sample.asha) = true)
    by (vm_compute; reflexivity).
  assert (h6 : prop "medications" Sample.ashaDraft = Some (JArr []))
    by (vm_compute; reflexivity).
  repeat (split; [assumption|]).
  pose proof (edit_preserves_medications RefPlatform.stringify RefPlatform.isoDate
                eid Sample.ashaDraft ps 1%nat Sample.asha
                Sample.editing Sample.lsEditing 1700000200000
                h1 h2 h3 h4 h5 eq_refl eq_refl eq_refl eq_refl eq_refl eq_refl) as H.
  cbv zeta in H. destruct H as (_ & _ & (p' & Hp' & Hm & Hid & _) & _).
  exists p'. repeat split; assumption.
Defined.

(** * Further properties of the handlers *)

Local Open Scope list_scope.

(** ** Saving: what reaches the store *)

Lemma keyed_spec (ps : list obj) (l : list (idb_key * obj)) :
  keyed ps = Some l →
  l.*2 = ps ∧ Forall (λ kv, extract_key kv.2 = Some kv.1) l.
Proof.
  unfold keyed. intros H. apply mapM_Some_1 in H.
  induction H as [|p [k o] ps l Hp _ [IH1 IH2]]; [split; constructor|].
  destruct (extract_key p) as [k'|] eqn:E; [|discriminate].
  simpl in Hp. injection Hp as <- <-. split.
  - rewrite fmap_cons. simpl. f_equal. exact IH1.
  - constructor; [exact E|exact IH2].
Qed.

Lemma keyed_app (ps qs : list obj) :
  keyed (ps ++ qs) = l1 ← keyed ps; l2 ← keyed qs; Some (l1 ++ l2)%list.
Proof.
  unfold keyed. induction ps as [|p ps IH]; simpl.
  - destruct (mapM _ qs); reflexivity.
  - destruct (extract_key p); simpl; [|reflexivity].
    rewrite IH. destruct (mapM _ ps); simpl; [|reflexivity].
    destruct (mapM _ qs); reflexivity.
Qed.

Lemma forEach_add_of_keyed (ps : list obj) (l : list (idb_key * obj)) :
  keyed ps = Some l → forEach_add (JObj <$> ps) = (addRequests l, false).
Proof.
  intros H. destruct (keyed_spec ps l H) as [<- Hl].
  apply forEach_add_keyed. exact Hl.
Qed.

Lemma exec_addRequests_inv (l : list (idb_key * obj)) (s s' : Store) :
  exec_requests (addRequests l) s = Some s' →
  NoDup l.*1 ∧ ∀ k, k ∈ l.*1 → s !! k = None.
Proof.
  revert s. induction l as [|[k o] l IH]; intros s H.
  - split; [constructor|]. intros k Hk. apply elem_of_nil in Hk. destruct Hk.
  - simpl in H. destruct (s !! k) eqn:Hk; [discriminate|]. simpl in H.
    destruct (IH _ H) as [Hnd Hfresh]. split.
    + simpl. apply NoDup_cons_2; [|exact Hnd].
      intros Hin. specialize (Hfresh k Hin).
      rewrite lookup_insert_eq in Hfresh. discriminate.
    + intros k' Hk'. simpl in Hk'. apply elem_of_cons in Hk' as [->|Hk']; [exact Hk|].
      specialize (Hfresh k' Hk').
      destruct (decide (k = k')) as [<-|Hne].
      * rewrite lookup_insert_eq in Hfresh. discriminate.
      * rewrite lookup_insert_ne in Hfresh by exact Hne. exact Hfresh.
Qed.

(** A clear-and-add transaction over distinct keys installs the records;
    over repeated keys it leaves the store as it was. *)
Lemma clear_add_distinct (l : list (idb_key * obj)) (s : Store) :
  NoDup l.*1 → run_transaction (ReqClear :: addRequests l) s = list_to_map l.
Proof.
  intros Hnd. unfold run_transaction. simpl.
  rewrite exec_addRequests; [|exact Hnd|intros k _; apply lookup_empty].
  simpl. rewrite (right_id_L ∅ (∪)).
  apply list_to_map_proper; [|apply reverse_Permutation].
  rewrite fmap_reverse, reverse_Permutation. exact Hnd.
Qed.

Lemma clear_add_repeated (l : list (idb_key * obj)) (s : Store) :
  ¬ NoDup l.*1 → run_transaction (ReqClear :: addRequests l) s = s.
Proof.
  intros Hdup. unfold run_transaction. simpl.
  destruct (exec_requests (addRequests l) ∅) as [s'|] eqn:E; [|reflexivity].
  destruct (exec_addRequests_inv l ∅ s' E) as [Hnd _]. contradiction.
Qed.

Lemma getAll_list_to_map (l : list (idb_key * obj)) :
  NoDup l.*1 → getAll (list_to_map l) ≡ₚ l.*2.
Proof.
  intros Hnd. destruct (getAll_sorted_entries (list_to_map l)) as (l' & Hperm & ->).
  rewrite Hperm. rewrite map_to_list_to_map by exact Hnd. reflexivity.
Qed.

(** X1.  Saving a collection whose patients all carry a valid key, no two
    the same, replaces the content of the store by exactly that
    collection: every patient is stored under the key of its id, reading
    the store back gives the collection up to order, and nothing throws. *)
Theorem savePatients_installs
    (ups : list obj) (l : list (idb_key * obj)) (s : AppState) :
  db s = true → keyed ups = Some l → NoDup l.*1 →
  savePatients ups s = (setIdb (list_to_map l) s, false)
  ∧ getAll (idb (savePatients ups s).1) ≡ₚ ups
  ∧ ∀ k p, (k, p) ∈ l → idb (savePatients ups s).1 !! k = Some p.
Proof.
  intros Hdb Hk Hnd.
  assert (E : savePatients ups s = (setIdb (list_to_map l) s, false)).
  { unfold savePatients. rewrite Hdb. simpl.
    rewrite (forEach_add_of_keyed ups l Hk), clear_add_distinct by exact Hnd.
    reflexivity. }
  rewrite E. split; [reflexivity|]. simpl. split.
  - rewrite getAll_list_to_map by exact Hnd.
    rewrite (proj1 (keyed_spec ups l Hk)). reflexivity.
  - intros k p Hin. apply elem_of_list_to_map_1; assumption.
Qed.

(** X2.  Saving a collection in which two patients share a key changes
    nothing in the store: the second [store.add] fails, the transaction
    aborts and the clear is undone with it.  No exception reaches the
    caller. *)
Theorem savePatients_repeated_id_rolls_back
    (ups : list obj) (l : list (idb_key * obj)) (s : AppState) :
  db s = true → keyed ups = Some l → ¬ NoDup l.*1 →
  idb (savePatients ups s).1 = idb s ∧ (savePatients ups s).2 = false.
Proof.
  intros Hdb Hk Hdup. unfold savePatients. rewrite Hdb. simpl.
  rewrite (forEach_add_of_keyed ups l Hk), clear_add_repeated by exact Hdup.
  split; reflexivity.
Qed.

Lemma forEach_add_cons (o : obj) (k : idb_key) (vs : list json) :
  extract_key o = Some k →
  forEach_add (JObj o :: vs)
  = (ReqAdd k o :: (forEach_add vs).1, (forEach_add vs).2).
Proof.
  intros H. simpl. rewrite H. simpl. destruct (forEach_add vs). reflexivity.
Qed.

Lemma forEach_add_stops (pre post : list obj) (bad : obj) (l : list (idb_key * obj)) :
  keyed pre = Some l → extract_key bad = None →
  forEach_add (JObj <$> (pre ++ bad :: post)) = (addRequests l, true).
Proof.
  intros Hk Hbad. destruct (keyed_spec pre l Hk) as [<- Hl]. clear Hk.
  induction Hl as [|[k o] l Hko _ IH].
  - simpl. rewrite Hbad. reflexivity.
  - change (forEach_add (JObj o :: (JObj <$> (l.*2 ++ bad :: post)))
            = (ReqAdd k o :: addRequests l, true)).
    rewrite (forEach_add_cons o k _ Hko), IH. reflexivity.
Qed.

(** X3.  When a patient of the collection has no valid key (no [id], or an
    [id] that is not a key), [store.add] throws at that patient: the
    exception leaves [savePatients], and the store is left with the
    patients that came before it only, since the clear and the adds
    already queued are committed. *)
Theorem savePatients_invalid_id_keeps_prefix
    (pre post : list obj) (bad : obj) (l : list (idb_key * obj)) (s : AppState) :
  db s = true → keyed pre = Some l → NoDup l.*1 → extract_key bad = None →
  savePatients (pre ++ bad :: post) s = (setIdb (list_to_map l) s, true).
Proof.
  intros Hdb Hk Hnd Hbad. unfold savePatients. rewrite Hdb. simpl.
  rewrite (forEach_add_stops pre post bad l Hk Hbad).
  rewrite clear_add_distinct by exact Hnd. reflexivity.
Qed.

(** ** Import of an arbitrary snapshot *)

Section ImportProperties.

Variable JSON_parse : string → option json.

(** X4.  Importing a snapshot that parses to an array of records with
    valid, pairwise distinct keys replaces the store by these records,
    reloads the collection from the store (each record normalised: the
    records of the snapshot up to order) and reports success. *)
Theorem restoreData_installs_records
    (text : string) (rs : list obj) (l : list (idb_key * obj)) (s : AppState) :
  db s = true →
  JSON_parse text = Some (JArr (JObj <$> rs)) →
  keyed rs = Some l → NoDup l.*1 →
  let s' := restoreData JSON_parse text s in
  idb s' = list_to_map l
  ∧ patients s' = normalize <$> getAll (list_to_map l)
  ∧ patients s' ≡ₚ normalize <$> rs
  ∧ alerts s' = "Data restored successfully!" :: alerts s.
Proof.
  intros Hdb Hp Hk Hnd s'.
  assert (E : s' = alert "Data restored successfully!"
                     (loadPatients (setIdb (list_to_map l) s))).
  { unfold s', restoreData. rewrite Hdb, Hp. simpl. unfold restoreParsed.
    rewrite (forEach_add_of_keyed rs l Hk), clear_add_distinct by exact Hnd.
    reflexivity. }
  rewrite E. split; [reflexivity|]. split; [reflexivity|]. split; [|reflexivity].
  simpl. rewrite getAll_list_to_map by exact Hnd.
  rewrite (proj1 (keyed_spec rs l Hk)). reflexivity.
Qed.

(** X5.  Importing a snapshot in which two records share a key leaves the
    store as it was (the transaction aborts), reloads the old collection,
    and still reports "Data restored successfully!". *)
Theorem restoreData_repeated_id_reports_success
    (text : string) (rs : list obj) (l : list (idb_key * obj)) (s : AppState) :
  db s = true →
  JSON_parse text = Some (JArr (JObj <$> rs)) →
  keyed rs = Some l → ¬ NoDup l.*1 →
  let s' := restoreData JSON_parse text s in
  idb s' = idb s
  ∧ patients s' = normalize <$> getAll (idb s)
  ∧ alerts s' = "Data restored successfully!" :: alerts s.
Proof.
  intros Hdb Hp Hk Hdup s'.
  unfold s', restoreData. rewrite Hdb, Hp. simpl. unfold restoreParsed.
  rewrite (forEach_add_of_keyed rs l Hk), clear_add_repeated by exact Hdup.
  repeat split.
Qed.

End ImportProperties.

(** ** Ids, keys and strict equality *)

Lemma strict_eq_JStr (a : option json) (x : string) :
  strict_eq a (Some (JStr x)) = true ↔ a = Some (JStr x).
Proof.
  split.
  - apply strict_eq_eq.
  - intros ->. simpl. apply String.eqb_refl.
Qed.

Lemma strict_eq_stamped_refl (b : Z) (i : option json) :
  stampedBelow b i → strict_eq i i = true.
Proof. intros (t & _ & ->). simpl. apply String.eqb_refl. Qed.

Lemma extract_key_stamped (b : Z) (p : obj) :
  stampedBelow b (prop "id" p) →
  ∃ x, prop "id" p = Some (JStr x) ∧ extract_key p = Some (KStr x).
Proof.
  intros (t & _ & E). exists (toString t). split; [exact E|].
  unfold extract_key. rewrite E. reflexivity.
Qed.


Lemma keyed_stamped (b : Z) (ps : list obj) :
  Forall (stampedBelow b) (patientIds ps) →
  ∃ l, keyed ps = Some l ∧ idOfKey <$> l.*1 = patientIds ps.
Proof.
  induction ps as [|p ps IH]; intros H.
  - exists []. split; reflexivity.
  - unfold patientIds in H. rewrite fmap_cons in H.
    apply list.Forall_cons in H as [Hp Hps].
    destruct (IH Hps) as (l & Hl & Hids).
    destruct (extract_key_stamped b p Hp) as (x & Hid & Hkey).
    exists ((KStr x, p) :: l). split.
    + change (keyed (p :: ps)) with (keyed ([p] ++ ps)).
      rewrite keyed_app, Hl. unfold keyed. simpl. rewrite Hkey. reflexivity.
    + unfold patientIds. rewrite !fmap_cons. simpl. rewrite Hid. f_equal. exact Hids.
Qed.

Lemma stamped_mirrored_after_save (b : Z) (ups : list obj) (s : AppState) :
  db s = true →
  Forall (stampedBelow b) (patientIds ups) → NoDup (patientIds ups) →
  (savePatients ups s).2 = false
  ∧ ∃ l, keyed ups = Some l ∧ NoDup l.*1
         ∧ idb (savePatients ups s).1 = list_to_map l.
Proof.
  intros Hdb Hst Hnd. destruct (keyed_stamped b ups Hst) as (l & Hl & Hids).
  assert (Hndl : NoDup l.*1).
  { apply (NoDup_fmap_1 idOfKey). rewrite Hids. exact Hnd. }
  unfold savePatients. rewrite Hdb. simpl.
  rewrite (forEach_add_of_keyed ups l Hl), clear_add_distinct by exact Hndl.
  split; [reflexivity|]. exists l. repeat split; assumption.
Qed.

Lemma savePatients_db (ups : list obj) (s : AppState) :
  db (savePatients ups s).1 = db s.
Proof.
  unfold savePatients. destruct (negb (db s)); [reflexivity|].
  destruct (forEach_add (JObj <$> ups)). reflexivity.
Qed.

Lemma savePatients_idb_ext (ups : list obj) (s1 s2 : AppState) :
  db s1 = db s2 → idb s1 = idb s2 →
  idb (savePatients ups s1).1 = idb (savePatients ups s2).1
  ∧ (savePatients ups s1).2 = (savePatients ups s2).2.
Proof.
  intros Hd Hi. unfold savePatients. rewrite Hd, Hi.
  destruct (negb (db s2)); [split; [exact Hi|reflexivity]|].
  destruct (forEach_add (JObj <$> ups)). split; reflexivity.
Qed.

(** ** What every action keeps *)

Lemma actInv_mono (b b' : Z) (s : AppState) :
  b ≤ b' → actInv b s → actInv b' s.
Proof.
  intros Hb (Hdb & Hids & Hnd & Hmeds & Hsel & Hmir).
  split; [exact Hdb|]. split.
  { eapply list.Forall_impl; [exact Hids|]. intros i. apply stampedBelow_mono. exact Hb. }
  split; [exact Hnd|]. split.
  { eapply list.Forall_impl; [exact Hmeds|]. intros p. apply medsBelow_mono. exact Hb. }
  split; [|exact Hmir].
  intros sel H. eapply medsBelow_mono; [exact Hb|]. apply Hsel. exact H.
Qed.

(** An action that leaves the collection and the store alone. *)
Lemma actInv_untouched (b : Z) (s s' : AppState) :
  db s' = db s → patients s' = patients s → idb s' = idb s →
  (∀ sel, selectedPatient s' = Some sel → medsBelow b sel) →
  actInv b s → actInv b s'.
Proof.
  intros Hd Hp Hi Hsel (Hdb & Hids & Hnd & Hmeds & _ & Hmir).
  unfold actInv, mirrored in *. rewrite Hd, Hp, Hi.
  repeat split; assumption.
Qed.

(** An action that saves the collection [ups] it installs. *)
Lemma actInv_saved (b : Z) (s s' : AppState) (ups : list obj) :
  db s = true →
  patients s' = ups → db s' = db s →
  idb s' = idb (savePatients ups s).1 →
  Forall (stampedBelow b) (patientIds ups) → NoDup (patientIds ups) →
  Forall (medsBelow b) ups →
  (∀ sel, selectedPatient s' = Some sel → medsBelow b sel) →
  actInv b s'.
Proof.
  intros Hdb Hp Hd Hi Hst Hnd Hmeds Hsel.
  destruct (stamped_mirrored_after_save b ups s Hdb Hst Hnd) as (_ & l & Hl & Hndl & Hidb).
  unfold actInv, mirrored. rewrite Hp, Hd, Hi.
  split; [exact Hdb|]. repeat (split; [assumption|]).
  exists l. repeat split; assumption.
Qed.

Lemma medsBelow_truthy (b : Z) (p : obj) :
  medsBelow b p → truthyV (prop "medications" p) = true.
Proof. intros (ms & -> & _). reflexivity. Qed.

Lemma medsBelow_set (b : Z) (p : obj) (ms : list json) :
  Forall (λ m, stampedBelow b (medicationId m)) ms →
  NoDup (medicationId <$> ms) →
  medsBelow b (obj_set "medications" (JArr ms) p).
Proof. intros H1 H2. exists ms. split; [apply prop_obj_set_eq|]. split; assumption. Qed.

Lemma medsBelow_other (b : Z) (k : string) (v : json) (p : obj) :
  k ≠ "medications" → medsBelow b p → medsBelow b (obj_set k v p).
Proof.
  intros Hk (ms & Hm & H). exists ms. split; [|exact H].
  rewrite prop_obj_set_ne by exact Hk. exact Hm.
Qed.

(** Replacing the patients that carry one id by a record with that id
    keeps the list of ids. *)
Lemma patientIds_replace (i : option json) (q : obj) (ps : list obj) :
  prop "id" q = i →
  patientIds ((λ p, if strict_eq (prop "id" p) i then q else p) <$> ps)
  = patientIds ps.
Proof.
  intros Hq. unfold patientIds. rewrite <- list_fmap_compose.
  apply list_fmap_ext. intros _ p _. simpl.
  destruct (strict_eq (prop "id" p) i) eqn:E; [|reflexivity].
  apply strict_eq_eq in E. congruence.
Qed.

Lemma Forall_replace {A} (P : A → Prop) (c : A → bool) (q : A) (l : list A) :
  P q → Forall P l → Forall P ((λ p, if c p then q else p) <$> l).
Proof.
  intros Hq Hl. apply Forall_fmap. eapply list.Forall_impl; [exact Hl|].
  intros p Hp. simpl. destruct (c p); assumption.
Qed.

Lemma patientIds_edited (eid : json) (draft : obj) (ps : list obj) :
  patientIds (editedPatients eid draft ps) = patientIds ps.
Proof.
  unfold patientIds, editedPatients. rewrite <- list_fmap_compose.
  apply list_fmap_ext. intros _ p _. simpl.
  destruct (strict_eq (prop "id" p) (Some eid)) eqn:E; [|reflexivity].
  rewrite prop_obj_set_ne by discriminate. rewrite prop_obj_set_eq.
  symmetry. apply strict_eq_eq. exact E.
Qed.

Lemma medsBelow_edited (b : Z) (eid : json) (draft : obj) (ps : list obj) :
  Forall (medsBelow b) ps → Forall (medsBelow b) (editedPatients eid draft ps).
Proof.
  intros H. unfold editedPatients. apply Forall_fmap.
  eapply list.Forall_impl; [exact H|]. intros p Hp. simpl.
  destruct (strict_eq (prop "id" p) (Some eid)); [|exact Hp].
  destruct Hp as (ms & Hm & Hall & Hnd). rewrite Hm. simpl.
  apply medsBelow_set; assumption.
Qed.

Lemma memberId_stamped (b : Z) (m : json) :
  stampedBelow b (medicationId m) → memberId m = Some (medicationId m).
Proof.
  intros (t & _ & E). destruct m; simpl in *; try discriminate. reflexivity.
Qed.

Lemma withoutMedication_stamped (b : Z) (mid : option json) (ms : list json) :
  Forall (λ m, stampedBelow b (medicationId m)) ms →
  ∃ ms', withoutMedication mid ms = Some ms' ∧ ms' `sublist_of` ms.
Proof.
  induction 1 as [|m ms Hm _ (ms' & IH & Hsub)].
  - exists []. split; [reflexivity|constructor].
  - simpl. rewrite (memberId_stamped b m Hm), IH. simpl.
    destruct (strict_eq (medicationId m) mid); eexists; (split; [reflexivity|]).
    + apply sublist_cons. exact Hsub.
    + apply sublist_skip. exact Hsub.
Qed.

Lemma Forall_sublist {A} (P : A → Prop) (l k : list A) :
  l `sublist_of` k → Forall P k → Forall P l.
Proof.
  intros Hsub H. rewrite list.Forall_forall in *. intros x Hx.
  apply H. eapply elem_of_sublist; eassumption.
Qed.

Lemma dropMedication_below (b : Z) (mid : option json) (p : obj) :
  medsBelow b p →
  ∃ p', dropMedication mid p = Some p' ∧ medsBelow b p'
        ∧ prop "id" p' = prop "id" p.
Proof.
  intros (ms & Hm & Hall & Hnd).
  destruct (withoutMedication_stamped b mid ms Hall) as (ms' & E & Hsub).
  unfold dropMedication. rewrite Hm, E. simpl. eexists. split; [reflexivity|]. split.
  - apply medsBelow_set.
    + eapply Forall_sublist; eassumption.
    + eapply sublist_NoDup; [exact Hnd|]. apply fmap_sublist. exact Hsub.
  - apply prop_obj_set_ne. discriminate.
Qed.

Lemma saved_cells (ups : list obj) (s s0 : AppState) :
  db s0 = db s → idb s0 = idb s →
  patients (savePatients ups s0).1 = patients s0
  ∧ selectedPatient (savePatients ups s0).1 = selectedPatient s0
  ∧ db (savePatients ups s0).1 = db s
  ∧ idb (savePatients ups s0).1 = idb (savePatients ups s).1.
Proof.
  intros Hd Hi.
  destruct (savePatients_frame ups s0) as (Hp & Hs & _).
  destruct (savePatients_idb_ext ups s0 s Hd Hi) as (Hidb & _).
  rewrite savePatients_db. repeat split; assumption.
Qed.

Lemma appended_below (b now : Z) (draft : obj) (ps : list obj) :
  b ≤ now →
  Forall (stampedBelow b) (patientIds ps) → NoDup (patientIds ps) →
  Forall (medsBelow b) ps →
  Forall (stampedBelow (now + 1)) (patientIds (appendedPatients now draft ps))
  ∧ NoDup (patientIds (appendedPatients now draft ps))
  ∧ Forall (medsBelow (now + 1)) (appendedPatients now draft ps).
Proof.
  intros Hb Hids Hnd Hmeds.
  set (new := obj_set "medications" (JArr []) (obj_set "id" (JStr (toString now)) draft)).
  assert (Hid : prop "id" new = Some (JStr (toString now))).
  { unfold new. rewrite prop_obj_set_ne by discriminate. apply prop_obj_set_eq. }
  unfold appendedPatients, patientIds. fold new.
  rewrite fmap_app. simpl. rewrite Hid. split; [|split].
  - apply Forall_app. split.
    + eapply list.Forall_impl; [exact Hids|]. intros i. apply stampedBelow_mono. lia.
    + constructor; [|constructor]. exists now. split; [lia|reflexivity].
  - apply NoDup_snoc_fresh; [exact Hnd|]. eapply stamped_fresh; eassumption.
  - apply Forall_app. split.
    + eapply list.Forall_impl; [exact Hmeds|]. intros p. apply medsBelow_mono. lia.
    + constructor; [|constructor]. apply medsBelow_set; constructor.
Qed.

Lemma dropAll_below (b : Z) (pid mid : option json) (ps : list obj) :
  Forall (medsBelow b) ps →
  ∃ ups, mapM (λ p, if strict_eq (prop "id" p) pid
                    then dropMedication mid p else Some p) ps = Some ups
         ∧ patientIds ups = patientIds ps
         ∧ Forall (medsBelow b) ups.
Proof.
  induction 1 as [|p ps Hp _ (ups & E & Hids & Hall)].
  - exists []. repeat split. constructor.
  - destruct (dropMedication_below b mid p Hp) as (p' & Ep & Hp' & Hid).
    simpl. rewrite E.
    destruct (strict_eq (prop "id" p) pid).
    + rewrite Ep. simpl. eexists. split; [reflexivity|]. split.
      * unfold patientIds in *. rewrite !fmap_cons, Hid, Hids. reflexivity.
      * constructor; assumption.
    + simpl. eexists. split; [reflexivity|]. split.
      * unfold patientIds in *. rewrite !fmap_cons, Hids. reflexivity.
      * constructor; assumption.
Qed.

Section ActionProperties.

Variable isoDate : Z → string.

Lemma addPatient_saved_cells (now : Z) (s : AppState) (ups : list obj) :
  draftIncomplete (newPatient s) = false →
  ups = match editingId s with
        | Some eid =>
            if truthy eid then editedPatients eid (newPatient s) (patients s)
            else appendedPatients now (newPatient s) (patients s)
        | None => appendedPatients now (newPatient s) (patients s)
        end →
  patients (addPatient isoDate now s) = ups
  ∧ selectedPatient (addPatient isoDate now s) = selectedPatient s
  ∧ db (addPatient isoDate now s) = db s
  ∧ idb (addPatient isoDate now s) = idb (savePatients ups s).1.
Proof.
  intros Hd Hups. unfold addPatient. rewrite Hd, <- Hups.
  destruct (saved_cells ups s (setPatients ups s) eq_refl eq_refl)
    as (Hp & Hs & Hdb & Hi).
  destruct (savePatients ups (setPatients ups s)) as [s1 threw].
  simpl in Hp, Hs, Hdb, Hi. destruct threw; simpl; repeat split; assumption.
Qed.

Lemma addPatient_actInv (b now : Z) (s : AppState) :
  b ≤ now → actInv b s → actInv (now + 1) (addPatient isoDate now s).
Proof.
  intros Hb Hinv.
  assert (Hup : actInv (now + 1) s) by (apply (actInv_mono b); [lia|exact Hinv]).
  destruct (draftIncomplete (newPatient s)) eqn:Hd.
  { unfold addPatient. rewrite Hd.
    apply (actInv_untouched (now + 1) s);
      [reflexivity|reflexivity|reflexivity|apply Hup|exact Hup]. }
  destruct (addPatient_saved_cells now s _ Hd eq_refl) as (Ep & Es & Ed & Ei).
  destruct Hinv as (Hdb & Hids & Hnd & Hmeds & Hsel & _).
  eapply (actInv_saved _ s); [exact Hdb|exact Ep|exact Ed|exact Ei|..].
  4:{ rewrite Es. apply Hup. }
  all: destruct (editingId s) as [eid|]; [destruct (truthy eid)|];
    try (apply (appended_below b); assumption).
  - rewrite patientIds_edited. apply Hup.
  - rewrite patientIds_edited. exact Hnd.
  - apply medsBelow_edited. apply Hup.
Qed.

Lemma deletePatient_cells (pid : option json) (s : AppState) :
  let ups := filter (λ p, strict_eq (prop "id" p) pid = false) (patients s) in
  patients (deletePatient pid true s) = ups
  ∧ db (deletePatient pid true s) = db s
  ∧ idb (deletePatient pid true s) = idb (savePatients ups s).1
  ∧ (selectedPatient (deletePatient pid true s) = selectedPatient s
     ∨ selectedPatient (deletePatient pid true s) = None).
Proof.
  intros ups. unfold deletePatient. fold ups.
  destruct (saved_cells ups s (setPatients ups s) eq_refl eq_refl)
    as (Hp & Hs & Hdb & Hi).
  destruct (savePatients ups (setPatients ups s)) as [s1 threw].
  simpl in Hp, Hs, Hdb, Hi.
  destruct threw; [|destruct (strict_eq (selectedId s) pid)]; simpl;
    repeat split; try assumption; auto.
Qed.

Lemma deletePatient_actInv (b : Z) (pid : option json) (confirmed : bool)
    (s : AppState) :
  actInv b s → actInv b (deletePatient pid confirmed s).
Proof.
  intros Hinv. destruct confirmed; [|exact Hinv].
  destruct (deletePatient_cells pid s) as (Ep & Ed & Ei & Es).
  destruct Hinv as (Hdb & Hids & Hnd & Hmeds & Hsel & _).
  assert (Hsub : patientIds (filter (λ p, strict_eq (prop "id" p) pid = false)
                               (patients s))
                 `sublist_of` patientIds (patients s)).
  { apply fmap_sublist, sublist_filter. }
  eapply (actInv_saved _ s); [exact Hdb|exact Ep|exact Ed|exact Ei|..].
  - eapply Forall_sublist; eassumption.
  - eapply sublist_NoDup; eassumption.
  - eapply Forall_sublist; [apply sublist_filter|exact Hmeds].
  - intros sel H. destruct Es as [Es|Es]; rewrite Es in H; [|discriminate].
    apply Hsel. exact H.
Qed.

Lemma deleteMedication_cells (pid mid : option json) (s : AppState)
    (ups : list obj) :
  mapM (λ p, if strict_eq (prop "id" p) pid
             then dropMedication mid p else Some p) (patients s) = Some ups →
  patients (deleteMedication pid mid true s) = ups
  ∧ db (deleteMedication pid mid true s) = db s
  ∧ idb (deleteMedication pid mid true s) = idb (savePatients ups s).1
  ∧ (selectedPatient (deleteMedication pid mid true s) = selectedPatient s
     ∨ strict_eq (selectedId s) pid = true
       ∧ (savePatients ups s).2 = false
       ∧ ∃ sel', selectedPatient s ≫= dropMedication mid = Some sel'
                 ∧ selectedPatient (deleteMedication pid mid true s) = Some sel').
Proof.
  intros E. unfold deleteMedication. rewrite E.
  destruct (saved_cells ups s (setPatients ups s) eq_refl eq_refl)
    as (Hp & Hs & Hdb & Hi).
  destruct (savePatients_idb_ext ups (setPatients ups s) s eq_refl eq_refl)
    as (_ & Ht).
  destruct (savePatients ups (setPatients ups s)) as [s1 threw].
  simpl in Hp, Hs, Hdb, Hi, Ht.
  destruct threw; [repeat split; auto|].
  destruct (strict_eq (selectedId s) pid); [|repeat split; auto].
  destruct (selectedPatient s ≫= dropMedication mid) as [sel'|] eqn:Ed;
    [|repeat split; auto].
  simpl. repeat split; try assumption. right.
  repeat split; [symmetry; exact Ht|]. exists sel'. split; reflexivity.
Qed.

Lemma deleteMedication_actInv (b : Z) (pid mid : option json) (confirmed : bool)
    (s : AppState) :
  actInv b s → actInv b (deleteMedication pid mid confirmed s).
Proof.
  intros Hinv. destruct confirmed; [|exact Hinv].
  destruct Hinv as (Hdb & Hids & Hnd & Hmeds & Hsel & _).
  destruct (dropAll_below b pid mid (patients s) Hmeds) as (ups & E & Eids & Hall).
  destruct (deleteMedication_cells pid mid s ups E) as (Ep & Ed & Ei & Es).
  eapply (actInv_saved _ s); [exact Hdb|exact Ep|exact Ed|exact Ei|..].
  - rewrite Eids. exact Hids.
  - rewrite Eids. exact Hnd.
  - exact Hall.
  - intros sel H. destruct Es as [Es|(_ & _ & sel' & Edrop & Es)]; rewrite Es in H.
    + apply Hsel. exact H.
    + injection H as <-.
      destruct (selectedPatient s) as [sel0|] eqn:E0; [|discriminate].
      simpl in Edrop.
      destruct (dropMedication_below b mid sel0 (Hsel _ eq_refl)) as (p' & Ep' & Hp' & _).
      congruence.
Qed.

Lemma deleteMedicationRow_actInv (b : Z) (j : nat) (confirmed : bool)
    (s : AppState) :
  actInv b s → actInv b (deleteMedicationRow j confirmed s).
Proof.
  intros Hinv. unfold deleteMedicationRow.
  destruct (selectedPatient s) as [sel|]; [|exact Hinv].
  destruct (orElse (prop "medications" sel) (JArr [])); try exact Hinv.
  destruct (_ ≫= memberId); [|exact Hinv].
  apply deleteMedication_actInv. exact Hinv.
Qed.

Lemma addMedication_saved_cells (now : Z) (s : AppState) (sel : obj)
    (ms : list json) :
  selectedPatient s = Some sel →
  truthyV (prop "description" (newMedication s)) = true →
  prop "medications" sel = Some (JArr ms) →
  let updatedPatient :=
    obj_set "medications"
      (JArr (ms ++ [JObj (obj_set "id" (JStr (toString now)) (newMedication s))]))
      sel in
  let ups := (λ p, if strict_eq (prop "id" p) (prop "id" sel)
                   then updatedPatient else p) <$> patients s in
  patients (addMedication isoDate now s) = ups
  ∧ selectedPatient (addMedication isoDate now s) = Some updatedPatient
  ∧ db (addMedication isoDate now s) = db s
  ∧ idb (addMedication isoDate now s) = idb (savePatients ups s).1.
Proof.
  intros Hs Hd Hm updatedPatient ups. unfold addMedication.
  rewrite Hs, Hd, Hm. simpl. fold updatedPatient. fold ups.
  destruct (saved_cells ups s
              (setSelectedPatient (Some updatedPatient) (setPatients ups s))
              eq_refl eq_refl) as (Hp & Hsl & Hdb & Hi).
  destruct (savePatients ups
              (setSelectedPatient (Some updatedPatient) (setPatients ups s)))
    as [s1 threw].
  simpl in Hp, Hsl, Hdb, Hi. destruct threw; simpl; repeat split; assumption.
Qed.

Lemma addMedication_actInv (b now : Z) (s : AppState) :
  b ≤ now → actInv b s → actInv (now + 1) (addMedication isoDate now s).
Proof.
  intros Hb Hinv.
  assert (Hup : actInv (now + 1) s) by (apply (actInv_mono b); [lia|exact Hinv]).
  destruct (selectedPatient s) as [sel|] eqn:Hsel.
  2:{ unfold addMedication. rewrite Hsel. exact Hup. }
  destruct (truthyV (prop "description" (newMedication s))) eqn:Hd.
  2:{ unfold addMedication. rewrite Hsel, Hd. simpl.
      apply (actInv_untouched (now + 1) s);
        [reflexivity|reflexivity|reflexivity|apply Hup|exact Hup]. }
  destruct Hinv as (Hdb & Hids & Hnd & Hmeds & Hselinv & _).
  destruct (Hselinv sel Hsel) as (ms & Hm & Hall & Hmnd).
  destruct (addMedication_saved_cells now s sel ms Hsel Hd Hm) as (Ep & Es & Ed & Ei).
  set (new := JObj (obj_set "id" (JStr (toString now)) (newMedication s))) in *.
  set (updatedPatient := obj_set "medications" (JArr (ms ++ [new])) sel) in *.
  assert (Hnew : medicationId new = Some (JStr (toString now))).
  { unfold new. simpl. apply prop_obj_set_eq. }
  assert (Hupd : medsBelow (now + 1) updatedPatient).
  { apply medsBelow_set.
    - apply Forall_app. split.
      + eapply list.Forall_impl; [exact Hall|]. intros m. apply stampedBelow_mono. lia.
      + constructor; [|constructor]. rewrite Hnew.
        exists now. split; [lia|reflexivity].
    - rewrite fmap_app, list_fmap_singleton, Hnew.
      apply NoDup_snoc_fresh; [exact Hmnd|].
      apply (stamped_fresh b); [exact Hb|].
      apply Forall_fmap. exact Hall. }
  assert (Hid : prop "id" updatedPatient = prop "id" sel).
  { apply prop_obj_set_ne. discriminate. }
  eapply (actInv_saved _ s); [exact Hdb|exact Ep|exact Ed|exact Ei|..].
  - rewrite patientIds_replace by exact Hid. apply Hup.
  - rewrite patientIds_replace by exact Hid. exact Hnd.
  - apply Forall_replace; [exact Hupd|apply Hup].
  - intros sel' H. rewrite Es in H. injection H as <-. exact Hupd.
Qed.

Lemma updateNextVisitDate_cells (date : string) (s : AppState) (sel : obj) :
  selectedPatient s = Some sel →
  let updatedPatient := obj_set "nextVisitDate" (JStr date) sel in
  let ups := (λ p, if strict_eq (prop "id" p) (prop "id" sel)
                   then updatedPatient else p) <$> patients s in
  patients (updateNextVisitDate date s) = ups
  ∧ selectedPatient (updateNextVisitDate date s) = Some updatedPatient
  ∧ db (updateNextVisitDate date s) = db s
  ∧ idb (updateNextVisitDate date s) = idb (savePatients ups s).1.
Proof.
  intros Hs updatedPatient ups. unfold updateNextVisitDate.
  rewrite Hs. fold updatedPatient. fold ups.
  apply (saved_cells ups s
           (setSelectedPatient (Some updatedPatient) (setPatients ups s))
           eq_refl eq_refl).
Qed.

Lemma updateNextVisitDate_actInv (b : Z) (date : string) (s : AppState) :
  actInv b s → actInv b (updateNextVisitDate date s).
Proof.
  intros Hinv.
  destruct (selectedPatient s) as [sel|] eqn:Hsel.
  2:{ unfold updateNextVisitDate. rewrite Hsel. exact Hinv. }
  destruct (updateNextVisitDate_cells date s sel Hsel) as (Ep & Es & Ed & Ei).
  destruct Hinv as (Hdb & Hids & Hnd & Hmeds & Hselinv & _).
  assert (Hupd : medsBelow b (obj_set "nextVisitDate" (JStr date) sel)).
  { apply medsBelow_other; [discriminate|]. apply Hselinv. exact Hsel. }
  assert (Hid : prop "id" (obj_set "nextVisitDate" (JStr date) sel) = prop "id" sel).
  { apply prop_obj_set_ne. discriminate. }
  eapply (actInv_saved _ s); [exact Hdb|exact Ep|exact Ed|exact Ei|..].
  - rewrite patientIds_replace by exact Hid. exact Hids.
  - rewrite patientIds_replace by exact Hid. exact Hnd.
  - apply Forall_replace; assumption.
  - intros sel' H. rewrite Es in H. injection H as <-. exact Hupd.
Qed.

Lemma act_actInv (b : Z) (a : action) (s : AppState) :
  actInv b s → clockFrom b (actionStamps [a]) →
  ∃ b', b ≤ b' ∧ actInv b' (act isoDate s a)
        ∧ ∀ ts, clockFrom b (actionStamps [a] ++ ts) → clockFrom b' ts.
Proof.
  intros Hinv Hclock.
  assert (Hsame : ∀ s', actionStamps [a] = [] → actInv b s' →
            ∃ b', b ≤ b' ∧ actInv b' s'
                  ∧ ∀ ts, clockFrom b (actionStamps [a] ++ ts) → clockFrom b' ts).
  { intros s' E H. exists b. rewrite E. split; [lia|]. split; [exact H|].
    intros ts Hts. exact Hts. }
  assert (Hcells : ∀ s', db s' = db s → patients s' = patients s →
            idb s' = idb s → selectedPatient s' = selectedPatient s →
            actInv b s').
  { intros s' E1 E2 E3 E4. apply (actInv_untouched b s); try assumption.
    rewrite E4. apply Hinv. }
  destruct a as [f v|now|i|now|i c|i| |f v|now|j c|date]; simpl.
  - apply Hsame; [reflexivity|]. apply Hcells; reflexivity.
  - destruct Hclock as [Hb _]. exists (now + 1).
    split; [lia|]. split.
    + apply (addPatient_actInv b); assumption.
    + intros ts [_ H]. exact H.
  - apply Hsame; [reflexivity|].
    destruct (patients s !! i); [|exact Hinv]. apply Hcells; reflexivity.
  - apply Hsame; [reflexivity|]. apply Hcells; reflexivity.
  - apply Hsame; [reflexivity|].
    destruct (patients s !! i); [|exact Hinv]. apply deletePatient_actInv. exact Hinv.
  - apply Hsame; [reflexivity|].
    destruct (patients s !! i) as [p|] eqn:Hp; [|exact Hinv].
    apply (actInv_untouched b s); try reflexivity; [|exact Hinv].
    intros sel [= <-]. apply medsBelow_normalize.
    destruct Hinv as (_ & _ & _ & Hmeds & _).
    rewrite list.Forall_forall in Hmeds. apply Hmeds.
    eapply list_elem_of_lookup_2. exact Hp.
  - apply Hsame; [reflexivity|].
    apply (actInv_untouched b s); try reflexivity; [|exact Hinv].
    intros sel H. discriminate H.
  - apply Hsame; [reflexivity|]. apply Hcells; reflexivity.
  - destruct Hclock as [Hb _]. exists (now + 1).
    split; [lia|]. split.
    + apply (addMedication_actInv b); assumption.
    + intros ts [_ H]. exact H.
  - apply Hsame; [reflexivity|]. apply deleteMedicationRow_actInv. exact Hinv.
  - apply Hsame; [reflexivity|]. apply updateNextVisitDate_actInv. exact Hinv.
Qed.

Lemma actionStamps_cons (a : action) (acts : list action) :
  actionStamps (a :: acts) = actionStamps [a] ++ actionStamps acts.
Proof. unfold actionStamps. simpl. rewrite app_nil_r. reflexivity. Qed.

Lemma clockFrom_app_l (b : Z) (ts us : list Z) :
  clockFrom b (ts ++ us) → clockFrom b ts.
Proof.
  revert b. induction ts as [|t ts IH]; intros b H; simpl in *; [exact I|].
  destruct H as [Hb H]. split; [exact Hb|]. apply IH. exact H.
Qed.

Lemma runActions_actInv (acts : list action) (b : Z) (s : AppState) :
  actInv b s → clockFrom b (actionStamps acts) →
  ∃ b', actInv b' (runActions isoDate acts s).
Proof.
  revert b s. induction acts as [|a acts IH]; intros b s Hinv Hclock.
  - exists b. exact Hinv.
  - rewrite actionStamps_cons in Hclock.
    destruct (act_actInv b a s Hinv (clockFrom_app_l _ _ _ Hclock))
      as (b' & _ & Hinv' & Hrest).
    apply (IH b'); [exact Hinv'|]. apply Hrest. exact Hclock.
Qed.

End ActionProperties.

Lemma normalize_medsBelow (b : Z) (p : obj) : medsBelow b p → normalize p = p.
Proof.
  intros (ms & Hm & _). unfold normalize. rewrite Hm. simpl.
  apply obj_set_same. exact Hm.
Qed.

Lemma actInv_start (b : Z) (s0 : AppState) :
  db s0 = true → idb s0 = ∅ → patients s0 = [] → selectedPatient s0 = None →
  actInv b s0.
Proof.
  intros Hd Hi Hp Hs. unfold actInv, mirrored. rewrite Hd, Hi, Hp, Hs. simpl.
  repeat split; try constructor; try discriminate.
  exists []. repeat split. constructor.
Qed.

Lemma actInv_reached (isoDate : Z → string) (s0 : AppState) (acts : list action) :
  db s0 = true → idb s0 = ∅ → patients s0 = [] → selectedPatient s0 = None →
  Sorted Z.lt (actionStamps acts) →
  ∃ b, actInv b (runActions isoDate acts s0).
Proof.
  intros Hd Hi Hp Hs Hsorted.
  set (b := default 0 (head (actionStamps acts))).
  apply (runActions_actInv isoDate acts b).
  - apply actInv_start; assumption.
  - apply Sorted_clockFrom; [exact Hsorted|].
    intros t Ht. unfold b. rewrite Ht. simpl. lia.
Qed.

(** X6.  From an open session over an empty store, after any sequence of
    user actions (typing, submitting, editing, cancelling, deleting with
    either answer, opening and closing a patient, adding and deleting
    medications, setting the next visit) in which the clock values read
    by the adds are strictly increasing, the store holds exactly the
    collection in memory: each patient is stored under its id, and
    reloading from the store gives the collection back up to order. *)
Theorem store_mirrors_collection_after_actions
    (isoDate : Z → string) (s0 : AppState) (acts : list action) :
  db s0 = true → idb s0 = ∅ → patients s0 = [] → selectedPatient s0 = None →
  Sorted Z.lt (actionStamps acts) →
  let s := runActions isoDate acts s0 in
  (∀ p, p ∈ patients s → ∃ k, extract_key p = Some k ∧ idb s !! k = Some p)
  ∧ getAll (idb s) ≡ₚ patients s
  ∧ patients (loadPatients s) ≡ₚ patients s.
Proof.
  intros Hd Hi Hp Hs Hsorted s.
  destruct (actInv_reached isoDate s0 acts Hd Hi Hp Hs Hsorted)
    as (b & _ & _ & _ & Hmeds & _ & l & Hl & Hnd & Hidb).
  fold s in Hmeds, Hl, Hidb.
  destruct (keyed_spec _ _ Hl) as (Hl2 & Hkeys).
  assert (Hall : getAll (idb s) ≡ₚ patients s).
  { rewrite Hidb, getAll_list_to_map by exact Hnd. rewrite Hl2. reflexivity. }
  split; [|split; [exact Hall|]].
  - intros p Hin. rewrite <- Hl2 in Hin.
    apply list_elem_of_fmap in Hin as ([k p'] & -> & Hin).
    exists k. rewrite list.Forall_forall in Hkeys. split; [apply (Hkeys _ Hin)|].
    rewrite Hidb. apply elem_of_list_to_map_1; assumption.
  - unfold loadPatients. simpl. rewrite Hall.
    erewrite list_fmap_ext; [rewrite list_fmap_id; reflexivity|].
    intros i p Hp'. simpl. rewrite list.Forall_forall in Hmeds.
    apply (normalize_medsBelow b). apply Hmeds.
    eapply list_elem_of_lookup_2. exact Hp'.
Qed.

(** X7.  Under the same conditions all patient ids stay distinct and
    non-empty, and within each patient, and in the open patient, all
    medication ids stay distinct and non-empty: deleting and editing never
    bring an id back. *)
Theorem ids_stay_distinct_under_all_actions
    (isoDate : Z → string) (s0 : AppState) (acts : list action) :
  db s0 = true → idb s0 = ∅ → patients s0 = [] → selectedPatient s0 = None →
  Sorted Z.lt (actionStamps acts) →
  let s := runActions isoDate acts s0 in
  NoDup (patientIds (patients s))
  ∧ Forall nonEmptyId (patientIds (patients s))
  ∧ Forall (λ p, NoDup (medicationIds p)) (patients s)
  ∧ Forall (λ p, Forall nonEmptyId (medicationIds p)) (patients s)
  ∧ (∀ sel, selectedPatient s = Some sel →
            NoDup (medicationIds sel) ∧ Forall nonEmptyId (medicationIds sel)).
Proof.
  intros Hd Hi Hp Hs Hsorted s.
  destruct (actInv_reached isoDate s0 acts Hd Hi Hp Hs Hsorted)
    as (b & _ & Hids & Hnd & Hmeds & Hsel & _).
  fold s in Hids, Hnd, Hmeds, Hsel.
  split; [exact Hnd|]. split.
  { eapply list.Forall_impl; [exact Hids|]. intros i. apply stampedBelow_nonEmpty. }
  split; [|split].
  - eapply list.Forall_impl; [exact Hmeds|]. intros p (ms & Hm & _ & Hmnd).
    unfold medicationIds. rewrite Hm. exact Hmnd.
  - eapply list.Forall_impl; [exact Hmeds|]. intros p (ms & Hm & Hall & _).
    unfold medicationIds. rewrite Hm. apply Forall_fmap.
    eapply list.Forall_impl; [exact Hall|]. intros m. apply stampedBelow_nonEmpty.
  - intros sel H. destruct (Hsel sel H) as (ms & Hm & Hall & Hmnd).
    unfold medicationIds. rewrite Hm. split; [exact Hmnd|].
    apply Forall_fmap.
    eapply list.Forall_impl; [exact Hall|]. intros m. apply stampedBelow_nonEmpty.
Qed.

(** ** One patient at a time *)

Lemma strict_eq_ne (a b : option json) : a ≠ b → strict_eq a b = false.
Proof.
  intros H. destruct (strict_eq a b) eqn:E; [|reflexivity].
  apply strict_eq_eq in E. contradiction.
Qed.

Lemma fmap_off_id (g : obj → obj) (pid : option json) (ps : list obj) :
  pid ∉ patientIds ps →
  (λ x, if strict_eq (prop "id" x) pid then g x else x) <$> ps = ps.
Proof.
  induction ps as [|x ps IH]; intros H; [reflexivity|].
  unfold patientIds in H. rewrite fmap_cons in H.
  apply not_elem_of_cons in H as [H1 H2].
  rewrite fmap_cons, (IH H2), strict_eq_ne by congruence. reflexivity.
Qed.

Lemma fmap_at_id (g : obj → obj) (pid : option json) (ps : list obj)
    (i : nat) (p : obj) :
  NoDup (patientIds ps) → ps !! i = Some p → prop "id" p = pid →
  strict_eq pid pid = true →
  (λ x, if strict_eq (prop "id" x) pid then g x else x) <$> ps = <[i := g p]> ps.
Proof.
  intros Hnd Hi Hid Hrefl. revert i Hi.
  induction ps as [|x ps IH]; intros i Hi; [discriminate|].
  unfold patientIds in Hnd. rewrite fmap_cons in Hnd.
  apply list.NoDup_cons in Hnd as [Hx Hnd].
  destruct i as [|i]; simpl in Hi.
  - injection Hi as ->. rewrite fmap_cons, Hid, Hrefl. simpl. f_equal.
    apply fmap_off_id. rewrite <- Hid. exact Hx.
  - rewrite fmap_cons. simpl. rewrite (IH Hnd i Hi). f_equal.
    rewrite strict_eq_ne; [reflexivity|].
    intros E. apply Hx. rewrite E, <- Hid.
    apply list_elem_of_fmap. exists p. split; [reflexivity|].
    eapply list_elem_of_lookup_2. exact Hi.
Qed.

Lemma filter_off_id (pid : option json) (ps : list obj) :
  pid ∉ patientIds ps →
  filter (λ x, strict_eq (prop "id" x) pid = false) ps = ps.
Proof.
  induction ps as [|x ps IH]; intros H; [reflexivity|].
  unfold patientIds in H. rewrite fmap_cons in H.
  apply not_elem_of_cons in H as [H1 H2].
  rewrite filter_cons_True by (apply strict_eq_ne; congruence).
  rewrite (IH H2). reflexivity.
Qed.

Lemma filter_at_id (pid : option json) (ps : list obj) (i : nat) (p : obj) :
  NoDup (patientIds ps) → ps !! i = Some p → prop "id" p = pid →
  strict_eq pid pid = true →
  filter (λ x, strict_eq (prop "id" x) pid = false) ps = delete i ps.
Proof.
  intros Hnd Hi Hid Hrefl. revert i Hi.
  induction ps as [|x ps IH]; intros i Hi; [discriminate|].
  unfold patientIds in Hnd. rewrite fmap_cons in Hnd.
  apply list.NoDup_cons in Hnd as [Hx Hnd].
  destruct i as [|i]; simpl in Hi.
  - injection Hi as ->. rewrite filter_cons_False by (rewrite Hid, Hrefl; discriminate).
    simpl. apply filter_off_id. rewrite <- Hid. exact Hx.
  - rewrite filter_cons_True.
    + simpl. rewrite (IH Hnd i Hi). reflexivity.
    + apply strict_eq_ne. intros E. apply Hx. rewrite E, <- Hid.
      apply list_elem_of_fmap. exists p. split; [reflexivity|].
      eapply list_elem_of_lookup_2. exact Hi.
Qed.

Lemma mapM_off_id (g : obj → option obj) (pid : option json) (ps : list obj) :
  pid ∉ patientIds ps →
  mapM (λ x, if strict_eq (prop "id" x) pid then g x else Some x) ps = Some ps.
Proof.
  induction ps as [|x ps IH]; intros H; [reflexivity|].
  unfold patientIds in H. rewrite fmap_cons in H.
  apply not_elem_of_cons in H as [H1 H2].
  simpl. rewrite (IH H2), strict_eq_ne by congruence. reflexivity.
Qed.

Lemma mapM_at_id (g : obj → option obj) (pid : option json) (ps : list obj)
    (i : nat) (p p' : obj) :
  NoDup (patientIds ps) → ps !! i = Some p → prop "id" p = pid →
  strict_eq pid pid = true → g p = Some p' →
  mapM (λ x, if strict_eq (prop "id" x) pid then g x else Some x) ps
  = Some (<[i := p']> ps).
Proof.
  intros Hnd Hi Hid Hrefl Hg. revert i Hi.
  induction ps as [|x ps IH]; intros i Hi; [discriminate|].
  unfold patientIds in Hnd. rewrite fmap_cons in Hnd.
  apply list.NoDup_cons in Hnd as [Hx Hnd].
  destruct i as [|i]; simpl in Hi.
  - injection Hi as ->. simpl. rewrite Hid, Hrefl, Hg. simpl.
    rewrite mapM_off_id by (rewrite <- Hid; exact Hx). reflexivity.
  - simpl. rewrite (IH Hnd i Hi). rewrite strict_eq_ne; [reflexivity|].
    intros E. apply Hx. rewrite E, <- Hid.
    apply list_elem_of_fmap. exists p. split; [reflexivity|].
    eapply list_elem_of_lookup_2. exact Hi.
Qed.

Lemma patientIds_insert (ps : list obj) (i : nat) (p q : obj) :
  ps !! i = Some p → prop "id" q = prop "id" p →
  patientIds (<[i := q]> ps) = patientIds ps.
Proof.
  intros Hi Hid. unfold patientIds. rewrite list_fmap_insert, Hid.
  apply list_insert_id. rewrite list_lookup_fmap, Hi. reflexivity.
Qed.

Lemma obj_set_set (k : string) (v w : json) (o : obj) :
  obj_set k v (obj_set k w o) = obj_set k v o.
Proof.
  induction o as [|[k' v'] o IH]; simpl.
  - rewrite String.eqb_refl. reflexivity.
  - destruct (String.eqb k k') eqn:E; simpl.
    + rewrite String.eqb_refl. reflexivity.
    + rewrite E, IH. reflexivity.
Qed.

(** A patient of a collection that satisfies the invariant. *)
Lemma actInv_member (b : Z) (s : AppState) (i : nat) (p : obj) :
  actInv b s → patients s !! i = Some p →
  stampedBelow b (prop "id" p) ∧ medsBelow b p
  ∧ strict_eq (prop "id" p) (prop "id" p) = true
  ∧ truthyV (prop "id" p) = true.
Proof.
  intros (_ & Hids & _ & Hmeds & _) Hi.
  assert (Hin : p ∈ patients s) by (eapply list_elem_of_lookup_2; exact Hi).
  rewrite list.Forall_forall in Hids. rewrite list.Forall_forall in Hmeds.
  assert (Hst : stampedBelow b (prop "id" p)).
  { apply Hids. apply list_elem_of_fmap. exists p. split; [reflexivity|exact Hin]. }
  split; [exact Hst|]. split; [apply Hmeds; exact Hin|]. split.
  - apply (strict_eq_stamped_refl b). exact Hst.
  - destruct (stampedBelow_nonEmpty b _ Hst) as (x & -> & Hx). simpl.
    apply negb_true_iff. apply String.eqb_neq. exact Hx.
Qed.

(** Two states that mirror the same collection hold the same store. *)
Lemma mirrored_same (s s' : AppState) :
  mirrored s → mirrored s' → patients s' = patients s → idb s' = idb s.
Proof.
  intros (l & Hl & _ & Hi) (l' & Hl' & _ & Hi') E.
  rewrite E in Hl'. rewrite Hi, Hi'. congruence.
Qed.

Lemma mirrored_getAll (s : AppState) : mirrored s → getAll (idb s) ≡ₚ patients s.
Proof.
  intros (l & Hl & Hnd & Hi). rewrite Hi, getAll_list_to_map by exact Hnd.
  rewrite (proj1 (keyed_spec _ _ Hl)). reflexivity.
Qed.

Section CompositionProperties.

Variable isoDate : Z → string.

Lemma runActions_actInv_then (acts : list action) (ts : list Z) (b : Z)
    (s : AppState) :
  actInv b s → clockFrom b (actionStamps acts ++ ts) →
  ∃ b', actInv b' (runActions isoDate acts s) ∧ clockFrom b' ts.
Proof.
  revert b s. induction acts as [|a acts IH]; intros b s Hinv Hclock.
  - exists b. split; assumption.
  - rewrite actionStamps_cons, <- app_assoc in Hclock.
    destruct (act_actInv isoDate b a s Hinv (clockFrom_app_l _ _ _ Hclock))
      as (b' & _ & Hinv' & Hrest).
    apply (IH b'); [exact Hinv'|]. apply Hrest. exact Hclock.
Qed.

Lemma actInv_reached_then (s0 : AppState) (acts : list action) (ts : list Z) :
  db s0 = true → idb s0 = ∅ → patients s0 = [] → selectedPatient s0 = None →
  Sorted Z.lt (actionStamps acts ++ ts) →
  ∃ b, actInv b (runActions isoDate acts s0) ∧ clockFrom b ts.
Proof.
  intros Hd Hi Hp Hs Hsorted.
  set (b := default 0 (head (actionStamps acts ++ ts))).
  apply (runActions_actInv_then acts ts b).
  - apply actInv_start; assumption.
  - apply Sorted_clockFrom; [exact Hsorted|].
    intros t Ht. unfold b. rewrite Ht. simpl. lia.
Qed.

(** The form after a submission that saved. *)
Lemma addPatient_form (now : Z) (s : AppState) (ups : list obj) :
  draftIncomplete (newPatient s) = false →
  ups = match editingId s with
        | Some eid =>
            if truthy eid then editedPatients eid (newPatient s) (patients s)
            else appendedPatients now (newPatient s) (patients s)
        | None => appendedPatients now (newPatient s) (patients s)
        end →
  (savePatients ups s).2 = false →
  editingId (addPatient isoDate now s) = None
  ∧ newPatient (addPatient isoDate now s) = blankPatient (isoDate now)
  ∧ showAddForm (addPatient isoDate now s) = false.
Proof.
  intros Hd Hups Hsave. unfold addPatient. rewrite Hd, <- Hups.
  destruct (savePatients_idb_ext ups (setPatients ups s) s eq_refl eq_refl)
    as (_ & Ht).
  rewrite Hsave in Ht.
  destruct (savePatients ups (setPatients ups s)) as [s1 threw].
  simpl in Ht. subst threw. repeat split.
Qed.

Lemma act_row (s : AppState) (i : nat) (c : bool) (p : obj) :
  patients s !! i = Some p →
  act isoDate s (ADelete i c) = deletePatient (prop "id" p) c s
  ∧ act isoDate s (AEdit i) = editPatient p s
  ∧ act isoDate s (ASelect i) = handlePatientClick p s.
Proof. intros H. unfold act. rewrite H. repeat split. Qed.

Lemma add_then_delete (b now : Z) (s : AppState) :
  actInv b s → b ≤ now →
  draftIncomplete (newPatient s) = false → editingId s = None →
  let s1 := addPatient isoDate now s in
  let s2 := act isoDate s1 (ADelete (length (patients s)) true) in
  patients s1 = appendedPatients now (newPatient s) (patients s)
  ∧ patients s2 = patients s
  ∧ idb s2 = idb s.
Proof.
  intros Hinv Hb Hd He s1 s2.
  assert (Hinv1 : actInv (now + 1) s1) by (apply (addPatient_actInv isoDate b); assumption).
  destruct (addPatient_saved_cells isoDate now s _ Hd eq_refl) as (Ep & _).
  rewrite He in Ep. fold s1 in Ep.
  set (new := obj_set "medications" (JArr [])
                (obj_set "id" (JStr (toString now)) (newPatient s))) in *.
  assert (Hlast : patients s1 !! length (patients s) = Some new).
  { rewrite Ep. unfold appendedPatients. apply list_lookup_middle. reflexivity. }
  destruct (actInv_member _ _ _ _ Hinv1 Hlast) as (_ & _ & Hrefl & _).
  assert (E2 : patients s2 = patients s).
  { unfold s2. rewrite (proj1 (act_row s1 _ true new Hlast)).
    destruct (deletePatient_cells (prop "id" new) s1) as (E & _).
    rewrite E.
    rewrite (filter_at_id (prop "id" new) (patients s1) (length (patients s)) new);
      [|apply Hinv1|exact Hlast|reflexivity|exact Hrefl].
    rewrite Ep. unfold appendedPatients. rewrite delete_middle.
    apply app_nil_r. }
  split; [exact Ep|]. split; [exact E2|].
  apply mirrored_same; [apply Hinv| |exact E2].
  unfold s2. rewrite (proj1 (act_row s1 _ true new Hlast)).
  apply (deletePatient_actInv (now + 1)). exact Hinv1.
Qed.

Lemma resave_same (b : Z) (s : AppState) :
  actInv b s →
  idb (savePatients (patients s) s).1 = idb s
  ∧ (savePatients (patients s) s).2 = false.
Proof.
  intros (Hdb & Hids & Hnd & _ & _ & l & Hl & _ & Hidb).
  destruct (stamped_mirrored_after_save b (patients s) s Hdb Hids Hnd)
    as (Ht & l' & Hl' & _ & Hi').
  split; [|exact Ht]. rewrite Hi', Hidb. congruence.
Qed.

Lemma edit_then_submit (b now : Z) (s : AppState) (i : nat) (p : obj) :
  actInv b s → patients s !! i = Some p → draftIncomplete p = false →
  let s2 := addPatient isoDate now (editPatient p s) in
  patients s2 = patients s ∧ idb s2 = idb s
  ∧ editingId s2 = None ∧ newPatient s2 = blankPatient (isoDate now)
  ∧ showAddForm s2 = false.
Proof.
  intros Hinv Hi Hd s2.
  destruct (actInv_member _ _ _ _ Hinv Hi) as (Hst & Hmeds & Hrefl & Htr).
  assert (Hnorm : normalize p = p) by (apply (normalize_medsBelow b); exact Hmeds).
  destruct (prop "id" p) as [eid|] eqn:Hid; [|discriminate].
  simpl in Htr.
  assert (Hd' : draftIncomplete (newPatient (editPatient p s)) = false).
  { simpl. rewrite Hnorm. exact Hd. }
  assert (Hups : editedPatients eid (newPatient (editPatient p s))
                   (patients (editPatient p s)) = patients s).
  { simpl. rewrite Hnorm. unfold editedPatients.
    rewrite (fmap_at_id _ (Some eid) (patients s) i p);
      [|apply Hinv|exact Hi|exact Hid|exact Hrefl].
    apply list_insert_id. rewrite Hi. f_equal.
    destruct Hmeds as (ms & Hm & _). rewrite Hm. simpl.
    rewrite (obj_set_same "id") by exact Hid.
    symmetry. apply obj_set_same. exact Hm. }
  assert (Hmatch : patients s
                   = match editingId (editPatient p s) with
                     | Some eid =>
                         if truthy eid
                         then editedPatients eid (newPatient (editPatient p s))
                                (patients (editPatient p s))
                         else appendedPatients now (newPatient (editPatient p s))
                                (patients (editPatient p s))
                     | None => appendedPatients now (newPatient (editPatient p s))
                                 (patients (editPatient p s))
                     end).
  { change (editingId (editPatient p s)) with (prop "id" p).
    rewrite Hid, Htr. symmetry. exact Hups. }
  destruct (resave_same b s Hinv) as (Hsame & Hthrew).
  destruct (savePatients_idb_ext (patients s) (editPatient p s) s eq_refl eq_refl)
    as (Hi' & Ht').
  destruct (addPatient_saved_cells isoDate now (editPatient p s) _ Hd' Hmatch)
    as (Ep & _ & _ & Ei).
  destruct (addPatient_form now (editPatient p s) _ Hd' Hmatch) as (F1 & F2 & F3).
  { rewrite Ht'. exact Hthrew. }
  fold s2 in Ep, Ei, F1, F2, F3.
  split; [exact Ep|]. split; [rewrite Ei, Hi'; exact Hsame|].
  repeat split; assumption.
Qed.

Lemma select_cells (b : Z) (s : AppState) (i : nat) (p : obj) :
  actInv b s → patients s !! i = Some p →
  let s1 := act isoDate s (ASelect i) in
  selectedPatient s1 = Some p ∧ patients s1 = patients s
  ∧ newMedication s1 = newMedication s ∧ actInv b s1.
Proof.
  intros Hinv Hi s1.
  destruct (actInv_member _ _ _ _ Hinv Hi) as (_ & Hmeds & _).
  assert (E : s1 = handlePatientClick p s) by apply (act_row s i true p Hi).
  rewrite E. unfold handlePatientClick. rewrite (normalize_medsBelow b p Hmeds).
  split; [reflexivity|]. split; [reflexivity|]. split; [reflexivity|].
  apply (actInv_untouched b s); try reflexivity; [|exact Hinv].
  intros sel [= <-]. exact Hmeds.
Qed.

Lemma deleteMedication_selected (pid mid : option json) (s : AppState)
    (ups : list obj) (sel' : obj) :
  mapM (λ p, if strict_eq (prop "id" p) pid
             then dropMedication mid p else Some p) (patients s) = Some ups →
  (savePatients ups s).2 = false →
  strict_eq (selectedId s) pid = true →
  selectedPatient s ≫= dropMedication mid = Some sel' →
  selectedPatient (deleteMedication pid mid true s) = Some sel'.
Proof.
  intros E Ht Hsel Hdrop.
  destruct (deleteMedication_cells pid mid s ups E) as (_ & _ & _ & [H|H]).
  - unfold deleteMedication in *. rewrite E in *.
    destruct (savePatients_idb_ext ups (setPatients ups s) s eq_refl eq_refl)
      as (_ & Ht').
    rewrite Ht in Ht'.
    destruct (savePatients ups (setPatients ups s)) as [s1 threw].
    simpl in Ht'. subst threw. rewrite Hsel, Hdrop. reflexivity.
  - destruct H as (_ & _ & sel'' & E1 & E2). congruence.
Qed.

Lemma withoutMedication_last (b now : Z) (ms : list json) (new : json) :
  b ≤ now →
  Forall (λ m, stampedBelow b (medicationId m)) ms →
  memberId new = Some (Some (JStr (toString now))) →
  withoutMedication (Some (JStr (toString now))) (ms ++ [new]) = Some ms.
Proof.
  intros Hb Hall Hnew. induction Hall as [|m ms Hm _ IH]; simpl.
  - rewrite Hnew. simpl. rewrite String.eqb_refl. reflexivity.
  - rewrite (memberId_stamped b m Hm), IH. simpl.
    rewrite strict_eq_ne; [reflexivity|].
    destruct Hm as (t & Ht & ->). intros [= E]. apply toString_inj in E. lia.
Qed.

Lemma addMedication_then_delete (b now : Z) (s : AppState) (i : nat) (p : obj) :
  actInv b s → b ≤ now → patients s !! i = Some p →
  truthyV (prop "description" (newMedication s)) = true →
  let s1 := act isoDate s (ASelect i) in
  let s2 := addMedication isoDate now s1 in
  let s3 := deleteMedicationRow (length (medicationIds p)) true s2 in
  medicationIds <$> patients s2
  = <[i := medicationIds p ++ [Some (JStr (toString now))]]>
      (medicationIds <$> patients s)
  ∧ patients s3 = patients s
  ∧ selectedPatient s3 = Some p
  ∧ idb s3 = idb s.
Proof.
  intros Hinv Hb Hi Hd s1 s2 s3.
  destruct (select_cells b s i p Hinv Hi) as (Es1 & Ep1 & En1 & Hinv1).
  fold s1 in Es1, Ep1, En1, Hinv1.
  destruct (actInv_member _ _ _ _ Hinv Hi) as (_ & Hmeds & Hrefl & _).
  destruct Hmeds as (ms & Hm & Hall & Hmnd).
  assert (Hd1 : truthyV (prop "description" (newMedication s1)) = true).
  { rewrite En1. exact Hd. }
  destruct (addMedication_saved_cells isoDate now s1 p ms Es1 Hd1 Hm)
    as (Ep2 & Es2 & _).
  fold s2 in Ep2, Es2. rewrite En1, Ep1 in Ep2. rewrite En1 in Es2.
  set (new := JObj (obj_set "id" (JStr (toString now)) (newMedication s))) in *.
  set (up := obj_set "medications" (JArr (ms ++ [new])) p) in *.
  assert (Hinv2 : actInv (now + 1) s2)
    by (apply (addMedication_actInv isoDate b); assumption).
  assert (Hidup : prop "id" up = prop "id" p).
  { apply prop_obj_set_ne. discriminate. }
  assert (Hnew : memberId new = Some (Some (JStr (toString now)))).
  { unfold new. simpl. rewrite prop_obj_set_eq. reflexivity. }
  rewrite (fmap_at_id (λ _, up) (prop "id" p) (patients s) i p) in Ep2;
    [|apply Hinv|exact Hi|reflexivity|exact Hrefl].
  assert (Hi2 : patients s2 !! i = Some up).
  { rewrite Ep2. apply list_lookup_insert_eq. eapply lookup_lt_Some. exact Hi. }
  assert (Hlen : length (medicationIds p) = length ms).
  { unfold medicationIds. rewrite Hm. apply length_fmap. }
  assert (Hdrop : dropMedication (Some (JStr (toString now))) up = Some p).
  { unfold dropMedication, up. rewrite prop_obj_set_eq.
    rewrite (withoutMedication_last b now ms new Hb Hall Hnew). simpl.
    rewrite obj_set_set. f_equal. apply obj_set_same. exact Hm. }
  assert (Emap : mapM (λ x, if strict_eq (prop "id" x) (prop "id" up)
                            then dropMedication (Some (JStr (toString now))) x
                            else Some x) (patients s2) = Some (patients s)).
  { rewrite (mapM_at_id _ (prop "id" up) (patients s2) i up p);
      [|apply Hinv2|exact Hi2|reflexivity|rewrite Hidup; exact Hrefl|exact Hdrop].
    rewrite Ep2, list_insert_insert_eq, list_insert_id by exact Hi. reflexivity. }
  assert (E3 : s3 = deleteMedication (prop "id" up) (Some (JStr (toString now)))
                      true s2).
  { unfold s3, deleteMedicationRow. rewrite Es2. unfold up at 1.
    rewrite prop_obj_set_eq. cbn [orElse truthy].
    rewrite Hlen, list_lookup_middle by reflexivity.
    change (Some new ≫= memberId) with (memberId new). rewrite Hnew.
    reflexivity. }
  destruct (deleteMedication_cells _ _ s2 _ Emap) as (Ep3 & _).
  rewrite <- E3 in Ep3.
  assert (Hinv3 : actInv (now + 1) s3).
  { rewrite E3. apply deleteMedication_actInv. exact Hinv2. }
  split; [|split; [exact Ep3|split]].
  - rewrite Ep2, list_fmap_insert. f_equal.
    unfold medicationIds, up. rewrite prop_obj_set_eq, Hm, fmap_app. simpl.
    f_equal. f_equal. unfold new. apply prop_obj_set_eq.
  - rewrite E3. apply (deleteMedication_selected _ _ s2 (patients s)).
    + exact Emap.
    + destruct Hinv2 as (Hdb2 & _).
      destruct Hinv as (_ & Hids & Hnd & _).
      apply (stamped_mirrored_after_save b (patients s) s2 Hdb2 Hids Hnd).
    + unfold selectedId. rewrite Es2. simpl. rewrite Hidup. exact Hrefl.
    + rewrite Es2. simpl. exact Hdrop.
  - apply mirrored_same; [apply Hinv|apply Hinv3|exact Ep3].
Qed.

Lemma deletePatient_selected (pid : option json) (s : AppState) :
  (savePatients
     (filter (λ p, strict_eq (prop "id" p) pid = false) (patients s)) s).2 = false →
  selectedPatient (deletePatient pid true s)
  = if strict_eq (selectedId s) pid then None else selectedPatient s.
Proof.
  intros Ht. unfold deletePatient.
  set (ups := filter (λ p, strict_eq (prop "id" p) pid = false) (patients s)) in *.
  destruct (savePatients_idb_ext ups (setPatients ups s) s eq_refl eq_refl)
    as (_ & Ht').
  rewrite Ht in Ht'.
  destruct (savePatients_frame ups (setPatients ups s)) as (_ & Hs & _).
  destruct (savePatients ups (setPatients ups s)) as [s1 threw].
  simpl in Ht', Hs. subst threw.
  destruct (strict_eq (selectedId s) pid); [reflexivity|exact Hs].
Qed.

Lemma delete_row (b : Z) (s : AppState) (i : nat) (p : obj) :
  actInv b s → patients s !! i = Some p →
  let s' := act isoDate s (ADelete i true) in
  patients s' = delete i (patients s)
  ∧ (p ∉ patients s')
  ∧ getAll (idb s') ≡ₚ delete i (patients s)
  ∧ (selectedPatient s'
     = if strict_eq (selectedId s) (prop "id" p) then None else selectedPatient s)
  ∧ act isoDate s (ADelete i false) = s.
Proof.
  intros Hinv Hi s'.
  destruct (actInv_member _ _ _ _ Hinv Hi) as (_ & _ & Hrefl & _).
  assert (E : s' = deletePatient (prop "id" p) true s) by apply (act_row s i true p Hi).
  assert (Hinv' : actInv b s') by (rewrite E; apply deletePatient_actInv; exact Hinv).
  destruct (deletePatient_cells (prop "id" p) s) as (Ep & _).
  rewrite <- E in Ep.
  rewrite (filter_at_id (prop "id" p) (patients s) i p) in Ep;
    [|apply Hinv|exact Hi|reflexivity|exact Hrefl].
  split; [exact Ep|]. split; [|split; [|split]].
  - rewrite Ep. intros Hin.
    assert (Hnd : NoDup (patients s)).
    { eapply NoDup_fmap_1. apply Hinv. }
    rewrite <- (take_drop_middle _ _ _ Hi) in Hnd.
    rewrite delete_take_drop in Hin.
    apply NoDup_app in Hnd as (_ & Hdisj & Hnd).
    apply list.NoDup_cons in Hnd as [Hnot _].
    apply elem_of_app in Hin as [Hin|Hin]; [|contradiction].
    apply (Hdisj p Hin). left.
  - rewrite <- Ep. apply mirrored_getAll. apply Hinv'.
  - rewrite E. apply deletePatient_selected.
    rewrite <- (filter_at_id (prop "id" p) (patients s) i p) in Ep;
      [|apply Hinv|exact Hi|reflexivity|exact Hrefl].
    destruct Hinv as (Hdb & _). destruct Hinv' as (_ & Hids' & Hnd' & _).
    rewrite Ep in Hids', Hnd'.
    apply (stamped_mirrored_after_save b _ s Hdb Hids' Hnd').
  - rewrite (proj1 (act_row s i false p Hi)). reflexivity.
Qed.

Lemma select_then_next_visit (b : Z) (s : AppState) (i : nat) (p : obj)
    (date : string) :
  actInv b s → patients s !! i = Some p →
  let s' := updateNextVisitDate date (act isoDate s (ASelect i)) in
  patients s' = <[i := obj_set "nextVisitDate" (JStr date) p]> (patients s)
  ∧ selectedPatient s' = Some (obj_set "nextVisitDate" (JStr date) p)
  ∧ getAll (idb s') ≡ₚ patients s'.
Proof.
  intros Hinv Hi s'.
  destruct (select_cells b s i p Hinv Hi) as (Es1 & Ep1 & _ & Hinv1).
  destruct (actInv_member _ _ _ _ Hinv Hi) as (_ & _ & Hrefl & _).
  destruct (updateNextVisitDate_cells date _ p Es1) as (Ep & Es & _).
  fold s' in Ep, Es. rewrite Ep1 in Ep.
  rewrite (fmap_at_id (λ _, obj_set "nextVisitDate" (JStr date) p)
             (prop "id" p) (patients s) i p) in Ep;
    [|apply Hinv|exact Hi|reflexivity|exact Hrefl].
  split; [exact Ep|]. split; [exact Es|].
  apply mirrored_getAll.
  apply (updateNextVisitDate_actInv b date _ Hinv1).
Qed.

Lemma draftIncomplete_rename (p : obj) (v : string) :
  draftIncomplete p = false → v ≠ "" →
  draftIncomplete (obj_set "name" (JStr v) p) = false.
Proof.
  unfold draftIncomplete. intros H Hv.
  rewrite prop_obj_set_eq, !prop_obj_set_ne by discriminate.
  apply orb_false_iff in H as [H H3]. apply orb_false_iff in H as [_ H2].
  rewrite H2, H3. simpl.
  apply String.eqb_neq in Hv. rewrite Hv. reflexivity.
Qed.

Lemma edit_lost_through_selection (b now : Z) (s : AppState) (i : nat) (p : obj)
    (v date : string) :
  actInv b s → patients s !! i = Some p → draftIncomplete p = false → v ≠ "" →
  let s4 := runActions isoDate
              [ASelect i; AEdit i; ATypePatient FName v; ASubmit now] s in
  let s5 := act isoDate s4 (ASetNextVisit date) in
  patients s4 = <[i := obj_set "name" (JStr v) p]> (patients s)
  ∧ patients s5 = <[i := obj_set "nextVisitDate" (JStr date) p]> (patients s)
  ∧ getAll (idb s5) ≡ₚ patients s5.
Proof.
  intros Hinv Hi Hd Hv s4 s5.
  destruct (select_cells b s i p Hinv Hi) as (Es1 & Ep1 & _ & Hinv1).
  set (s1 := act isoDate s (ASelect i)) in *.
  destruct (actInv_member _ _ _ _ Hinv Hi) as (Hst & Hmeds & Hrefl & Htr).
  assert (Hnorm : normalize p = p) by (apply (normalize_medsBelow b); exact Hmeds).
  assert (Hi1 : patients s1 !! i = Some p) by (rewrite Ep1; exact Hi).
  set (s3 := changePatientField FName v (editPatient p s1)).
  assert (E4 : s4 = addPatient isoDate now s3).
  { unfold s4, runActions. cbn [foldl]. fold s1.
    rewrite (proj1 (proj2 (act_row s1 i true p Hi1))). reflexivity. }
  destruct (prop "id" p) as [eid|] eqn:Hid; [|discriminate]. simpl in Htr.
  set (draft := obj_set "name" (JStr v) p).
  assert (Hn3 : newPatient s3 = draft).
  { unfold s3, draft. simpl. rewrite Hnorm. reflexivity. }
  assert (Hd3 : draftIncomplete (newPatient s3) = false).
  { rewrite Hn3. apply draftIncomplete_rename; assumption. }
  assert (Hinv3 : actInv b s3).
  { apply (actInv_untouched b s1); try reflexivity; [|exact Hinv1].
    apply Hinv1. }
  assert (He3 : editingId s3 = Some eid) by exact Hid.
  assert (Hups : editedPatients eid (newPatient s3) (patients s3)
                 = <[i := draft]> (patients s)).
  { rewrite Hn3. change (patients s3) with (patients s1). rewrite Ep1.
    unfold editedPatients.
    rewrite (fmap_at_id _ (Some eid) (patients s) i p);
      [|apply Hinv|exact Hi|exact Hid|exact Hrefl].
    f_equal. destruct Hmeds as (ms & Hm & _). rewrite Hm. simpl.
    rewrite (obj_set_same "id")
      by (unfold draft; rewrite prop_obj_set_ne by discriminate; exact Hid).
    apply obj_set_same. unfold draft.
    rewrite prop_obj_set_ne by discriminate. exact Hm. }
  destruct (addPatient_saved_cells isoDate now s3 _ Hd3 eq_refl)
    as (Ep4 & Es4 & Ed4 & Ei4).
  rewrite He3, Htr, Hups in Ep4, Ei4. rewrite <- E4 in Ep4, Es4, Ed4, Ei4.
  assert (Hid' : prop "id" draft = prop "id" p).
  { unfold draft. apply prop_obj_set_ne. discriminate. }
  assert (Hmd : medsBelow b draft).
  { unfold draft. apply medsBelow_other; [discriminate|exact Hmeds]. }
  assert (Hinv4 : actInv b s4).
  { destruct Hinv3 as (Hdb3 & _). destruct Hinv as (_ & Hids & Hnd & Hm' & _).
    eapply (actInv_saved b s3); [exact Hdb3|exact Ep4|exact Ed4|exact Ei4|..].
    - rewrite (patientIds_insert _ i p) by assumption. exact Hids.
    - rewrite (patientIds_insert _ i p) by assumption. exact Hnd.
    - rewrite list.Forall_forall in *. intros x Hx.
      apply list_elem_of_lookup_1 in Hx as (j & Hj).
      destruct (decide (j = i)) as [->|Hne].
      + rewrite list_lookup_insert_eq in Hj by (eapply lookup_lt_Some; exact Hi).
        injection Hj as <-. exact Hmd.
      + rewrite list_lookup_insert_ne in Hj by congruence.
        apply Hm'. eapply list_elem_of_lookup_2. exact Hj.
    - rewrite Es4. change (selectedPatient s3) with (selectedPatient s1).
      rewrite Es1. intros sel [= <-]. exact Hmeds. }
  assert (Es4' : selectedPatient s4 = Some p).
  { rewrite Es4. exact Es1. }
  destruct (updateNextVisitDate_cells date s4 p Es4') as (Ep5 & _).
  change (updateNextVisitDate date s4) with s5 in Ep5.
  assert (Hi4 : patients s4 !! i = Some draft).
  { rewrite Ep4. apply list_lookup_insert_eq. eapply lookup_lt_Some. exact Hi. }
  rewrite (fmap_at_id (λ _, obj_set "nextVisitDate" (JStr date) p)
             (prop "id" p) (patients s4) i draft) in Ep5;
    [|apply Hinv4|exact Hi4|rewrite Hid, <- Hid; exact Hid'|rewrite Hid; exact Hrefl].
  rewrite Ep4, list_insert_insert_eq in Ep5.
  split; [exact Ep4|]. split; [exact Ep5|].
  apply mirrored_getAll. apply (updateNextVisitDate_actInv b date s4 Hinv4).
Qed.

End CompositionProperties.


(** X8.  In a state so reached, with no edit in progress and a complete
    form, submitting adds one patient, and deleting the last row then
    brings the collection and the store back to what they were. *)
Theorem add_then_delete_round_trip
    (isoDate : Z → string) (s0 : AppState) (acts : list action) (now : Z) :
  db s0 = true → idb s0 = ∅ → patients s0 = [] → selectedPatient s0 = None →
  Sorted Z.lt (actionStamps acts ++ [now]) →
  let s := runActions isoDate acts s0 in
  draftIncomplete (newPatient s) = false → editingId s = None →
  let s' := runActions isoDate
              [ASubmit now; ADelete (length (patients s)) true] s in
  length (patients (act isoDate s (ASubmit now))) = S (length (patients s))
  ∧ patients s' = patients s
  ∧ idb s' = idb s.
Proof.
  intros Hd Hi Hp Hs Hsorted s Hdraft He s'.
  destruct (actInv_reached_then isoDate s0 acts [now] Hd Hi Hp Hs Hsorted)
    as (b & Hinv & Hb & _).
  destruct (add_then_delete isoDate b now s Hinv Hb Hdraft He) as (E1 & E2 & E3).
  split; [|split; assumption].
  change (act isoDate s (ASubmit now)) with (addPatient isoDate now s).
  rewrite E1. unfold appendedPatients. rewrite length_app. simpl. lia.
Qed.

Lemma add_then_delete_round_trip_sample :
  let s := runActions RefPlatform.isoDate Scenario.thirdTyped Sample.fresh in
  let s' := runActions RefPlatform.isoDate
              [ASubmit 1700000000600; ADelete (length (patients s)) true] s in
  draftIncomplete (newPatient s) = false
  ∧ patients s' = patients s ∧ idb s' = idb s.
Proof.
  intros s s'.
  assert (h1 : db Sample.fresh = true) by (vm_compute; reflexivity).
  assert (h2 : idb Sample.fresh = ∅) by (vm_compute; reflexivity).
  assert (h3 : patients Sample.fresh = []) by (vm_compute; reflexivity).
  assert (h4 : selectedPatient Sample.fresh = None) by (vm_compute; reflexivity).
  assert (h5 : Sorted Z.lt (actionStamps Scenario.thirdTyped ++ [1700000000600])).
  { change (actionStamps Scenario.thirdTyped ++ [1700000000600])
      with [1700000000000; 1700000000001; 1700000000500; 1700000000600].
    repeat constructor. }
  assert (h6 : draftIncomplete (newPatient s) = false) by (vm_compute; reflexivity).
  assert (h7 : editingId s = None) by (vm_compute; reflexivity).
  split; [exact h6|].
  apply (add_then_delete_round_trip RefPlatform.isoDate Sample.fresh
           Scenario.thirdTyped 1700000000600 h1 h2 h3 h4 h5 h6 h7).
Defined.

Lemma store_mirrors_collection_sample :
  let s := runActions RefPlatform.isoDate Scenario.busy Sample.fresh in
  Sorted Z.lt (actionStamps Scenario.busy)
  ∧ length (patients s) = 2%nat
  ∧ getAll (idb s) ≡ₚ patients s
  ∧ patients (loadPatients s) ≡ₚ patients s.
Proof.
  intros s.
  assert (h1 : db Sample.fresh = true) by (vm_compute; reflexivity).
  assert (h2 : idb Sample.fresh = ∅) by (vm_compute; reflexivity).
  assert (h3 : patients Sample.fresh = []) by (vm_compute; reflexivity).
  assert (h4 : selectedPatient Sample.fresh = None) by (vm_compute; reflexivity).
  assert (h5 : Sorted Z.lt (actionStamps Scenario.busy)).
  { change (actionStamps Scenario.busy)
      with [1700000000000; 1700000000001; 1700000000500; 1700000000600;
            1700000000700; 1700000000800].
    repeat constructor. }
  split; [exact h5|].
  split; [vm_compute; reflexivity|].
  apply (store_mirrors_collection_after_actions RefPlatform.isoDate Sample.fresh
           Scenario.busy h1 h2 h3 h4 h5).
Defined.

Lemma ids_stay_distinct_sample :
  let s := runActions RefPlatform.isoDate Scenario.busy Sample.fresh in
  Sorted Z.lt (actionStamps Scenario.busy)
  ∧ NoDup (patientIds (patients s))
  ∧ Forall (λ p, NoDup (medicationIds p)) (patients s).
Proof.
  intros s.
  assert (h1 : db Sample.fresh = true) by (vm_compute; reflexivity).
  assert (h2 : idb Sample.fresh = ∅) by (vm_compute; reflexivity).
  assert (h3 : patients Sample.fresh = []) by (vm_compute; reflexivity).
  assert (h4 : selectedPatient Sample.fresh = None) by (vm_compute; reflexivity).
  assert (h5 : Sorted Z.lt (actionStamps Scenario.busy)).
  { change (actionStamps Scenario.busy)
      with [1700000000000; 1700000000001; 1700000000500; 1700000000600;
            1700000000700; 1700000000800].
    repeat constructor. }
  split; [exact h5|].
  pose proof (ids_stay_distinct_under_all_actions RefPlatform.isoDate
                Sample.fresh Scenario.busy h1 h2 h3 h4 h5) as H.
  cbv zeta in H. destruct H as (Hnd & _ & Hmeds & _).
  split; [exact Hnd|exact Hmeds].
Defined.

(** X9.  In a state so reached, opening the patient at row [i] and adding
    a medication gives that patient one more medication id, the clock
    value of the add, and leaves the medications of all others alone;
    deleting the medication row just added brings the collection, the
    open patient and the store back to what they were before the add. *)
Theorem medication_add_then_delete_round_trip
    (isoDate : Z → string) (s0 : AppState) (acts : list action) (now : Z)
    (i : nat) (p : obj) :
  db s0 = true → idb s0 = ∅ → patients s0 = [] → selectedPatient s0 = None →
  Sorted Z.lt (actionStamps acts ++ [now]) →
  let s := runActions isoDate acts s0 in
  patients s !! i = Some p →
  truthyV (prop "description" (newMedication s)) = true →
  let s2 := runActions isoDate [ASelect i; AAddMedication now] s in
  let s3 := act isoDate s2 (ADeleteMedication (length (medicationIds p)) true) in
  medicationIds <$> patients s2
  = <[i := medicationIds p ++ [Some (JStr (toString now))]]>
      (medicationIds <$> patients s)
  ∧ patients s3 = patients s
  ∧ selectedPatient s3 = Some p
  ∧ idb s3 = idb s.
Proof.
  intros Hd Hi Hp Hs Hsorted s Hrow Hdesc s2 s3.
  destruct (actInv_reached_then isoDate s0 acts [now] Hd Hi Hp Hs Hsorted)
    as (b & Hinv & Hb & _).
  exact (addMedication_then_delete isoDate b now s i p Hinv Hb Hrow Hdesc).
Qed.

Lemma medication_round_trip_sample :
  let s := runActions RefPlatform.isoDate Scenario.medicationTyped Sample.fresh in
  let s2 := runActions RefPlatform.isoDate
              [ASelect 0; AAddMedication 1700000000600] s in
  let s3 := act RefPlatform.isoDate s2
              (ADeleteMedication (length (medicationIds Sample.asha)) true) in
  patients s !! 0%nat = Some Sample.asha
  ∧ truthyV (prop "description" (newMedication s)) = true
  ∧ patients s3 = patients s ∧ idb s3 = idb s.
Proof.
  intros s s2 s3.
  assert (h1 : db Sample.fresh = true) by (vm_compute; reflexivity).
  assert (h2 : idb Sample.fresh = ∅) by (vm_compute; reflexivity).
  assert (h3 : patients Sample.fresh = []) by (vm_compute; reflexivity).
  assert (h4 : selectedPatient Sample.fresh = None) by (vm_compute; reflexivity).
  assert (h5 : Sorted Z.lt (actionStamps Scenario.medicationTyped ++ [1700000000600])).
  { change (actionStamps Scenario.medicationTyped ++ [1700000000600])
      with [1700000000000; 1700000000001; 1700000000500; 1700000000600].
    repeat constructor. }
  assert (h6 : patients s !! 0%nat = Some Sample.asha) by (vm_compute; reflexivity).
  assert (h7 : truthyV (prop "description" (newMedication s)) = true)
    by (vm_compute; reflexivity).
  split; [exact h6|]. split; [exact h7|].
  destruct (medication_add_then_delete_round_trip RefPlatform.isoDate Sample.fresh
              Scenario.medicationTyped 1700000000600 0 Sample.asha
              h1 h2 h3 h4 h5 h6 h7) as (_ & Hps & _ & Hidb).
  split; [exact Hps|exact Hidb].
Defined.

(** X10.  In a state so reached, opening the edit form on a complete
    patient and submitting it unchanged leaves the collection and the
    store as they were, and resets the form. *)
Theorem edit_unchanged_then_submit_is_identity
    (isoDate : Z → string) (s0 : AppState) (acts : list action) (now : Z)
    (i : nat) (p : obj) :
  db s0 = true → idb s0 = ∅ → patients s0 = [] → selectedPatient s0 = None →
  Sorted Z.lt (actionStamps acts) →
  let s := runActions isoDate acts s0 in
  patients s !! i = Some p → draftIncomplete p = false →
  let s' := runActions isoDate [AEdit i; ASubmit now] s in
  patients s' = patients s ∧ idb s' = idb s
  ∧ editingId s' = None ∧ newPatient s' = blankPatient (isoDate now)
  ∧ showAddForm s' = false.
Proof.
  intros Hd Hi Hp Hs Hsorted s Hrow Hdraft s'.
  rewrite <- (app_nil_r (actionStamps acts)) in Hsorted.
  destruct (actInv_reached_then isoDate s0 acts [] Hd Hi Hp Hs Hsorted)
    as (b & Hinv & _).
  unfold s', runActions. cbn [foldl].
  rewrite (proj1 (proj2 (act_row isoDate s i true p Hrow))).
  exact (edit_then_submit isoDate b now s i p Hinv Hrow Hdraft).
Qed.

Lemma edit_unchanged_sample :
  let s := runActions RefPlatform.isoDate Scenario.visits Sample.fresh in
  let s' := runActions RefPlatform.isoDate [AEdit 0; ASubmit 1700000000600] s in
  patients s !! 0%nat = Some Sample.asha
  ∧ draftIncomplete Sample.asha = false
  ∧ patients s' = patients s ∧ idb s' = idb s.
Proof.
  intros s s'.
  assert (h1 : db Sample.fresh = true) by (vm_compute; reflexivity).
  assert (h2 : idb Sample.fresh = ∅) by (vm_compute; reflexivity).
  assert (h3 : patients Sample.fresh = []) by (vm_compute; reflexivity).
  assert (h4 : selectedPatient Sample.fresh = None) by (vm_compute; reflexivity).
  assert (h5 : Sorted Z.lt (actionStamps Scenario.visits)).
  { change (actionStamps Scenario.visits)
      with [1700000000000; 1700000000001; 1700000000500].
    repeat constructor. }
  assert (h6 : patients s !! 0%nat = Some Sample.asha) by (vm_compute; reflexivity).
  assert (h7 : draftIncomplete Sample.asha = false) by (vm_compute; reflexivity).
  split; [exact h6|]. split; [exact h7|].
  destruct (edit_unchanged_then_submit_is_identity RefPlatform.isoDate Sample.fresh
              Scenario.visits 1700000000600 0 Sample.asha
              h1 h2 h3 h4 h5 h6 h7) as (Hps & Hidb & _).
  split; [exact Hps|exact Hidb].
Defined.

(** X11.  In a state so reached, deleting row [i] and confirming removes
    exactly that patient: the collection is the old one without position
    [i], the patient no longer occurs in it, the store holds exactly the
    remaining patients, and the open patient is closed when it carries
    the deleted id and kept otherwise.  Declining changes nothing. *)
Theorem delete_removes_exactly_that_patient
    (isoDate : Z → string) (s0 : AppState) (acts : list action)
    (i : nat) (p : obj) :
  db s0 = true → idb s0 = ∅ → patients s0 = [] → selectedPatient s0 = None →
  Sorted Z.lt (actionStamps acts) →
  let s := runActions isoDate acts s0 in
  patients s !! i = Some p →
  let s' := act isoDate s (ADelete i true) in
  patients s' = delete i (patients s)
  ∧ (p ∉ patients s')
  ∧ getAll (idb s') ≡ₚ delete i (patients s)
  ∧ (selectedPatient s'
     = if strict_eq (selectedId s) (prop "id" p) then None else selectedPatient s)
  ∧ act isoDate s (ADelete i false) = s.
Proof.
  intros Hd Hi Hp Hs Hsorted s Hrow s'.
  rewrite <- (app_nil_r (actionStamps acts)) in Hsorted.
  destruct (actInv_reached_then isoDate s0 acts [] Hd Hi Hp Hs Hsorted)
    as (b & Hinv & _).
  exact (delete_row isoDate b s i p Hinv Hrow).
Qed.

Lemma delete_removes_sample :
  let s := runActions RefPlatform.isoDate Scenario.visits Sample.fresh in
  let s' := act RefPlatform.isoDate s (ADelete 0 true) in
  patients s !! 0%nat = Some Sample.asha
  ∧ patients s' = delete 0%nat (patients s)
  ∧ (Sample.asha ∉ patients s').
Proof.
  intros s s'.
  assert (h1 : db Sample.fresh = true) by (vm_compute; reflexivity).
  assert (h2 : idb Sample.fresh = ∅) by (vm_compute; reflexivity).
  assert (h3 : patients Sample.fresh = []) by (vm_compute; reflexivity).
  assert (h4 : selectedPatient Sample.fresh = None) by (vm_compute; reflexivity).
  assert (h5 : Sorted Z.lt (actionStamps Scenario.visits)).
  { change (actionStamps Scenario.visits)
      with [1700000000000; 1700000000001; 1700000000500].
    repeat constructor. }
  assert (h6 : patients s !! 0%nat = Some Sample.asha) by (vm_compute; reflexivity).
  split; [exact h6|].
  destruct (delete_removes_exactly_that_patient RefPlatform.isoDate Sample.fresh
              Scenario.visits 0 Sample.asha h1 h2 h3 h4 h5 h6) as (Hps & Hnot & _).
  split; [exact Hps|exact Hnot].
Defined.

(** X12.  In a state so reached, opening row [i] and setting the next
    visit date changes that date of that patient and nothing else: the
    collection is the old one with position [i] replaced by the patient
    with the new date, the open patient is that record, and the store
    holds the new collection. *)
Theorem next_visit_changes_one_patient
    (isoDate : Z → string) (s0 : AppState) (acts : list action)
    (i : nat) (p : obj) (date : string) :
  db s0 = true → idb s0 = ∅ → patients s0 = [] → selectedPatient s0 = None →
  Sorted Z.lt (actionStamps acts) →
  let s := runActions isoDate acts s0 in
  patients s !! i = Some p →
  let s' := runActions isoDate [ASelect i; ASetNextVisit date] s in
  patients s' = <[i := obj_set "nextVisitDate" (JStr date) p]> (patients s)
  ∧ selectedPatient s' = Some (obj_set "nextVisitDate" (JStr date) p)
  ∧ getAll (idb s') ≡ₚ patients s'.
Proof.
  intros Hd Hi Hp Hs Hsorted s Hrow s'.
  rewrite <- (app_nil_r (actionStamps acts)) in Hsorted.
  destruct (actInv_reached_then isoDate s0 acts [] Hd Hi Hp Hs Hsorted)
    as (b & Hinv & _).
  exact (select_then_next_visit isoDate b s i p date Hinv Hrow).
Qed.

Lemma next_visit_sample :
  let s := runActions RefPlatform.isoDate Scenario.visits Sample.fresh in
  let s' := runActions RefPlatform.isoDate
              [ASelect 0; ASetNextVisit "2023-12-01"] s in
  patients s !! 0%nat = Some Sample.asha
  ∧ patients s'
    = <[0%nat := obj_set "nextVisitDate" (JStr "2023-12-01") Sample.asha]>
        (patients s).
Proof.
  intros s s'.
  assert (h1 : db Sample.fresh = true) by (vm_compute; reflexivity).
  assert (h2 : idb Sample.fresh = ∅) by (vm_compute; reflexivity).
  assert (h3 : patients Sample.fresh = []) by (vm_compute; reflexivity).
  assert (h4 : selectedPatient Sample.fresh = None) by (vm_compute; reflexivity).
  assert (h5 : Sorted Z.lt (actionStamps Scenario.visits)).
  { change (actionStamps Scenario.visits)
      with [1700000000000; 1700000000001; 1700000000500].
    repeat constructor. }
  assert (h6 : patients s !! 0%nat = Some Sample.asha) by (vm_compute; reflexivity).
  split; [exact h6|].
  destruct (next_visit_changes_one_patient RefPlatform.isoDate Sample.fresh
              Scenario.visits 0 Sample.asha "2023-12-01" h1 h2 h3 h4 h5 h6)
    as (Hps & _).
  exact Hps.
Defined.

(** X13.  The open patient is a copy taken when it was opened.  When the
    handlers run in this order: the patient at row [i] is opened, the same
    row is renamed through the edit form (the collection then carries the
    new name), a next visit date is set, the record written back is built
    from the copy: collection and store end up with the old name, and the
    rename is lost. *)
Theorem stale_selection_reverts_edit
    (isoDate : Z → string) (s0 : AppState) (acts : list action) (now : Z)
    (i : nat) (p : obj) (v date : string) :
  db s0 = true → idb s0 = ∅ → patients s0 = [] → selectedPatient s0 = None →
  Sorted Z.lt (actionStamps acts) →
  let s := runActions isoDate acts s0 in
  patients s !! i = Some p → draftIncomplete p = false → v ≠ "" →
  let s4 := runActions isoDate
              [ASelect i; AEdit i; ATypePatient FName v; ASubmit now] s in
  let s5 := act isoDate s4 (ASetNextVisit date) in
  patients s4 = <[i := obj_set "name" (JStr v) p]> (patients s)
  ∧ patients s5 = <[i := obj_set "nextVisitDate" (JStr date) p]> (patients s)
  ∧ getAll (idb s5) ≡ₚ patients s5.
Proof.
  intros Hd Hi Hp Hs Hsorted s Hrow Hdraft Hv s4 s5.
  rewrite <- (app_nil_r (actionStamps acts)) in Hsorted.
  destruct (actInv_reached_then isoDate s0 acts [] Hd Hi Hp Hs Hsorted)
    as (b & Hinv & _).
  exact (edit_lost_through_selection isoDate b now s i p v date Hinv Hrow Hdraft Hv).
Qed.

Lemma stale_selection_sample :
  let s := runActions RefPlatform.isoDate Scenario.visits Sample.fresh in
  let s4 := runActions RefPlatform.isoDate
              [ASelect 0; AEdit 0; ATypePatient FName "Asha K";
               ASubmit 1700000000600] s in
  let s5 := act RefPlatform.isoDate s4 (ASetNextVisit "2023-12-01") in
  patients s !! 0%nat = Some Sample.asha
  ∧ draftIncomplete Sample.asha = false
  ∧ "Asha K" ≠ ""
  ∧ patients s5
    = <[0%nat := obj_set "nextVisitDate" (JStr "2023-12-01") Sample.asha]>
        (patients s).
Proof.
  intros s s4 s5.
  assert (h1 : db Sample.fresh = true) by (vm_compute; reflexivity).
  assert (h2 : idb Sample.fresh = ∅) by (vm_compute; reflexivity).
  assert (h3 : patients Sample.fresh = []) by (vm_compute; reflexivity).
  assert (h4 : selectedPatient Sample.fresh = None) by (vm_compute; reflexivity).
  assert (h5 : Sorted Z.lt (actionStamps Scenario.visits)).
  { change (actionStamps Scenario.visits)
      with [1700000000000; 1700000000001; 1700000000500].
    repeat constructor. }
  assert (h6 : patients s !! 0%nat = Some Sample.asha) by (vm_compute; reflexivity).
  assert (h7 : draftIncomplete Sample.asha = false) by (vm_compute; reflexivity).
  assert (h8 : "Asha K" ≠ "") by discriminate.
  split; [exact h6|]. split; [exact h7|]. split; [exact h8|].
  destruct (stale_selection_reverts_edit RefPlatform.isoDate Sample.fresh
              Scenario.visits 1700000000600 0 Sample.asha "Asha K" "2023-12-01"
              h1 h2 h3 h4 h5 h6 h7 h8) as (_ & Hps & _).
  exact Hps.
Defined.

(** X14.  After Cancel, typing a non-empty name, mobile and place and
    submitting appends exactly one record to the collection, whatever the
    form and the edit in progress were before: its id is the clock value
    of the submit, its visit date the date of the cancel, its next visit
    date and notes are empty and it has no medications. *)
Theorem cancel_then_fill_appends_record
    (isoDate : Z → string) (s : AppState) (t0 now : Z) (n m pl : string) :
  n ≠ "" → m ≠ "" → pl ≠ "" →
  let s' := runActions isoDate
              [ACancelEdit t0; ATypePatient FName n; ATypePatient FMobile m;
               ATypePatient FPlace pl; ASubmit now] s in
  patients s'
  = patients s
    ++ [[("id", JStr (toString now)); ("name", JStr n); ("mobile", JStr m);
         ("place", JStr pl); ("visitedDate", JStr (isoDate t0));
         ("nextVisitDate", JStr ""); ("medications", JArr []);
         ("notes", JStr "")]].
Proof.
  intros Hn Hm Hpl s'.
  set (s3 := runActions isoDate
               [ACancelEdit t0; ATypePatient FName n; ATypePatient FMobile m;
                ATypePatient FPlace pl] s).
  assert (E : s' = addPatient isoDate now s3) by reflexivity.
  assert (Hd : draftIncomplete (newPatient s3) = false).
  { unfold draftIncomplete. simpl.
    apply String.eqb_neq in Hn, Hm, Hpl. rewrite Hn, Hm, Hpl. reflexivity. }
  destruct (addPatient_saved_cells isoDate now s3 _ Hd eq_refl) as (Ep & _).
  rewrite E, Ep. reflexivity.
Qed.

Lemma cancel_then_fill_sample :
  "Meera" ≠ "" ∧ "7777777777" ≠ "" ∧ "Aluva" ≠ ""
  ∧ length (patients (runActions RefPlatform.isoDate
              [ACancelEdit 1700000000000; ATypePatient FName "Meera";
               ATypePatient FMobile "7777777777"; ATypePatient FPlace "Aluva";
               ASubmit 1700000000600] Sample.editing)) = 3%nat.
Proof.
  assert (h1 : "Meera" ≠ "") by discriminate.
  assert (h2 : "7777777777" ≠ "") by discriminate.
  assert (h3 : "Aluva" ≠ "") by discriminate.
  repeat (split; [assumption|]).
  pose proof (cancel_then_fill_appends_record RefPlatform.isoDate Sample.editing
                1700000000000 1700000000600 "Meera" "7777777777" "Aluva" h1 h2 h3)
    as H.
  cbv zeta in H. rewrite H. rewrite length_app.
  assert (E : length (patients Sample.editing) = 2%nat) by (vm_compute; reflexivity).
  rewrite E. reflexivity.
Defined.


Section TimerProperties.

Variable JSON_stringify : json → string.
Variable isoDate : Z → string.

Local Abbreviation ticksRun := (runTicks JSON_stringify isoDate).
Local Abbreviation export := (performAutomaticBackup JSON_stringify isoDate).

Lemma pollTick_cases (now ts : Z) (s : AppState) :
  (enabled (backupConfig s) = true →
   db s = true →
   interval (backupConfig s) * 60000 ≤ now - lastBackup (backupConfig s) →
   pollTick JSON_stringify isoDate now ts s = export ts s)
  ∧ (enabled (backupConfig s) = false
     ∨ db s = false
     ∨ now - lastBackup (backupConfig s) < interval (backupConfig s) * 60000 →
     pollTick JSON_stringify isoDate now ts s = s).
Proof.
  unfold pollTick, checkAndBackup, backupDue, performAutomaticBackup. split.
  - intros -> -> H.
    destruct (Z.leb_spec (interval (backupConfig s) * 60 * 1000)
                (now - lastBackup (backupConfig s))); [reflexivity|lia].
  - intros [->| [->|H]]; [reflexivity| |].
    + destruct (enabled (backupConfig s)); [|reflexivity].
      destruct (_ <=? _); reflexivity.
    + destruct (enabled (backupConfig s)); [|reflexivity].
      destruct (Z.leb_spec (interval (backupConfig s) * 60 * 1000)
                  (now - lastBackup (backupConfig s))); [lia|reflexivity].
Qed.

Lemma export_cells (ts : Z) (s : AppState) :
  db s = true →
  enabled (backupConfig (export ts s)) = enabled (backupConfig s)
  ∧ interval (backupConfig (export ts s)) = interval (backupConfig s)
  ∧ lastBackup (backupConfig (export ts s)) = ts
  ∧ db (export ts s) = true
  ∧ length (downloads (export ts s)) = S (length (downloads s))
  ∧ patients (export ts s) = patients s
  ∧ idb (export ts s) = idb s.
Proof.
  intros H. unfold performAutomaticBackup. rewrite H. simpl.
  repeat split. exact H.
Qed.

Lemma runTicks_quiet (ticks : list (Z * Z)) (s : AppState) :
  enabled (backupConfig s) = false
  ∨ db s = false
  ∨ Forall (λ t, t.1 - lastBackup (backupConfig s)
                 < interval (backupConfig s) * 60000) ticks →
  ticksRun ticks s = s.
Proof.
  intros H. induction ticks as [|[now ts] ticks IH]; [reflexivity|].
  unfold runTicks. cbn [foldl fst snd].
  rewrite (proj2 (pollTick_cases now ts s)).
  - apply IH. destruct H as [H| [H|H]]; auto.
    right. right. apply list.Forall_cons in H as [_ H]. exact H.
  - destruct H as [H| [H|H]]; auto.
    right. right. apply list.Forall_cons in H as [H _]. exact H.
Qed.

(** X15.  While the scheduler is armed and the database open, a run of
    ticks that come too early does nothing, the first tick that is due
    exports once, and the ticks that follow within one interval of the
    completion of that export do nothing: the whole run is that single
    export. *)
Theorem timer_exports_once_per_period
    (early late : list (Z * Z)) (now ts : Z) (s : AppState) :
  enabled (backupConfig s) = true → db s = true →
  Forall (λ t, t.1 - lastBackup (backupConfig s)
               < interval (backupConfig s) * 60000) early →
  interval (backupConfig s) * 60000 ≤ now - lastBackup (backupConfig s) →
  Forall (λ t, t.1 - ts < interval (backupConfig s) * 60000) late →
  ticksRun (early ++ (now, ts) :: late) s = export ts s
  ∧ length (downloads (ticksRun (early ++ (now, ts) :: late) s))
    = S (length (downloads s)).
Proof.
  intros Hen Hdb Hearly Hdue Hlate.
  assert (E : ticksRun (early ++ (now, ts) :: late) s = export ts s).
  { unfold runTicks. rewrite foldl_app. fold (ticksRun early s).
    rewrite runTicks_quiet by auto. cbn [foldl fst snd].
    rewrite (proj1 (pollTick_cases now ts s)) by assumption.
    apply runTicks_quiet. right. right.
    destruct (export_cells ts s Hdb) as (_ & -> & -> & _). exact Hlate. }
  split; [exact E|]. rewrite E. apply export_cells. exact Hdb.
Qed.

(** X16.  While the scheduler is off, or the database is not open, no
    sequence of ticks changes anything. *)
Theorem timer_inert_when_off_or_closed (ticks : list (Z * Z)) (s : AppState) :
  enabled (backupConfig s) = false ∨ db s = false →
  ticksRun ticks s = s.
Proof. intros [H|H]; apply runTicks_quiet; auto. Qed.

(** X18.  With an interval of 0 or less, which the settings handler
    accepts, every tick exports, as long as the clock does not run
    backwards. *)
Theorem zero_interval_exports_on_every_tick
    (ticks : list (Z * Z)) (s : AppState) :
  enabled (backupConfig s) = true → db s = true →
  interval (backupConfig s) ≤ 0 →
  Sorted Z.le (lastBackup (backupConfig s) :: (ticks ≫= λ t, [t.1; t.2])) →
  length (downloads (ticksRun ticks s))
  = (length ticks + length (downloads s))%nat.
Proof.
  revert s. induction ticks as [|[now ts] ticks IH]; intros s Hen Hdb Hint Hs;
    [reflexivity|].
  unfold runTicks. cbn [foldl fst snd]. simpl in Hs.
  apply Sorted_inv in Hs as [Hs H1]. apply HdRel_inv in H1.
  apply Sorted_inv in Hs as [Hs H2]. apply HdRel_inv in H2.
  rewrite (proj1 (pollTick_cases now ts s)) by (assumption || nia).
  destruct (export_cells ts s Hdb) as (X1 & X2 & X3 & X4 & X5 & _).
  fold (ticksRun ticks (export ts s)).
  rewrite IH; [rewrite X5; simpl; lia|congruence|exact X4|congruence|].
  rewrite X3. exact Hs.
Qed.

End TimerProperties.

Section TimerRunProperties.

Variable JSON_stringify : json → string.
Variable isoDate : Z → string.

Lemma timerRun_inv (m delay t0 : Z) (n : nat) :
  1 ≤ m → 0 ≤ delay →
  ∀ (c r : Z) (s : AppState),
    enabled (backupConfig s) = true → db s = true →
    interval (backupConfig s) = m → 0 ≤ r < m →
    lastBackup (backupConfig s) = t0 + c * (m * 60000 + delay) →
    let sn := (timerRun JSON_stringify isoDate n
                 (lastBackup (backupConfig s) + 60000 * r) delay s).1 in
    let c' := (r + Z.of_nat n) / m in
    Z.of_nat (length (downloads sn)) = Z.of_nat (length (downloads s)) + c'
    ∧ lastBackup (backupConfig sn) = t0 + (c + c') * (m * 60000 + delay)
    ∧ patients sn = patients s ∧ idb sn = idb s.
Proof.
  intros Hm Hdelay. induction n as [|n IH]; intros c r s Hen Hdb Hint Hr Hlast.
  - simpl. rewrite Z.add_0_r, Z.div_small by lia.
    repeat split; [lia|rewrite Hlast; lia].
  - cbn [timerRun]. cbv zeta.
    set (now := lastBackup (backupConfig s) + 60000 * r + 60000).
    destruct (pollTick_cases JSON_stringify isoDate now (now + delay) s)
      as (Hfire & Hskip).
    destruct (Z.eq_dec r (m - 1)) as [Hlastr|Hnot].
    + (* the tick is due *)
      assert (Hdue : backupDue (backupConfig s) now = true).
      { unfold backupDue. apply Z.leb_le. unfold now. rewrite Hint. lia. }
      rewrite Hen, Hdue, Hdb. cbn [andb].
      rewrite Hfire; [|exact Hen|exact Hdb|unfold now; rewrite Hint; lia].
      destruct (export_cells JSON_stringify isoDate (now + delay) s Hdb)
        as (X1 & X2 & X3 & X4 & X5 & X6 & X7).
      set (s1 := performAutomaticBackup JSON_stringify isoDate (now + delay) s) in *.
      specialize (IH (c + 1) 0 s1).
      rewrite X3 in IH. rewrite Z.mul_0_r, Z.add_0_r in IH.
      destruct IH as (D & Lb & Ps & Ib);
        [congruence|exact X4|congruence|lia|unfold now; rewrite Hlast; lia|].
      assert (Ediv : (r + Z.of_nat (S n)) / m = 1 + (0 + Z.of_nat n) / m).
      { replace (r + Z.of_nat (S n)) with (1 * m + (0 + Z.of_nat n)) by lia.
        rewrite Z.div_add_l by lia. reflexivity. }
      rewrite Ediv. rewrite D, Lb, Ps, Ib, X5, X6, X7.
      repeat split; lia.
    + (* the tick comes too early *)
      assert (Hearly : backupDue (backupConfig s) now = false).
      { unfold backupDue. apply Z.leb_gt. unfold now. rewrite Hint. lia. }
      rewrite Hen, Hearly. cbn [andb].
      rewrite Hskip by (right; right; unfold now; rewrite Hint; lia).
      specialize (IH c (r + 1) s Hen Hdb Hint).
      replace (lastBackup (backupConfig s) + 60000 * (r + 1)) with now in IH
        by (unfold now; lia).
      destruct IH as (D & Lb & Ps & Ib); [lia|exact Hlast|].
      replace (r + Z.of_nat (S n)) with (r + 1 + Z.of_nat n) by lia.
      repeat split; assumption.
Qed.

(** X17.  Switched on at [t0] with an interval of [m >= 1] minutes, the
    timer exports at every [m]-th firing: after [n] firings there have
    been [n / m] exports, whatever time (under a minute) an export takes
    to complete.  Since [lastBackup] is the completion time and the timer
    is created anew then, each period lasts [m] minutes plus that time.
    The collection and the store are untouched. *)
Theorem armed_timer_exports_every_interval
    (s : AppState) (t0 delay : Z) (n : nat) :
  enabled (backupConfig s) = false → db s = true →
  1 ≤ interval (backupConfig s) → 0 ≤ delay < 60000 →
  let m := interval (backupConfig s) in
  let sn := (timerRun JSON_stringify isoDate n t0 delay
               (toggleAutomaticBackup t0 s)).1 in
  Z.of_nat (length (downloads sn))
  = Z.of_nat (length (downloads s)) + Z.of_nat n / m
  ∧ lastBackup (backupConfig sn) = t0 + (Z.of_nat n / m) * (m * 60000 + delay)
  ∧ patients sn = patients s ∧ idb sn = idb s.
Proof.
  intros Hoff Hdb Hm Hdelay m sn.
  assert (Hlast : lastBackup (backupConfig (toggleAutomaticBackup t0 s)) = t0).
  { simpl. rewrite Hoff. reflexivity. }
  destruct (timerRun_inv m delay t0 n Hm (proj1 Hdelay) 0 0
              (toggleAutomaticBackup t0 s)) as (D & Lb & Ps & Ib).
  - simpl. rewrite Hoff. reflexivity.
  - exact Hdb.
  - reflexivity.
  - lia.
  - rewrite Hlast. lia.
  - cbv zeta in D, Lb, Ps, Ib.
    rewrite ?Hlast, ?Z.mul_0_r, ?Z.add_0_r, ?Z.add_0_l in D, Lb, Ps, Ib.
    fold sn in D, Lb, Ps, Ib.
    repeat split; assumption.
Qed.

End TimerRunProperties.

Lemma armed_timer_sample :
  let s := updateBackupInterval 2 Sample.session in
  let sn := (timerRun RefPlatform.stringify RefPlatform.isoDate 7
               1700000000000 1500 (toggleAutomaticBackup 1700000000000 s)).1 in
  enabled (backupConfig s) = false ∧ db s = true
  ∧ 1 ≤ interval (backupConfig s) ∧ 0 ≤ 1500 < 60000
  ∧ Z.of_nat (length (downloads sn))
    = Z.of_nat (length (downloads s)) + Z.of_nat 7 / interval (backupConfig s).
Proof.
  intros s sn.
  assert (h1 : enabled (backupConfig s) = false) by (vm_compute; reflexivity).
  assert (h2 : db s = true) by (vm_compute; reflexivity).
  assert (h3 : 1 ≤ interval (backupConfig s)) by (vm_compute; intros H; discriminate H).
  assert (h4 : 0 ≤ 1500 < 60000) by lia.
  repeat (split; [assumption|]).
  apply (armed_timer_exports_every_interval RefPlatform.stringify RefPlatform.isoDate
           s 1700000000000 1500 7 h1 h2 h3 h4).
Defined.

Lemma timer_exports_once_sample :
  let early := [(1700000020000, 1700000020000); (1700000050000, 1700000050000)] in
  let late := [(1700000121000, 1700000121000)] in
  enabled (backupConfig Sample.armed) = true ∧ db Sample.armed = true
  ∧ length (downloads (runTicks RefPlatform.stringify RefPlatform.isoDate
                         (early ++ (1700000061000, 1700000061500) :: late)
                         Sample.armed))
    = S (length (downloads Sample.armed)).
Proof.
  intros early late.
  assert (h1 : enabled (backupConfig Sample.armed) = true) by (vm_compute; reflexivity).
  assert (h2 : db Sample.armed = true) by (vm_compute; reflexivity).
  assert (E1 : lastBackup (backupConfig Sample.armed) = 1700000000000)
    by (vm_compute; reflexivity).
  assert (E2 : interval (backupConfig Sample.armed) = 1) by (vm_compute; reflexivity).
  assert (h3 : Forall (λ t, t.1 - lastBackup (backupConfig Sample.armed)
                            < interval (backupConfig Sample.armed) * 60000) early).
  { rewrite E1, E2. repeat constructor. }
  assert (h4 : interval (backupConfig Sample.armed) * 60000
               ≤ 1700000061000 - lastBackup (backupConfig Sample.armed)).
  { rewrite E1, E2. vm_compute. intros H; discriminate H. }
  assert (h5 : Forall (λ t, t.1 - 1700000061500
                            < interval (backupConfig Sample.armed) * 60000) late).
  { rewrite E2. repeat constructor. }
  split; [exact h1|]. split; [exact h2|].
  apply (timer_exports_once_per_period RefPlatform.stringify RefPlatform.isoDate
           early late 1700000061000 1700000061500 Sample.armed h1 h2 h3 h4 h5).
Defined.

Lemma timer_inert_sample :
  enabled (backupConfig Sample.session) = false
  ∧ runTicks RefPlatform.stringify RefPlatform.isoDate
      [(1700003600000, 1700003600000)] Sample.session = Sample.session.
Proof.
  assert (h1 : enabled (backupConfig Sample.session) = false)
    by (vm_compute; reflexivity).
  split; [exact h1|].
  apply (timer_inert_when_off_or_closed RefPlatform.stringify RefPlatform.isoDate
           [(1700003600000, 1700003600000)] Sample.session (or_introl h1)).
Defined.

Lemma zero_interval_sample :
  let s := toggleAutomaticBackup 1700000000000
             (updateBackupInterval 0 Sample.session) in
  let ticks := [(1700000060000, 1700000060200); (1700000120000, 1700000120200)] in
  enabled (backupConfig s) = true ∧ db s = true
  ∧ interval (backupConfig s) ≤ 0
  ∧ length (downloads (runTicks RefPlatform.stringify RefPlatform.isoDate ticks s))
    = (length ticks + length (downloads s))%nat.
Proof.
  intros s ticks.
  assert (h1 : enabled (backupConfig s) = true) by (vm_compute; reflexivity).
  assert (h2 : db s = true) by (vm_compute; reflexivity).
  assert (h3 : interval (backupConfig s) ≤ 0) by (vm_compute; intros H; discriminate H).
  assert (h4 : Sorted Z.le (lastBackup (backupConfig s) :: (ticks ≫= λ t, [t.1; t.2]))).
  { change (lastBackup (backupConfig s) :: (ticks ≫= λ t, [t.1; t.2]))
      with [1700000000000; 1700000060000; 1700000060200;
            1700000120000; 1700000120200].
    repeat constructor; vm_compute; intros H; discriminate H. }
  repeat (split; [assumption|]).
  apply (zero_interval_exports_on_every_tick RefPlatform.stringify
           RefPlatform.isoDate ticks s h1 h2 h3 h4).
Defined.

Section HistoryProperties.

Variable JSON_stringify : json → string.
Variable isoDate : Z → string.

Lemma newHistory_nonpositive (e : BackupEntry) (h : list BackupEntry)
    (cfg : BackupConfig) :
  maxBackups cfg ≤ 0 →
  newHistory e h cfg = e :: take (Z.to_nat (Z.of_nat (length h) + maxBackups cfg - 1)) h
  ∧ Z.of_nat (length (newHistory e h cfg))
    = 1 + Z.max 0 (Z.of_nat (length h) + maxBackups cfg - 1).
Proof.
  intros H. unfold newHistory, slice0.
  destruct (Z.ltb_spec (maxBackups cfg - 1) 0); [|lia].
  replace (Z.of_nat (length h) + (maxBackups cfg - 1))
    with (Z.of_nat (length h) + maxBackups cfg - 1) by lia.
  split; [reflexivity|]. simpl length. rewrite length_take. lia.
Qed.

(** X19.  With [maxBackups <= 0], which the settings handler accepts, a
    backup puts its entry first and keeps behind it, in their order, all
    but the last [1 - maxBackups] entries of the old history, so the
    history has [1 + max 0 (length + maxBackups - 1)] entries, more than
    the bound.
    With [maxBackups = 0] a non-empty run of backups leaves a history as
    long as it was, or of one entry when it was empty. *)
Theorem history_outgrows_nonpositive_bound
    (s : AppState) (e : backupEvent) (evs : list backupEvent) :
  db s = true → maxBackups (backupConfig s) ≤ 0 →
  let h := backupHistory s in
  let h1 := backupHistory (backupStep JSON_stringify isoDate s e) in
  h1 = entryOf isoDate e
       :: take (length h - Z.to_nat (1 - maxBackups (backupConfig s))) h
  ∧ Z.of_nat (length h1)
    = 1 + Z.max 0 (Z.of_nat (length h) + maxBackups (backupConfig s) - 1)
  ∧ (maxBackups (backupConfig s) = 0 → evs ≠ [] →
     Z.of_nat (length (backupHistory (runBackups JSON_stringify isoDate evs s)))
     = Z.max 1 (Z.of_nat (length h))).
Proof.
  intros Hdb Hmax h h1.
  destruct (backupStep_open JSON_stringify isoDate s e Hdb) as (_ & _ & _ & Hh).
  destruct (newHistory_nonpositive (entryOf isoDate e) h (backupConfig s) Hmax)
    as (E & Hlen).
  unfold h1. rewrite Hh. fold h. split.
  { rewrite E. do 2 f_equal. lia. }
  split; [exact Hlen|].
  intros H0 Hne. induction evs as [|e' evs IH] using rev_ind; [congruence|].
  destruct (runBackups_frame JSON_stringify isoDate evs s) as [Hdb' Hmax'].
  rewrite runBackups_snoc.
  assert (Hopen : db (runBackups JSON_stringify isoDate evs s) = true) by congruence.
  destruct (backupStep_open JSON_stringify isoDate _ e' Hopen) as (_ & _ & _ & Hh').
  rewrite Hh'.
  destruct (newHistory_nonpositive (entryOf isoDate e')
              (backupHistory (runBackups JSON_stringify isoDate evs s))
              (backupConfig (runBackups JSON_stringify isoDate evs s)))
    as (_ & Hlen'); [lia|].
  rewrite Hlen', Hmax', H0.
  destruct evs as [|e0 evs0].
  - simpl. fold h. lia.
  - rewrite IH by discriminate. lia.
Qed.

End HistoryProperties.

Lemma history_outgrows_sample :
  let s := runBackups RefPlatform.stringify RefPlatform.isoDate
             [Manual 1700000000000; Manual 1700000100000]
             Sample.session in
  let s0 := changeMaxBackups 0 s in
  db s0 = true ∧ maxBackups (backupConfig s0) ≤ 0
  ∧ (maxBackups (backupConfig s0) = 0 → [Manual 1700000200000] ≠ [] →
     Z.of_nat (length (backupHistory
                 (runBackups RefPlatform.stringify RefPlatform.isoDate
                    [Manual 1700000200000] s0)))
     = Z.max 1 (Z.of_nat (length (backupHistory s0)))).
Proof.
  intros s s0.
  assert (h1 : db s0 = true) by (vm_compute; reflexivity).
  assert (h2 : maxBackups (backupConfig s0) ≤ 0) by (vm_compute; intros H; discriminate H).
  split; [exact h1|]. split; [exact h2|].
  apply (history_outgrows_nonpositive_bound RefPlatform.stringify RefPlatform.isoDate
           s0 (Manual 1700000200000) [Manual 1700000200000] h1 h2).
Defined.

Lemma savePatients_installs_sample :
  let ups := [Sample.asha; Sample.ravi] in
  let l := [(KStr "1700000000000", Sample.asha); (KStr "1600000000000", Sample.ravi)] in
  db Sample.fresh = true ∧ keyed ups = Some l ∧ NoDup l.*1
  ∧ getAll (idb (savePatients ups Sample.fresh).1) ≡ₚ ups.
Proof.
  intros ups l.
  assert (h1 : db Sample.fresh = true) by (vm_compute; reflexivity).
  assert (h2 : keyed ups = Some l) by (vm_compute; reflexivity).
  assert (h3 : NoDup l.*1) by (apply (bool_decide_unpack _); vm_compute; reflexivity).
  repeat (split; [assumption|]).
  apply (savePatients_installs ups l Sample.fresh h1 h2 h3).
Defined.

Lemma savePatients_repeated_id_sample :
  let ups := [Sample.asha; Sample.asha] in
  let l := [(KStr "1700000000000", Sample.asha); (KStr "1700000000000", Sample.asha)] in
  db Sample.session = true ∧ keyed ups = Some l ∧ ¬ NoDup l.*1
  ∧ idb (savePatients ups Sample.session).1 = idb Sample.session.
Proof.
  intros ups l.
  assert (h1 : db Sample.session = true) by (vm_compute; reflexivity).
  assert (h2 : keyed ups = Some l) by (vm_compute; reflexivity).
  assert (h3 : ¬ NoDup l.*1) by (apply (bool_decide_unpack _); vm_compute; reflexivity).
  repeat (split; [assumption|]).
  apply (savePatients_repeated_id_rolls_back ups l Sample.session h1 h2 h3).
Defined.

Lemma savePatients_invalid_id_sample :
  let l := [(KStr "1700000000000", Sample.asha)] in
  let bad := [("name", JStr "Meera")] in
  db Sample.session = true ∧ keyed [Sample.asha] = Some l ∧ NoDup l.*1
  ∧ extract_key bad = None
  ∧ savePatients ([Sample.asha] ++ bad :: [Sample.ravi]) Sample.session
    = (setIdb (list_to_map l) Sample.session, true).
Proof.
  intros l bad.
  assert (h1 : db Sample.session = true) by (vm_compute; reflexivity).
  assert (h2 : keyed [Sample.asha] = Some l) by (vm_compute; reflexivity).
  assert (h3 : NoDup l.*1) by (apply (bool_decide_unpack _); vm_compute; reflexivity).
  assert (h4 : extract_key bad = None) by (vm_compute; reflexivity).
  repeat (split; [assumption|]).
  apply (savePatients_invalid_id_keeps_prefix [Sample.asha] [Sample.ravi] bad l
           Sample.session h1 h2 h3 h4).
Defined.

Lemma restoreData_installs_sample :
  let rs := [Sample.ravi; Sample.asha] in
  let l := [(KStr "1600000000000", Sample.ravi); (KStr "1700000000000", Sample.asha)] in
  let text := RefPlatform.stringify (JArr (JObj <$> rs)) in
  db Sample.fresh = true
  ∧ RefPlatform.parse text = Some (JArr (JObj <$> rs))
  ∧ keyed rs = Some l ∧ NoDup l.*1
  ∧ idb (restoreData RefPlatform.parse text Sample.fresh) = list_to_map l.
Proof.
  intros rs l text.
  assert (h1 : db Sample.fresh = true) by (vm_compute; reflexivity).
  assert (h2 : RefPlatform.parse text = Some (JArr (JObj <$> rs)))
    by (vm_compute; reflexivity).
  assert (h3 : keyed rs = Some l) by (vm_compute; reflexivity).
  assert (h4 : NoDup l.*1) by (apply (bool_decide_unpack _); vm_compute; reflexivity).
  repeat (split; [assumption|]).
  apply (restoreData_installs_records RefPlatform.parse text rs l Sample.fresh
           h1 h2 h3 h4).
Defined.

Lemma restoreData_repeated_id_sample :
  let rs := [Sample.ravi; Sample.ravi] in
  let l := [(KStr "1600000000000", Sample.ravi); (KStr "1600000000000", Sample.ravi)] in
  let text := RefPlatform.stringify (JArr (JObj <$> rs)) in
  db Sample.session = true
  ∧ RefPlatform.parse text = Some (JArr (JObj <$> rs))
  ∧ keyed rs = Some l ∧ ¬ NoDup l.*1
  ∧ idb (restoreData RefPlatform.parse text Sample.session) = idb Sample.session.
Proof.
  intros rs l text.
  assert (h1 : db Sample.session = true) by (vm_compute; reflexivity).
  assert (h2 : RefPlatform.parse text = Some (JArr (JObj <$> rs)))
    by (vm_compute; reflexivity).
  assert (h3 : keyed rs = Some l) by (vm_compute; reflexivity).
  assert (h4 : ¬ NoDup l.*1) by (apply (bool_decide_unpack _); vm_compute; reflexivity).
  repeat (split; [assumption|]).
  apply (restoreData_repeated_id_reports_success RefPlatform.parse text rs l
           Sample.session h1 h2 h3 h4).
Defined.

(** ** The order of an export *)

Lemma key_cmp_antisym : ∀ a b, key_cmp b a = CompOpp (key_cmp a b).
Proof.
  fix IH 1. intros [x|x|xs] [y|y|ys]; simpl; try reflexivity.
  - apply Z.compare_antisym.
  - apply String.compare_antisym.
  - revert ys. induction xs as [|x xs IHxs]; intros [|y ys]; simpl;
      try reflexivity.
    rewrite (IH x y). destruct (key_cmp x y); simpl; try reflexivity.
    apply IHxs.
Qed.

Lemma key_leb_total :
  Total (λ a b : idb_key * obj, Is_true (key_leb a.1 b.1)).
Proof.
  intros [a p] [b q]. unfold key_leb. simpl.
  rewrite (key_cmp_antisym a b).
  destruct (key_cmp a b); simpl; auto.
Qed.

Lemma Sorted_fmap_on {A B} (R1 : relation A) (R2 : relation B) (P : A → Prop)
    (f : A → B) (l : list A) :
  (∀ x y, P x → P y → R1 x y → R2 (f x) (f y)) →
  Forall P l → Sorted R1 l → Sorted R2 (f <$> l).
Proof.
  intros Hf HP Hs. induction Hs as [|x l Hs IH Hhd]; [constructor|].
  apply list.Forall_cons in HP as [Hx HP]. rewrite fmap_cons.
  constructor; [apply IH; exact HP|].
  destruct Hhd as [|y l' Hxy]; [constructor|].
  apply list.Forall_cons in HP as [Hy _]. rewrite fmap_cons.
  constructor. apply Hf; assumption.
Qed.

Lemma getAll_ascending_ids (b : Z) (s : AppState) :
  actInv b s →
  Sorted (λ p q, ∃ x y, prop "id" p = Some (JStr x)
                        ∧ prop "id" q = Some (JStr y)
                        ∧ String.compare x y ≠ Gt)
    (getAll (idb s)).
Proof.
  intros (_ & Hids & _ & _ & _ & l & Hl & Hnd & Hidb).
  destruct (keyed_spec _ _ Hl) as (Hl2 & Hkeys).
  unfold getAll.
  apply (Sorted_fmap_on
           (λ a b : idb_key * obj, Is_true (key_leb a.1 b.1)) _
           (λ kp, ∃ x, kp.1 = KStr x ∧ prop "id" kp.2 = Some (JStr x))).
  - intros [k p] [k' p'] (x & Hk & Hp) (y & Hk' & Hp') Hle. simpl in *.
    subst k k'. exists x, y. split; [exact Hp|]. split; [exact Hp'|].
    unfold key_leb in Hle. simpl in Hle. intros E. rewrite E in Hle. exact Hle.
  - rewrite merge_sort_Permutation. rewrite Hidb.
    rewrite map_to_list_to_map by exact Hnd.
    rewrite list.Forall_forall in Hkeys. rewrite list.Forall_forall in Hids.
    apply list.Forall_forall.
    intros [k p] Hin. simpl.
    assert (Hp : p ∈ patients s).
    { rewrite <- Hl2. apply list_elem_of_fmap. exists (k, p). split; [reflexivity|exact Hin]. }
    assert (Hst : stampedBelow b (prop "id" p)).
    { apply Hids. apply list_elem_of_fmap. exists p. split; [reflexivity|exact Hp]. }
    destruct (extract_key_stamped b p Hst) as (x & Hid & Hkey).
    exists x. split; [|exact Hid].
    pose proof (Hkeys _ Hin) as Hk. simpl in Hk. congruence.
  - pose proof key_leb_total as Htotal. apply Sorted_merge_sort; exact _.
Qed.

(** ** The localStorage variant: what a reload finds *)

Section ReloadProperties.

Variable JSON_stringify : json → string.
Variable JSON_parse : string → option json.
Variable isoDate : Z → string.

Local Abbreviation hasMeds := (λ p : obj, truthyV (prop "medications" p) = true).
Local Abbreviation savedPage := (LSPage.saved JSON_stringify).

Lemma savedPage_install (ps : list obj) (s : LS.State) :
  Forall hasMeds ps →
  (∀ sel, LS.selectedPatient s = Some sel → hasMeds sel) →
  savedPage (LS.install JSON_stringify ps s).
Proof.
  intros Hps Hsel. split; [right; reflexivity|]. split; assumption.
Qed.

Lemma savedPage_cells (s s' : LS.State) :
  LS.storage s' = LS.storage s → LS.patients s' = LS.patients s →
  (∀ sel, LS.selectedPatient s' = Some sel → hasMeds sel) →
  savedPage s → savedPage s'.
Proof.
  intros E1 E2 Hsel (Hst & Hps & _). unfold LSPage.saved.
  rewrite E1, E2. repeat split; assumption.
Qed.

Lemma hasMeds_edited (eid : json) (draft : obj) (ps : list obj) :
  Forall hasMeds ps → Forall hasMeds (editedPatients eid draft ps).
Proof.
  intros H. unfold editedPatients. apply Forall_fmap.
  eapply list.Forall_impl; [exact H|]. intros p Hp. simpl.
  destruct (strict_eq (prop "id" p) (Some eid)); [|exact Hp].
  rewrite prop_obj_set_eq. simpl. apply orElse_is_truthy. reflexivity.
Qed.

Lemma hasMeds_appended (now : Z) (draft : obj) (ps : list obj) :
  Forall hasMeds ps → Forall hasMeds (appendedPatients now draft ps).
Proof.
  intros H. unfold appendedPatients. apply Forall_app. split; [exact H|].
  constructor; [|constructor]. rewrite prop_obj_set_eq. reflexivity.
Qed.

Lemma addPatient_saved (now : Z) (s : LS.State) :
  savedPage s → savedPage (LS.addPatient JSON_stringify isoDate now s).
Proof.
  intros Hs. pose proof Hs as (_ & Hps & Hsel). unfold LS.addPatient.
  destruct (draftIncomplete (LS.newPatient s)).
  { revert Hs. apply savedPage_cells; try reflexivity. exact Hsel. }
  destruct (match LS.editingId s with
            | Some eid => if truthy eid then Some eid else None
            | None => None
            end) as [eid|].
  - apply (savedPage_cells
             (LS.install JSON_stringify
                (editedPatients eid (LS.newPatient s) (LS.patients s)) s));
      try reflexivity; [exact Hsel|].
    apply savedPage_install; [|exact Hsel]. apply hasMeds_edited. exact Hps.
  - apply (savedPage_cells
             (LS.install JSON_stringify
                (appendedPatients now (LS.newPatient s) (LS.patients s)) s));
      try reflexivity; [exact Hsel|].
    apply savedPage_install; [|exact Hsel]. apply hasMeds_appended. exact Hps.
Qed.

Lemma deletePatient_saved (pid : option json) (c : bool) (s : LS.State) :
  savedPage s → savedPage (LSPage.deletePatient JSON_stringify pid c s).
Proof.
  intros Hs. pose proof Hs as (_ & Hps & Hsel). unfold LSPage.deletePatient.
  destruct c; [|exact Hs].
  set (ups := filter (λ p, strict_eq (prop "id" p) pid = false) (LS.patients s)).
  assert (Hups : Forall hasMeds ups).
  { eapply Forall_sublist; [apply sublist_filter|exact Hps]. }
  destruct (strict_eq (LS.selectedPatient s ≫= prop "id") pid).
  - apply (savedPage_cells (LS.install JSON_stringify ups s)); try reflexivity.
    + intros sel H. discriminate H.
    + apply savedPage_install; assumption.
  - apply savedPage_install; assumption.
Qed.

Lemma dropMedication_hasMeds (mid : option json) (p p' : obj) :
  dropMedication mid p = Some p' → hasMeds p'.
Proof.
  unfold dropMedication.
  destruct (prop "medications" p) as [[| | | |ms|]|]; try discriminate.
  destruct (withoutMedication mid ms) as [ms'|]; [|discriminate].
  simpl. intros [= <-]. rewrite prop_obj_set_eq. reflexivity.
Qed.

Lemma dropAll_hasMeds (pid mid : option json) (ps ups : list obj) :
  Forall hasMeds ps →
  mapM (λ p, if strict_eq (prop "id" p) pid
             then dropMedication mid p else Some p) ps = Some ups →
  Forall hasMeds ups.
Proof.
  intros Hps E. apply mapM_Some_1 in E.
  induction E as [|p p' ps ups Hp _ IH]; [constructor|].
  apply list.Forall_cons in Hps as [Hp0 Hps].
  constructor; [|apply IH; exact Hps].
  destruct (strict_eq (prop "id" p) pid).
  - eapply dropMedication_hasMeds. exact Hp.
  - injection Hp as <-. exact Hp0.
Qed.

Lemma deleteMedication_saved (pid mid : option json) (c : bool) (s : LS.State) :
  savedPage s → savedPage (LSPage.deleteMedication JSON_stringify pid mid c s).
Proof.
  intros Hs. pose proof Hs as (_ & Hps & Hsel). unfold LSPage.deleteMedication.
  destruct c; [|exact Hs].
  destruct (mapM _ (LS.patients s)) as [ups|] eqn:E; [|exact Hs].
  assert (Hups : Forall hasMeds ups) by (eapply dropAll_hasMeds; eassumption).
  destruct (strict_eq (LS.selectedPatient s ≫= prop "id") pid);
    [|apply savedPage_install; assumption].
  destruct (LS.selectedPatient s ≫= dropMedication mid) as [sel'|] eqn:Ed;
    [|apply savedPage_install; assumption].
  apply (savedPage_cells (LS.install JSON_stringify ups s)); try reflexivity.
  - intros sel [= <-].
    destruct (LS.selectedPatient s) as [sel0|]; [|discriminate].
    eapply dropMedication_hasMeds. exact Ed.
  - apply savedPage_install; assumption.
Qed.

Lemma deleteMedicationRow_saved (j : nat) (c : bool) (s : LS.State) :
  savedPage s → savedPage (LSPage.deleteMedicationRow JSON_stringify j c s).
Proof.
  intros Hs. unfold LSPage.deleteMedicationRow.
  destruct (LS.selectedPatient s) as [sel|]; [|exact Hs].
  destruct (orElse (prop "medications" sel) (JArr [])); try exact Hs.
  destruct (_ ≫= memberId); [|exact Hs].
  apply deleteMedication_saved. exact Hs.
Qed.

Lemma replaced_saved (s : LS.State) (sel up : obj) :
  savedPage s → hasMeds up →
  savedPage
    (LS.install JSON_stringify
       ((λ p, if strict_eq (prop "id" p) (prop "id" sel) then up else p)
          <$> LS.patients s)
       (LSPage.setSelectedPatient (Some up) s)).
Proof.
  intros (_ & Hps & _) Hup. apply savedPage_install.
  - apply Forall_replace; assumption.
  - intros sel' [= <-]. exact Hup.
Qed.

Lemma updateNextVisitDate_saved (date : string) (s : LS.State) :
  savedPage s → savedPage (LSPage.updateNextVisitDate JSON_stringify date s).
Proof.
  intros Hs. pose proof Hs as (_ & _ & Hsel). unfold LSPage.updateNextVisitDate.
  destruct (LS.selectedPatient s) as [sel|] eqn:E; [|exact Hs].
  apply replaced_saved; [exact Hs|].
  rewrite prop_obj_set_ne by discriminate. apply Hsel. first [exact E|reflexivity].
Qed.

Lemma addMedication_saved (now : Z) (s : LSPage.Session) :
  savedPage (LSPage.page s) →
  savedPage (LSPage.page (LSPage.addMedication JSON_stringify now s)).
Proof.
  intros Hs. pose proof Hs as (_ & _ & Hsel). unfold LSPage.addMedication.
  destruct (LS.selectedPatient (LSPage.page s)) as [sel|] eqn:E; [|exact Hs].
  destruct (LSPage.medicationIncomplete (LSPage.newMedication s)).
  { simpl. revert Hs. apply savedPage_cells; try reflexivity.
    simpl. intros sel' [= <-]. apply Hsel. first [exact E|reflexivity]. }
  destruct (spread _) as [meds|]; [|exact Hs].
  simpl. apply replaced_saved; [exact Hs|].
  rewrite prop_obj_set_eq. reflexivity.
Qed.

Lemma act_saved (s : LSPage.Session) (a : LSPage.action) :
  savedPage (LSPage.page s) →
  savedPage (LSPage.page (LSPage.act JSON_stringify isoDate s a)).
Proof.
  intros Hs. pose proof Hs as (_ & Hps & Hsel).
  destruct a as [f v|now|i|now|i c|i| |f v|now|j c|date]; simpl.
  - revert Hs. apply savedPage_cells; try reflexivity. exact Hsel.
  - apply addPatient_saved. exact Hs.
  - destruct (LS.patients (LSPage.page s) !! i); [|exact Hs].
    simpl. revert Hs. apply savedPage_cells; try reflexivity. exact Hsel.
  - revert Hs. apply savedPage_cells; try reflexivity. exact Hsel.
  - destruct (LS.patients (LSPage.page s) !! i); [|exact Hs].
    simpl. apply deletePatient_saved. exact Hs.
  - destruct (LS.patients (LSPage.page s) !! i); [|exact Hs].
    simpl. revert Hs. apply savedPage_cells; try reflexivity.
    simpl. intros sel [= <-]. apply normalize_has_medications.
  - revert Hs. apply savedPage_cells; try reflexivity. intros sel H. discriminate H.
  - exact Hs.
  - apply addMedication_saved. exact Hs.
  - apply deleteMedicationRow_saved. exact Hs.
  - apply updateNextVisitDate_saved. exact Hs.
Qed.

Lemma runActions_saved (acts : list LSPage.action) (s : LSPage.Session) :
  savedPage (LSPage.page s) →
  savedPage (LSPage.page (LSPage.runActions JSON_stringify isoDate acts s)).
Proof.
  revert s. induction acts as [|a acts IH]; intros s Hs; [exact Hs|].
  apply IH. apply act_saved. exact Hs.
Qed.

Lemma mapM_normalizeValue_records (ps : list obj) :
  Forall hasMeds ps → mapM LS.normalizeValue (JObj <$> ps) = Some ps.
Proof.
  induction 1 as [|p ps Hp _ IH]; [reflexivity|].
  rewrite fmap_cons. simpl. rewrite IH. simpl.
  rewrite (normalize_normalized p Hp). reflexivity.
Qed.


(** X21.  An add-medication request with an incomplete entry (no
    description in the IndexedDB variant; no name, dosage or frequency in
    the localStorage variant) only shows its message: collection, store,
    open patient and form are what they were.  With no patient open the
    request does nothing. *)
Theorem addMedication_rejects_incomplete_entry
    (s : AppState) (ls : LSPage.Session) (now : Z) (sel lsel : obj) :
  selectedPatient s = Some sel →
  truthyV (prop "description" (newMedication s)) = false →
  LS.selectedPatient (LSPage.page ls) = Some lsel →
  (truthyV (prop "name" (LSPage.newMedication ls)) = false
   ∨ truthyV (prop "dosage" (LSPage.newMedication ls)) = false
   ∨ truthyV (prop "frequency" (LSPage.newMedication ls)) = false) →
  let ls' := LSPage.addMedication JSON_stringify now ls in
  addMedication isoDate now s = alert "Please enter medication description." s
  ∧ addMedication isoDate now (setSelectedPatient None s) = setSelectedPatient None s
  ∧ LS.patients (LSPage.page ls') = LS.patients (LSPage.page ls)
  ∧ LS.storage (LSPage.page ls') = LS.storage (LSPage.page ls)
  ∧ LS.selectedPatient (LSPage.page ls') = Some lsel
  ∧ LSPage.newMedication ls' = LSPage.newMedication ls
  ∧ LS.alerts (LSPage.page ls')
    = "Please fill all required medication fields." :: LS.alerts (LSPage.page ls).
Proof.
  intros Hsel Hd Hlsel H ls'.
  assert (E : LSPage.medicationIncomplete (LSPage.newMedication ls) = true).
  { unfold LSPage.medicationIncomplete. destruct H as [->| [->| ->]]; simpl;
      rewrite ?orb_true_r; reflexivity. }
  split; [unfold addMedication; rewrite Hsel, Hd; reflexivity|].
  split; [reflexivity|].
  unfold ls', LSPage.addMedication. rewrite Hlsel, E. simpl.
  repeat split; try exact Hlsel.
Qed.

(** X22.  In a state reached as in X6, a manual backup delivers one file
    whose content is the serialisation of the patients in memory, in
    ascending order of their ids compared as texts, which is the order
    in which the store returns them; it changes neither the collection
    nor the store. *)
Theorem backup_exports_the_collection
    (s0 : AppState) (acts : list action) (t : Z) :
  db s0 = true → idb s0 = ∅ → patients s0 = [] → selectedPatient s0 = None →
  Sorted Z.lt (actionStamps acts) →
  let s := runActions isoDate acts s0 in
  let s' := backupData JSON_stringify isoDate t s in
  ∃ data,
    data ≡ₚ patients s
    ∧ Sorted (λ p q, ∃ x y, prop "id" p = Some (JStr x)
                            ∧ prop "id" q = Some (JStr y)
                            ∧ String.compare x y ≠ Gt) data
    ∧ downloads s'
      = ("patient-care-backup-" +:+ isoDate t +:+ ".json",
         JSON_stringify (JArr (JObj <$> data))) :: downloads s
    ∧ patients s' = patients s ∧ idb s' = idb s.
Proof.
  intros Hd Hi Hp Hs Hsorted s s'.
  destruct (actInv_reached isoDate s0 acts Hd Hi Hp Hs Hsorted) as (b & Hinv).
  fold s in Hinv. pose proof Hinv as (Hdb & _ & _ & _ & _ & Hmir).
  exists (getAll (idb s)).
  split; [apply mirrored_getAll; exact Hmir|].
  split; [apply (getAll_ascending_ids b); exact Hinv|].
  unfold s', backupData. rewrite Hdb. simpl. repeat split.
Qed.

End ReloadProperties.



Lemma addMedication_rejects_sample :
  selectedPatient (handlePatientClick Sample.asha Sample.session) = Some Sample.asha
  ∧ truthyV (prop "description"
               (newMedication (handlePatientClick Sample.asha Sample.session))) = false
  ∧ LS.selectedPatient (LSPage.page ScenarioLS.opened) = Some (normalize Sample.ravi)
  ∧ truthyV (prop "name" (LSPage.newMedication ScenarioLS.opened)) = false
  ∧ addMedication RefPlatform.isoDate 1700000000900
      (handlePatientClick Sample.asha Sample.session)
    = alert "Please enter medication description."
        (handlePatientClick Sample.asha Sample.session).
Proof.
  assert (h1 : selectedPatient (handlePatientClick Sample.asha Sample.session)
               = Some Sample.asha) by (vm_compute; reflexivity).
  assert (h2 : truthyV (prop "description"
                 (newMedication (handlePatientClick Sample.asha Sample.session)))
               = false) by (vm_compute; reflexivity).
  assert (h3 : LS.selectedPatient (LSPage.page ScenarioLS.opened)
               = Some (normalize Sample.ravi)) by (vm_compute; reflexivity).
  assert (h4 : truthyV (prop "name" (LSPage.newMedication ScenarioLS.opened)) = false)
    by (vm_compute; reflexivity).
  repeat (split; [assumption|]).
  apply (addMedication_rejects_incomplete_entry RefPlatform.stringify
           RefPlatform.isoDate (handlePatientClick Sample.asha Sample.session)
           ScenarioLS.opened 1700000000900 Sample.asha (normalize Sample.ravi)
           h1 h2 h3 (or_introl h4)).
Defined.

Lemma backup_exports_sample :
  let s := runActions RefPlatform.isoDate Scenario.busy Sample.fresh in
  Sorted Z.lt (actionStamps Scenario.busy)
  ∧ ∃ data,
      data ≡ₚ patients s
      ∧ Sorted (λ p q, ∃ x y, prop "id" p = Some (JStr x)
                              ∧ prop "id" q = Some (JStr y)
                              ∧ String.compare x y ≠ Gt) data
      ∧ downloads (backupData RefPlatform.stringify RefPlatform.isoDate
                     1700000001000 s)
        = ("patient-care-backup-" +:+ RefPlatform.isoDate 1700000001000 +:+ ".json",
           RefPlatform.stringify (JArr (JObj <$> data))) :: downloads s.
Proof.
  intros s.
  assert (h1 : db Sample.fresh = true) by (vm_compute; reflexivity).
  assert (h2 : idb Sample.fresh = ∅) by (vm_compute; reflexivity).
  assert (h3 : patients Sample.fresh = []) by (vm_compute; reflexivity).
  assert (h4 : selectedPatient Sample.fresh = None) by (vm_compute; reflexivity).
  assert (h5 : Sorted Z.lt (actionStamps Scenario.busy)).
  { change (actionStamps Scenario.busy)
      with [1700000000000; 1700000000001; 1700000000500; 1700000000600;
            1700000000700; 1700000000800].
    repeat constructor. }
  split; [exact h5|].
  destruct (backup_exports_the_collection RefPlatform.stringify RefPlatform.isoDate
              Sample.fresh Scenario.busy 1700000001000 h1 h2 h3 h4 h5)
    as (data & Hperm & Hord & Hdl & _).
  exists data. split; [exact Hperm|]. split; [exact Hord|exact Hdl].
Defined.

(** ** The list shown *)

Lemma prefix_empty (s : string) : String.prefix "" s = true.
Proof. destruct s; reflexivity. Qed.

Lemma includes_empty (s : string) : includes s "" = true.
Proof. destruct s; reflexivity. Qed.

Lemma prefix_refl (s : string) : String.prefix s s = true.
Proof.
  induction s as [|c s IH]; [reflexivity|]. simpl.
  destruct (ascii_dec c c); [exact IH|congruence].
Qed.

Lemma includes_refl (s : string) : includes s s = true.
Proof. destruct s as [|c s]; simpl; [reflexivity|]. 
  destruct (ascii_dec c c); [|congruence]. rewrite prefix_refl. reflexivity.
Qed.

Lemma filterShown_sublist (keep : obj → option bool) (ps l : list obj) :
  filterShown keep ps = Some l →
  l `sublist_of` ps
  ∧ ∀ p, p ∈ ps → keep p = Some true → p ∈ l.
Proof.
  revert l. induction ps as [|p ps IH]; intros l H; simpl in H.
  - injection H as <-. split; [constructor|]. intros p Hp. inversion Hp.
  - destruct (keep p) as [b|] eqn:Eb; [|discriminate]. simpl in H.
    destruct (filterShown keep ps) as [rest|]; [|discriminate]. simpl in H.
    injection H as <-. destruct (IH rest eq_refl) as [Hsub Hin]. split.
    + destruct b; [apply sublist_skip|apply sublist_cons]; exact Hsub.
    + intros q Hq Hk. apply elem_of_cons in Hq as [->|Hq].
      * rewrite Hk in Eb. injection Eb as <-. left.
      * destruct b; [right|]; apply Hin; assumption.
Qed.

Lemma filterShown_all (keep : obj → option bool) (ps : list obj) :
  Forall (λ p, keep p = Some true) ps → filterShown keep ps = Some ps.
Proof.
  induction 1 as [|p ps Hp _ IH]; [reflexivity|].
  simpl. rewrite Hp, IH. reflexivity.
Qed.

Lemma filterShown_throws (keep : obj → option bool) (ps : list obj) (p : obj) :
  p ∈ ps → keep p = None → filterShown keep ps = None.
Proof.
  intros Hin Hk. induction ps as [|q ps IH]; [inversion Hin|].
  apply elem_of_cons in Hin as [<-|Hin]; simpl.
  - rewrite Hk. reflexivity.
  - rewrite (IH Hin). destruct (keep q); reflexivity.
Qed.

Section SearchProperties.

Variable toLowerCase : string → string.
Variable sameLocalDay : option json → string → bool.

Local Abbreviation rows := (filteredPatients toLowerCase sameLocalDay).


(** X24.  The import accepts records that have an id and nothing else.
    After importing a snapshot with valid, distinct keys in which some
    record has no name (or a name that is not text), the import reports
    success, the record is in the collection, and computing the list
    shown throws for every search text and date filter. *)
Theorem record_without_name_breaks_the_list
    (JSON_parse : string → option json) (text : string)
    (rs : list obj) (l : list (idb_key * obj)) (r : obj) (s : AppState)
    (search dateFilter : string) :
  db s = true →
  JSON_parse text = Some (JArr (JObj <$> rs)) →
  keyed rs = Some l → NoDup l.*1 →
  r ∈ rs → (∀ name, prop "name" r ≠ Some (JStr name)) →
  let s' := restoreData JSON_parse text s in
  alerts s' = "Data restored successfully!" :: alerts s
  ∧ normalize r ∈ patients s'
  ∧ rows search dateFilter (patients s') = None.
Proof.
  intros Hdb Hp Hk Hnd Hr Hname s'.
  assert (E : s' = alert "Data restored successfully!"
                     (loadPatients (setIdb (list_to_map l) s))).
  { unfold s', restoreData. rewrite Hdb, Hp. simpl. unfold restoreParsed.
    rewrite (forEach_add_of_keyed rs l Hk), clear_add_distinct by exact Hnd.
    reflexivity. }
  assert (Hin : normalize r ∈ patients s').
  { rewrite E. simpl. apply list_elem_of_fmap. exists r. split; [reflexivity|].
    rewrite getAll_list_to_map by exact Hnd.
    rewrite (proj1 (keyed_spec rs l Hk)). exact Hr. }
  split; [rewrite E; reflexivity|]. split; [exact Hin|].
  apply (filterShown_throws _ _ (normalize r) Hin).
  unfold shown, matchesSearch. rewrite !normalize_other by discriminate.
  destruct (prop "name" r) as [[|b0|n0|name|l0|o0]|]; try reflexivity.
  exfalso. apply (Hname name). reflexivity.
Qed.

End SearchProperties.


Lemma record_without_name_sample :
  let r := [("id", JStr "7")] in
  let rs := [Sample.asha; r] in
  let l := [(KStr "1700000000000", Sample.asha); (KStr "7", r)] in
  let text := RefPlatform.stringify (JArr (JObj <$> rs)) in
  db Sample.fresh = true
  ∧ RefPlatform.parse text = Some (JArr (JObj <$> rs))
  ∧ keyed rs = Some l ∧ NoDup l.*1 ∧ r ∈ rs
  ∧ (∀ name, prop "name" r ≠ Some (JStr name))
  ∧ filteredPatients asciiLower sameWritten "" ""
      (patients (restoreData RefPlatform.parse text Sample.fresh)) = None.
Proof.
  intros r rs l text.
  assert (h1 : db Sample.fresh = true) by (vm_compute; reflexivity).
  assert (h2 : RefPlatform.parse text = Some (JArr (JObj <$> rs)))
    by (vm_compute; reflexivity).
  assert (h3 : keyed rs = Some l) by (vm_compute; reflexivity).
  assert (h4 : NoDup l.*1) by (apply (bool_decide_unpack _); vm_compute; reflexivity).
  assert (h5 : r ∈ rs) by (right; left).
  assert (h6 : ∀ name, prop "name" r ≠ Some (JStr name))
    by (intros name H; discriminate H).
  repeat (split; [assumption|]).
  apply (record_without_name_breaks_the_list asciiLower sameWritten
           RefPlatform.parse text rs l r Sample.fresh "" "" h1 h2 h3 h4 h5 h6).
Defined.
